(** * commit-doc-verifier: a shallow embedding of [verify.py]

    The script fetches a markdown feature log from a repository, parses the
    feature table in it and cross-checks every row against the commit the
    row names.  This development embeds the three core routines
    ([fetch_github_file], [verify_commit], [parse_feature_table]) and the
    pipeline [run_verification] that ties them together, and proves
    properties of them.

    Modelling conventions.
    - A Python [str] is a [string]; its characters are the code points
      0..255, on which Python's whitespace class ([str.strip]) and digit
      class ([\d]) are the ones written out below.
    - [print] and [session.get] are recorded in a chronological trace of
      events; the remote service is an oracle that answers a request from
      the trace up to and including that request.
    - A JSON body is a record of the keys the script reads.  A key the
      script tells apart as absent, [null] or present is a [field]; a key it
      only reads through [.get(key)], where absent and [null] both give
      [None], is an [option].  A value that is present and not [null] has
      the type the service's schema gives it (a string, an object), except
      for [author], whose type the script tests itself.
    - [run_verification] has no [try] block: an exception raised in it
      leaves it at once, so its outcome is a returned value or a raised
      exception, and raising is an early exit with the latter.
    - Dictionaries that are only looked up are [gmap]s; the dictionary that
      is iterated ([expected_features]) is an association list in insertion
      order. *)

From Stdlib Require Import ZArith Ascii String List Bool Lia.
From stdpp Require Import base option list strings gmap.

Local Open Scope Z_scope.
Local Open Scope list_scope.
Local Open Scope stdpp_scope.

(** ** Text primitives *)

Module Text.

(** [p.startswith]-style test: [startswith p s] is [s.startswith(p)]. *)
Fixpoint startswith (p s : string) : bool :=
  match p, s with
  | EmptyString, _ => true
  | String a p', String b s' => if Ascii.eqb a b then startswith p' s' else false
  | String _ _, EmptyString => false
  end.

(** [contains sub s] is Python's [sub in s] on strings. *)
Fixpoint contains (sub s : string) : bool :=
  startswith sub s ||
  match s with
  | EmptyString => false
  | String _ s' => contains sub s'
  end.

(** [str.isspace] on the code points below 256. *)
Definition is_space (c : ascii) : bool :=
  match c with
  | "009" | "010" | "011" | "012" | "013"
  | "028" | "029" | "030" | "031" | " " | "133" | "160" => true
  | _ => false
  end%char.

Fixpoint lstrip (s : string) : string :=
  match s with
  | EmptyString => EmptyString
  | String c s' => if is_space c then lstrip s' else s
  end.

Fixpoint rstrip (s : string) : string :=
  match s with
  | EmptyString => EmptyString
  | String c s' =>
      match rstrip s' with
      | EmptyString => if is_space c then EmptyString else String c EmptyString
      | r => String c r
      end
  end.

(** [s.strip()] *)
Definition strip (s : string) : string := rstrip (lstrip s).

(** [s.split(sep)] for a one-character separator; the result is never
    empty. *)
Fixpoint split (sep : ascii) (s : string) : list string :=
  match s with
  | EmptyString => [EmptyString]
  | String c s' =>
      if Ascii.eqb c sep then EmptyString :: split sep s'
      else match split sep s' with
           | h :: t => String c h :: t
           | [] => [String c EmptyString]
           end
  end.

(** The slice [l[1:-1]]. *)
Definition slice_1_m1 {A} (l : list A) : list A := removelast (tail l).

(** The slice [s[:n]]. *)
Fixpoint take (n : nat) (s : string) : string :=
  match n, s with
  | S n', String c s' => String c (take n' s')
  | _, _ => EmptyString
  end.

(** Every character of [s] is in the class [cls]. *)
Fixpoint all_chars (cls : ascii -> bool) (s : string) : bool :=
  match s with
  | EmptyString => true
  | String c s' => cls c && all_chars cls s'
  end.

(** The character [c] does not occur in [s]. *)
Definition lacks (c : ascii) (s : string) : bool :=
  all_chars (fun x => negb (Ascii.eqb x c)) s.

(** *** The two regular expressions of the script

    Both are used through [re.match] with [^] and [$]; without
    [re.MULTILINE] the anchor [$] holds at the end of the string and
    also just before a newline that ends the string. *)

(** [c{n}]: consume exactly [n] characters of class [cls]. *)
Fixpoint repeat_class (cls : ascii -> bool) (n : nat) (s : string) : option string :=
  match n with
  | O => Some s
  | S n' =>
      match s with
      | String c s' => if cls c then repeat_class cls n' s' else None
      | EmptyString => None
      end
  end.

(** A literal character. *)
Definition literal (a : ascii) (s : string) : option string :=
  match s with
  | String c s' => if Ascii.eqb c a then Some s' else None
  | EmptyString => None
  end.

(** The anchor [$]. *)
Definition at_dollar (s : string) : bool :=
  match s with
  | EmptyString => true
  | String "010"%char EmptyString => true
  | _ => false
  end.

(** [[a-f0-9]] *)
Definition is_lower_hex (c : ascii) : bool :=
  let n := nat_of_ascii c in
  ((48 <=? n)%nat && (n <=? 57)%nat) || ((97 <=? n)%nat && (n <=? 102)%nat).

(** [\d] on the code points below 256 *)
Definition is_digit (c : ascii) : bool :=
  let n := nat_of_ascii c in (48 <=? n)%nat && (n <=? 57)%nat.

(** [re.match(r'^[a-f0-9]{40}$', s)] as a truth value *)
Definition sha_re_match (s : string) : bool :=
  match repeat_class is_lower_hex 40 s with
  | Some rest => at_dollar rest
  | None => false
  end.

(** [re.match(r"^\d{4}-\d{2}-\d{2}$", s)] as a truth value *)
Definition date_re_match (s : string) : bool :=
  match repeat_class is_digit 4 s with
  | Some s1 =>
    match literal "-" s1 with
    | Some s2 =>
      match repeat_class is_digit 2 s2 with
      | Some s3 =>
        match literal "-" s3 with
        | Some s4 =>
          match repeat_class is_digit 2 s4 with
          | Some rest => at_dollar rest
          | None => false
          end
        | None => false
        end
      | None => false
      end
    | None => false
    end
  | None => false
  end.

End Text.

(** ** Table parser *)

(** One parsed table row (the dictionary built at lines 250-258). *)
Record feature := Feature {
  name : string;
  sha : string;
  author : string;
  branch : string;
  date : string;
  files_changed : string;
  message : string
}.

Definition newline : ascii := "010"%char.
Definition pipe : ascii := "|"%char.

(** [cell.strip() for cell in line.split("|")[1:-1]] *)
Definition row_cells (line : string) : list string :=
  map Text.strip (Text.slice_1_m1 (Text.split pipe line)).

(** The dictionary literal of lines 250-258; the caller has checked
    [len(cells) >= 7]. *)
Definition feature_of_cells (cells : list string) : feature :=
  {| name := nth 0 cells "";
     sha := nth 1 cells "";
     author := nth 2 cells "";
     branch := nth 3 cells "";
     date := nth 4 cells "";
     files_changed := nth 5 cells "";
     message := nth 6 cells "" |}.

(** The [for line in lines] loop of [parse_feature_table], with the three
    local variables it updates as arguments.  Returning [features] without
    a recursive call is the [break]. *)
Fixpoint parse_loop (table_header : string) (lines : list string)
    (table_started header_found : bool) (features : list feature) : list feature :=
  match lines with
  | [] => features
  | line :: rest =>
      let line := Text.strip line in
      if Text.contains table_header line then
        parse_loop table_header rest true true features
      else if negb table_started then
        parse_loop table_header rest table_started header_found features
      else if Text.startswith "##" line && table_started then
        features
      else if Text.startswith "|" line && Text.contains "---" line then
        parse_loop table_header rest table_started header_found features
      else if Text.startswith "|" line && table_started then
        let cells := row_cells line in
        if (7 <=? length cells)%nat then
          parse_loop table_header rest table_started header_found
            (features ++ [feature_of_cells cells])
        else
          parse_loop table_header rest table_started header_found features
      else
        parse_loop table_header rest table_started header_found features
  end.

Definition parse_feature_table (content table_header : string) : list feature :=
  parse_loop table_header (Text.split newline content) false false [].

(** ** Console output and network requests as events *)

(** The values the script formats into a diagnostic line. *)
Inductive shown :=
| ShownStr (s : string)
| ShownNone                      (* Python's [None] *)
| ShownEmptyMark.                (* the placeholder printed for a falsy handle *)

(** Exceptions that reach an [except Exception] clause or leave
    [run_verification]. *)
Inductive exn :=
| ConnectionError (descr : string)   (* raised by [session.get], not a timeout *)
| JSONDecodeError                    (* [response.json()] *)
| AttributeError                     (* [.get] or [.split] on a value without it *)
| KeyError (key : string)            (* [data["content"]] *)
| TypeError                          (* [base64.b64decode(None)] *)
| DecodeError.                       (* [base64.b64decode] or [.decode("utf-8")] *)

(** How a call of a function ends. *)
Inductive outcome (A : Type) :=
| Returned (a : A)     (* [return a] *)
| Raised (e : exn).    (* an exception leaves the function *)
Arguments Returned {A}.
Arguments Raised {A}.

(** The detail appended to the API error line of [verify_commit]. *)
Inductive api_detail :=
| NoDetail
| CommitMissing (sha8 org repo : string)
| RateLimitLeft (remaining : string).

(** One constructor per [print] call of the three routines, with the
    values the f-string interpolates. *)
Inductive msg :=
(* fetch_github_file *)
| FileNotFound (file_path branch : string)
| AccessLimited
| FetchFailed (status : Z)
| ResponseText (text200 : string)
| RequestTimeout
| RequestException (e : exn)
(* verify_commit *)
| InvalidShaFormat (commit_sha : string)
| ApiError (status : Z) (detail : api_detail)
| MissingField (field : string)
| AuthorNotDict
| CommitTimeout
| JsonUndecodable
| Uncaught (e : exn)
(* run_verification *)
| Rule
| RuleAfterBlank
| Start (org repo branch : string)
| TargetDoc (doc_path : string)
| Step (n : nat)
| DocFetched (size : nat)
| MissingSection (section : string)
| SectionPresent (section : string)
| AllSectionsPresent (count : nat)
| NoFeatures
| PleaseCheck
| HintHeader
| HintFormat
| ConfiguredHeader (table_header : string)
| Parsed (count : nat)
| TooFewFeatures (minimum : Z) (actual : nat)
| CountOk (actual : nat) (minimum : Z)
| FeatureMissing (expected_name : string)
| ShaMismatch (expected_name : string)
| Expected (v : shown)
| Actual (v : shown)
| FeatureMatch (expected_name sha8 : string)
| AllFeaturesMatch (count : nat)
| Verifying (sha8 : string)
| NoCommitDetail (sha8 : string)
| AuthorExpectedButUnlinked (sha8 : string) (expected_author : string)
| WarnUnlinkedAccepted (sha8 : string)
| AuthorMismatch (sha8 : string)
| MessageMismatch (sha8 : string)
| DateFormatError (feature_name date : string)
| DateMismatch (sha8 : string)
| CommitVerified (sha8 : string)
| AllCommitsVerified (verified_count : nat)
| AllPassed.

(** The two places that call [session.get]. *)
Inductive endpoint := ContentsEndpoint | CommitsEndpoint.

Inductive event :=
| Print (m : msg)            (* [print(...)] *)
| PrintErr (m : msg)         (* [print(..., file=sys.stderr)] *)
| HttpGet (ep : endpoint) (url : string) (headers : list (string * string)).

Definition trace := list event.

(** ** The remote service *)

(** A key of a JSON object. *)
Inductive field (A : Type) :=
| Absent               (* the object has no such key *)
| Null                 (* the key holds [null] *)
| Holds (a : A).
Arguments Absent {A}.
Arguments Null {A}.
Arguments Holds {A}.

(** [key in d] *)
Definition has_key {A} (f : field A) : bool :=
  match f with
  | Absent => false
  | Null | Holds _ => true
  end.

(** [d.get(key, dflt)]; the result [None] is Python's [None]. *)
Definition get_with_default {A} (dflt : A) (f : field A) : option A :=
  match f with
  | Absent => Some dflt
  | Null => None
  | Holds a => Some a
  end.

(** The JSON body of the contents endpoint: an object, of which the script
    reads two keys, or a value that is no object (for one, the array of a
    directory listing), on which [.get] raises.  [encoding] is only compared
    with a string, so [None] stands for every value that is no string. *)
Record contents_object := ContentsObject {
  encoding : option string;
  content : field string
}.

Inductive contents_json :=
| ContentsArray
| ContentsFile (data : contents_object).

(** The JSON body of the commits endpoint, an object, as far as the script
    inspects it.  The handle [login] is read through [.get("login")]: [None]
    stands for an absent key and for [null]. *)
Inductive author_json :=
| AuthorAbsent
| AuthorNull
| AuthorNotObject                    (* neither [null] nor an object *)
| AuthorObject (login : option string).

Record commit_object := CommitObject {
  commit_message : field string
}.

Record commit_json := CommitJson {
  detail_sha : field string;
  detail_commit : field commit_object;
  detail_author : author_json
}.

(** What [session.get] gives back once the retry adapter is done. *)
Record response (J : Type) := Response {
  status_code : Z;
  text : string;
  rate_limit_remaining : option string;   (* header [X-RateLimit-Remaining] *)
  json : option J                         (* [None]: [response.json()] raises *)
}.
Arguments Response {J}.
Arguments status_code {J}.
Arguments text {J}.
Arguments rate_limit_remaining {J}.
Arguments json {J}.

Inductive http_result (J : Type) :=
| RaisesTimeout                          (* [requests.Timeout] *)
| RaisesOther (descr : string)           (* any other exception *)
| Responds (r : response J).
Arguments RaisesTimeout {J}.
Arguments RaisesOther {J}.
Arguments Responds {J}.

(** ** Control flow: a trace-passing monad with early [return] *)

Inductive ctl (R A : Type) :=
| Next (a : A)        (* fall through to the next statement *)
| Return (r : R).     (* the enclosing function has ended with [r] *)
Arguments Next {R A}.
Arguments Return {R A}.

Definition M (R A : Type) : Type := trace -> ctl R A * trace.

(** A whole function: from the trace at the call to the returned value and
    the trace at the return. *)
Definition fn (R : Type) : Type := trace -> R * trace.

#[export] Instance M_ret {R} : MRet (M R) := λ A a t, (Next a, t).

#[export] Instance M_bind {R} : MBind (M R) := λ A B k m t,
  match m t with
  | (Next a, t') => k a t'
  | (Return r, t') => (Return r, t')
  end.

Definition return_ {R A} (r : R) : M R A := λ t, (Return r, t).

(** [raise e] in a function without a [try] block. *)
Definition raise_ {R A} (e : exn) : M (outcome R) A := return_ (Raised e).

(** The value of an expression that may raise. *)
Definition eval {R A} (o : outcome A) : M (outcome R) A :=
  match o with
  | Returned a => mret a
  | Raised e => raise_ e
  end.

Definition print {R} (m : msg) : M R unit := λ t, (Next tt, t ++ [Print m]).

Definition eprint {R} (m : msg) : M R unit := λ t, (Next tt, t ++ [PrintErr m]).

(** Calling a function from inside another one. *)
Definition call {R A} (f : fn A) : M R A := λ t, let '(a, t') := f t in (Next a, t').

(** A function body that ends in [return]. *)
Definition body {R} (m : M R R) : fn R := λ t,
  match m t with
  | (Next r, t') => (r, t')
  | (Return r, t') => (r, t')
  end.

(** [session.get(api_url, headers=headers, timeout=30)] against an oracle. *)
Definition http_get {R J} (api : trace -> http_result J)
    (ep : endpoint) (url : string) (headers : list (string * string))
  : M R (http_result J) :=
  λ t, let t' := t ++ [HttpGet ep url headers] in (Next (api t'), t').

Definition GITHUB_API_VERSION : string := "application/vnd.github.v3+json".

Definition get_github_headers (token : string) : list (string * string) :=
  [ ("Authorization", "Bearer " +:+ token);
    ("Accept", GITHUB_API_VERSION);
    ("User-Agent", "GitHub-Commit-Verifier/1.0") ].

(** Configuration as [load_project_config] hands it over. *)
Record config := Config {
  target_repo : string;
  target_branch : string;
  feature_doc_path : string;
  table_header : string;
  required_sections : list string;
  min_feature_count : Z;
  expected_features : list (string * string);
  expected_authors : gmap string (option string);
  expected_messages : gmap string string;
  expected_dates : gmap string string
}.

(** [d.get(k)] on a dictionary whose values may be [None]. *)
Definition get_or_none (d : gmap string (option string)) (k : string) : option string :=
  match d !! k with
  | Some v => v
  | None => None
  end.

Definition show_opt (v : option string) : shown :=
  match v with
  | Some s => ShownStr s
  | None => ShownNone
  end.

(** Truth value of a handle that is a string or [None]. *)
Definition truthy (v : option string) : bool :=
  match v with
  | Some EmptyString => false
  | Some _ => true
  | None => false
  end.

(** The f-string of line 120. *)
Definition contents_url (org repo file_path branch : string) : string :=
  "https://api.github.com/repos/" +:+ org +:+ "/" +:+ repo
  +:+ "/contents/" +:+ file_path +:+ "?ref=" +:+ branch.

(** The f-string of line 166. *)
Definition commit_url (org repo commit_sha : string) : string :=
  "https://api.github.com/repos/" +:+ org +:+ "/" +:+ repo
  +:+ "/commits/" +:+ commit_sha.

Section Verifier.

(** The remote service and the two decoders of the standard library. *)
Variable contents_api : trace -> http_result contents_json.
Variable commits_api : trace -> http_result commit_json.
(** [base64.b64decode(x).decode("utf-8")]; [None] when either step raises. *)
Variable b64decode_utf8 : string -> option string.

Definition fetch_github_file (file_path : string)
    (headers : list (string * string)) (org repo branch : string)
  : fn (option string) :=
  body (
    let api_url := contents_url org repo file_path branch in
    r ← http_get contents_api ContentsEndpoint api_url headers;
    match r with
    | Responds response =>
        if status_code response =? 200 then
          match json response with
          | None => eprint (RequestException JSONDecodeError);; return_ None
          | Some ContentsArray => eprint (RequestException AttributeError);; return_ None
          | Some (ContentsFile data) =>
              if bool_decide (encoding data = Some "base64") then
                match content data with
                | Absent => eprint (RequestException (KeyError "content"));; return_ None
                | Null => eprint (RequestException TypeError);; return_ None
                | Holds c =>
                    match b64decode_utf8 c with
                    | Some decoded => return_ (Some decoded)
                    | None => eprint (RequestException DecodeError);; return_ None
                    end
                end
              else return_ (get_with_default "" (content data))
          end
        else if status_code response =? 404 then
          eprint (FileNotFound file_path branch);; return_ None
        else if status_code response =? 403 then
          eprint AccessLimited;; return_ None
        else
          eprint (FetchFailed (status_code response));;
          eprint (ResponseText (Text.take 200 (text response)));;
          return_ None
    | RaisesTimeout => eprint RequestTimeout;; return_ None
    | RaisesOther descr => eprint (RequestException (ConnectionError descr));; return_ None
    end).

Definition verify_commit (commit_sha : string)
    (headers : list (string * string)) (org repo : string)
  : fn (option commit_json) :=
  body (
    if negb (Text.sha_re_match commit_sha) then
      eprint (InvalidShaFormat commit_sha);; return_ None
    else
      let api_url := commit_url org repo commit_sha in
      r ← http_get commits_api CommitsEndpoint api_url headers;
      match r with
      | Responds response =>
          if negb (status_code response =? 200) then
            let detail :=
              if status_code response =? 404 then
                CommitMissing (Text.take 8 commit_sha) org repo
              else if status_code response =? 403 then
                RateLimitLeft (default "?" (rate_limit_remaining response))
              else NoDetail in
            eprint (ApiError (status_code response) detail);; return_ None
          else
            match json response with
            | None => eprint JsonUndecodable;; return_ None
            | Some commit_detail =>
                if negb (has_key (detail_sha commit_detail)) then
                  eprint (MissingField "sha");; return_ None
                else if negb (has_key (detail_commit commit_detail)) then
                  eprint (MissingField "commit");; return_ None
                else
                  match detail_author commit_detail with
                  | AuthorNotObject => eprint AuthorNotDict;; return_ None
                  | _ => return_ (Some commit_detail)
                  end
            end
      | RaisesTimeout => eprint CommitTimeout;; return_ None
      | RaisesOther descr => eprint (Uncaught (ConnectionError descr));; return_ None
      end).

(** Step 2, the loop over [required_sections]. *)
Fixpoint check_sections (doc_content : string) (sections : list string)
  : M (outcome bool) unit :=
  match sections with
  | [] => mret tt
  | section :: rest =>
      if negb (Text.contains section doc_content) then
        eprint (MissingSection section);; return_ (Returned false)
      else
        print (SectionPresent section);;
        check_sections doc_content rest
  end.

(** [{feat["name"]: feat["sha"] for feat in features}] *)
Definition name_to_sha (features : list feature) : gmap string string :=
  foldl (λ m feat, <[name feat := sha feat]> m) ∅ features.

(** Step 5, the loop over [expected_feats.items()]. *)
Fixpoint check_expected_features (feat_name_to_sha : gmap string string)
    (items : list (string * string)) : M (outcome bool) unit :=
  match items with
  | [] => mret tt
  | (expected_name, expected_sha) :: rest =>
      match feat_name_to_sha !! expected_name with
      | None => eprint (FeatureMissing expected_name);; return_ (Returned false)
      | Some actual_sha =>
          if negb (bool_decide (actual_sha = expected_sha)) then
            eprint (ShaMismatch expected_name);;
            eprint (Expected (ShownStr expected_sha));;
            eprint (Actual (ShownStr actual_sha));;
            return_ (Returned false)
          else
            print (FeatureMatch expected_name (Text.take 8 expected_sha));;
            check_expected_features feat_name_to_sha rest
      end
  end.

(** Step 6c, lines 359-374. *)
Definition check_author (feat_sha : string) (commit_detail : commit_json)
    (expected_authors : gmap string (option string)) : M (outcome bool) unit :=
  let expected_author := get_or_none expected_authors feat_sha in
  match detail_author commit_detail with
  | AuthorAbsent | AuthorNull =>
      match expected_author with
      | Some e =>
          eprint (AuthorExpectedButUnlinked (Text.take 8 feat_sha) e);;
          return_ (Returned false)
      | None => print (WarnUnlinkedAccepted (Text.take 8 feat_sha))
      end
  | AuthorNotObject =>
      (* [.get("login")] on a value that is no object *)
      raise_ AttributeError
  | AuthorObject actual_author =>
      if negb (truthy actual_author)
         || negb (bool_decide (actual_author = expected_author)) then
        eprint (AuthorMismatch (Text.take 8 feat_sha));;
        eprint (Expected (show_opt expected_author));;
        eprint (Actual (if truthy actual_author then show_opt actual_author
                        else ShownEmptyMark));;
        return_ (Returned false)
      else mret tt
  end.

(** [commit_detail.get("commit", {}).get("message", "").split("\n")[0]];
    [None] has neither [get] nor [split]. *)
Definition first_message_line (commit_detail : commit_json) : outcome string :=
  match get_with_default (CommitObject Absent) (detail_commit commit_detail) with
  | None => Raised AttributeError
  | Some commit =>
      match get_with_default "" (commit_message commit) with
      | None => Raised AttributeError
      | Some message => Returned (hd "" (Text.split newline message))
      end
  end.

(** Step 6d, lines 376-383. *)
Definition check_message (feat_sha : string) (commit_detail : commit_json)
    (expected_msgs : gmap string string) : M (outcome bool) unit :=
  let expected_msg := default "" (expected_msgs !! feat_sha) in
  actual_commit_msg ← eval (first_message_line commit_detail);
  if negb (bool_decide (actual_commit_msg = expected_msg)) then
    eprint (MessageMismatch (Text.take 8 feat_sha));;
    eprint (Expected (ShownStr expected_msg));;
    eprint (Actual (ShownStr actual_commit_msg));;
    return_ (Returned false)
  else mret tt.

(** Step 6e, lines 385-395. *)
Definition check_date (feat : feature) (expected_dates : gmap string string)
  : M (outcome bool) unit :=
  let feat_sha := sha feat in
  let expected_date := expected_dates !! feat_sha in
  if negb (Text.date_re_match (date feat)) then
    eprint (DateFormatError (name feat) (date feat));; return_ (Returned false)
  else if negb (bool_decide (Some (date feat) = expected_date)) then
    eprint (DateMismatch (Text.take 8 feat_sha));;
    eprint (Expected (show_opt expected_date));;
    eprint (Actual (ShownStr (date feat)));;
    return_ (Returned false)
  else mret tt.

(** The body of the step 6 loop for a record whose sha is a key of
    [expected_authors] (lines 345-398). *)
Definition verify_feature_commit (cfg : config)
    (headers : list (string * string)) (github_org : string) (feat : feature)
  : M (outcome bool) unit :=
  let feat_sha := sha feat in
  print (Verifying (Text.take 8 feat_sha));;
  if negb (Text.sha_re_match feat_sha) then
    eprint (InvalidShaFormat feat_sha);; return_ (Returned false)
  else
    commit_detail ← call (verify_commit feat_sha headers github_org (target_repo cfg));
    match commit_detail with
    | None => eprint (NoCommitDetail (Text.take 8 feat_sha));; return_ (Returned false)
    | Some commit_detail =>
        check_author feat_sha commit_detail (expected_authors cfg);;
        check_message feat_sha commit_detail (expected_messages cfg);;
        check_date feat (expected_dates cfg);;
        print (CommitVerified (Text.take 8 feat_sha))
    end.

(** Step 6, the loop over [features] with its counter. *)
Fixpoint verify_commits (cfg : config) (headers : list (string * string))
    (github_org : string) (features : list feature) (verified_count : nat)
  : M (outcome bool) nat :=
  match features with
  | [] => mret verified_count
  | feat :: rest =>
      match expected_authors cfg !! sha feat with
      | None => verify_commits cfg headers github_org rest verified_count
      | Some _ =>
          verify_feature_commit cfg headers github_org feat;;
          verify_commits cfg headers github_org rest (S verified_count)
      end
  end.

(** Lines 291-406 of [run_verification]: steps 2 to 6, everything after the
    document has been fetched and found non-empty. *)
Definition verify_document (cfg : config) (headers : list (string * string))
    (github_org doc_content : string) : M (outcome bool) (outcome bool) :=
  let table_header := table_header cfg in
  let required_sections := required_sections cfg in
  let min_feat_count := min_feature_count cfg in
  let expected_feats := expected_features cfg in
  print (DocFetched (String.length doc_content));;
  (* step 2 *)
  print (Step 2);;
  check_sections doc_content required_sections;;
  print (AllSectionsPresent (length required_sections));;
  (* step 3 *)
  print (Step 3);;
  let features := parse_feature_table doc_content table_header in
  if (length features =? 0)%nat then
    eprint NoFeatures;; eprint PleaseCheck;; eprint HintHeader;;
    eprint HintFormat;; eprint (ConfiguredHeader table_header);;
    return_ (Returned false)
  else
  print (Parsed (length features));;
  (* step 4 *)
  print (Step 4);;
  if Z.of_nat (length features) <? min_feat_count then
    eprint (TooFewFeatures min_feat_count (length features));; return_ (Returned false)
  else
  print (CountOk (length features) min_feat_count);;
  (* step 5 *)
  print (Step 5);;
  let feat_name_to_sha := name_to_sha features in
  check_expected_features feat_name_to_sha expected_feats;;
  print (AllFeaturesMatch (length expected_feats));;
  (* step 6 *)
  print (Step 6);;
  verified_count ← verify_commits cfg headers github_org features 0%nat;
  print (AllCommitsVerified verified_count);;
  print RuleAfterBlank;;
  print AllPassed;;
  print Rule;;
  return_ (Returned true).

(** What [run_verification] prints before it fetches the document. *)
Definition run_banner (cfg : config) (github_org : string) : list event :=
  [ Print Rule;
    Print (Start github_org (target_repo cfg) (target_branch cfg));
    Print (TargetDoc (feature_doc_path cfg));
    Print Rule;
    Print (Step 1) ].

Definition run_verification (cfg : config) (github_token github_org : string)
  : fn (outcome bool) :=
  body (
    let headers := get_github_headers github_token in
    let repo := target_repo cfg in
    let branch := target_branch cfg in
    let doc_path := feature_doc_path cfg in
    print Rule;;
    print (Start github_org repo branch);;
    print (TargetDoc doc_path);;
    print Rule;;
    (* step 1 *)
    print (Step 1);;
    fetched ← call (fetch_github_file doc_path headers github_org repo branch);
    if negb (truthy fetched) then return_ (Returned false) else
    let doc_content := default "" fetched in
    verify_document cfg headers github_org doc_content).

(** The document a run started at trace [t] obtains in step 1. *)
Definition fetched_document (cfg : config) (github_token github_org : string)
    (t : trace) : option string :=
  fst (fetch_github_file (feature_doc_path cfg) (get_github_headers github_token)
         github_org (target_repo cfg) (target_branch cfg)
         (t ++ run_banner cfg github_org)).

End Verifier.

(** *** Vocabulary for the claims *)

(** The four ways a document fetch fails at the transport level. *)
Inductive failure_kind :=
| NotFound
| AccessDenied
| TransportTimeout
| OtherTransportError.

(** The failure an answer of the contents endpoint amounts to, if any. *)
Definition failure_of {J} (r : http_result J) : option failure_kind :=
  match r with
  | RaisesTimeout => Some TransportTimeout
  | RaisesOther _ => Some OtherTransportError
  | Responds response =>
      if status_code response =? 200 then None
      else if status_code response =? 404 then Some NotFound
      else if status_code response =? 403 then Some AccessDenied
      else Some OtherTransportError
  end.

(** The failure a line of [fetch_github_file] on the error stream reports. *)
Definition kind_of_msg (m : msg) : option failure_kind :=
  match m with
  | FileNotFound _ _ => Some NotFound
  | AccessLimited => Some AccessDenied
  | RequestTimeout => Some TransportTimeout
  | FetchFailed _ | RequestException _ => Some OtherTransportError
  | _ => None
  end.

(** A request to the commits endpoint. *)
Definition is_commit_lookup (e : event) : bool :=
  match e with
  | HttpGet CommitsEndpoint _ _ => true
  | _ => false
  end.

(** No commit lookup among the events [es]. *)
Definition no_commit_lookup (es : list event) : bool :=
  forallb (fun e => negb (is_commit_lookup e)) es.

(** [x] occurs in [s] as a contiguous piece. *)
Definition occurs_in (x s : string) : Prop := ∃ a b, s = a +:+ x +:+ b.

(** Forty lowercase hexadecimal digits. *)
Definition hex40 (s : string) : bool :=
  (String.length s =? 40)%nat && Text.all_chars Text.is_lower_hex s.

(** A run that did not pass: it returned [False], or an [AttributeError]
    left it. *)
Definition failed (o : outcome bool) : Prop :=
  o = Returned false ∨ o = Raised AttributeError.

(** A block of [run_verification] ends the function with [return False]
    only: it neither returns [True] nor raises. *)
Definition fails_only {A} (m : M (outcome bool) A) : Prop :=
  ∀ t r t', m t = (Return r, t') → r = Returned false.

(** A block of [run_verification] never makes the run pass. *)
Definition never_passes {A} (m : M (outcome bool) A) : Prop :=
  ∀ t r t', m t = (Return r, t') → failed r.

(** A block only appends to the trace, and no commit lookup. *)
Definition quiet {R A} (m : M R A) : Prop :=
  ∀ t, ∃ es, snd (m t) = t ++ es ∧ no_commit_lookup es = true.

(** A block always returns [False]. *)
Definition stops {A} (m : M (outcome bool) A) : Prop :=
  ∀ t, fst (m t) = Return (Returned false).

(** A block always returns [False], having appended no commit lookup. *)
Definition stops_quietly {A} (m : M (outcome bool) A) : Prop :=
  ∀ t, ∃ es, m t = (Return (Returned false), t ++ es) ∧ no_commit_lookup es = true.

(** A block always ends the function, and never with [True]. *)
Definition halts {A} (m : M (outcome bool) A) : Prop :=
  ∀ t, ∃ r, fst (m t) = Return r ∧ failed r.

(** Line 378 reads the message of the commit [d] without raising: neither
    [commit] nor its [message] is [null]. *)
Definition message_is_text (d : commit_json) : bool :=
  match detail_commit d with
  | Absent => true
  | Null => false
  | Holds commit =>
      match commit_message commit with
      | Null => false
      | Absent | Holds _ => true
      end
  end.

(** No commit the service ever sends makes line 378 raise. *)
Definition serves_text_messages (commits_api : trace → http_result commit_json)
  : Prop :=
  ∀ t r d, commits_api t = Responds r → json r = Some d → message_is_text d = true.

(** The service answers every request for [url] with status 200 and the
    commit [d]. *)
Definition serves (commits_api : trace → http_result commit_json)
    (url : string) (headers : list (string * string)) (d : commit_json) : Prop :=
  ∀ t, ∃ r, commits_api (t ++ [HttpGet CommitsEndpoint url headers]) = Responds r
            ∧ status_code r = 200 ∧ json r = Some d.

(** The commit has no linked account: its [author] is absent or [null]. *)
Definition unlinked (d : commit_json) : Prop :=
  detail_author d = AuthorAbsent ∨ detail_author d = AuthorNull.

(** *** A sample table *)

Definition separator_row : string := "|---|---|---|---|---|---|---|".

Definition row_a (sha : string) : string :=
  "| A | " +:+ sha +:+ " | alice | main | 2024-01-01 | 3 | fix bug |".

Definition record_a (sha : string) : feature :=
  {| name := "A"; sha := sha; author := "alice"; branch := "main";
     date := "2024-01-01"; files_changed := "3"; message := "fix bug" |}.

(** A document: any text [pre], then a header line, the separator row and
    the data row. *)
Definition table_doc (pre header_line sha : string) : string :=
  pre +:+ String newline
    (header_line +:+ String newline
      (separator_row +:+ String newline (row_a sha))).

Definition sha_a : string := "0123456789abcdef0123456789abcdef01234567".

(** A row of seven cells of which one is not empty. *)
Definition sparse_row : string := "| A | | | | | | |".

Definition sparse_doc : string :=
  "| Feature | SHA |" +:+ String newline
    (separator_row +:+ String newline sparse_row).

Definition sparse_doc_without_row : string :=
  "| Feature | SHA |" +:+ String newline separator_row.




(** A table with a short row between the separator and a full row. *)
Definition short_row_doc : string :=
  "| Feature | SHA |" +:+ String newline
    (separator_row +:+ String newline
      ("| x | y |" +:+ String newline (row_a sha_a))).

(** *** Sample services and configurations *)

(** A contents endpoint that serves [doc] as plain text. *)
Definition serve_doc (doc : string) : trace → http_result contents_json :=
  λ _, Responds (Response 200 "" None
                   (Some (ContentsFile (ContentsObject None (Holds doc))))).

(** A contents endpoint that answers every request with [status]. *)
Definition refuse_with (status : Z) : trace → http_result contents_json :=
  λ _, Responds (Response status "denied" None None).

Definition contents_timeout : trace → http_result contents_json :=
  λ _, RaisesTimeout.

Definition contents_unreachable : trace → http_result contents_json :=
  λ _, RaisesOther "connection refused".

(** A commits endpoint that serves one commit for every request. *)
Definition serve_commit (d : commit_json) : trace → http_result commit_json :=
  λ _, Responds (Response 200 "" None (Some d)).

Definition commits_down : trace → http_result commit_json :=
  λ _, RaisesTimeout.

(** A decoder for the samples, which are served as plain text. *)
Definition no_decoder : string → option string := λ _, None.

Definition commit_a : commit_json :=
  CommitJson (Holds sha_a)
    (Holds (CommitObject (Holds ("fix bug" +:+ String newline "details"))))
    (AuthorObject (Some "alice")).

(** The same commit without a linked account. *)
Definition commit_unlinked : commit_json :=
  CommitJson (Holds sha_a)
    (Holds (CommitObject (Holds "fix bug")))
    AuthorNull.

(** The same commit by another account, and by an account without handle. *)
Definition commit_by_bob : commit_json :=
  CommitJson (Holds sha_a)
    (Holds (CommitObject (Holds "fix bug")))
    (AuthorObject (Some "bob")).

Definition commit_no_handle : commit_json :=
  CommitJson (Holds sha_a)
    (Holds (CommitObject (Holds "fix bug")))
    (AuthorObject None).

(** The same commit with a string where the account should be. *)
Definition commit_odd_author : commit_json :=
  CommitJson (Holds sha_a)
    (Holds (CommitObject (Holds "fix bug")))
    AuthorNotObject.

(** The same commit with [null] for its [sha] and its message. *)
Definition commit_null_message : commit_json :=
  CommitJson Null
    (Holds (CommitObject Null))
    (AuthorObject (Some "alice")).

Definition header_a : string :=
  "| Feature | SHA | Author | Branch | Date | Files | Message |".

Definition doc_a : string := table_doc "# Log" header_a sha_a.

Definition cfg_a : config :=
  {| target_repo := "repo";
     target_branch := "main";
     feature_doc_path := "FEATURES.md";
     table_header := "| Feature | SHA |";
     required_sections := ["# Log"];
     min_feature_count := 1;
     expected_features := [("A", sha_a)];
     expected_authors := {[ sha_a := Some "alice" ]};
     expected_messages := {[ sha_a := "fix bug" ]};
     expected_dates := {[ sha_a := "2024-01-01" ]} |}.

(** [cfg_a] with a key that is no sha in each of the three maps; no row of
    [doc_a] carries it. *)
Definition cfg_stray_key : config :=
  {| target_repo := "repo";
     target_branch := "main";
     feature_doc_path := "FEATURES.md";
     table_header := "| Feature | SHA |";
     required_sections := ["# Log"];
     min_feature_count := 1;
     expected_features := [("A", sha_a)];
     expected_authors := <[ "XYZ" := Some "bob" ]> {[ sha_a := Some "alice" ]};
     expected_messages := <[ "XYZ" := "oops" ]> {[ sha_a := "fix bug" ]};
     expected_dates := <[ "XYZ" := "2024-01-01" ]> {[ sha_a := "2024-01-01" ]} |}.

(** A table whose row carries the key [XYZ] as its sha, and a configuration
    that expects it. *)
Definition doc_bad_sha : string := table_doc "# Log" header_a "XYZ".

Definition cfg_bad_sha : config :=
  {| target_repo := "repo";
     target_branch := "main";
     feature_doc_path := "FEATURES.md";
     table_header := "| Feature | SHA |";
     required_sections := ["# Log"];
     min_feature_count := 1;
     expected_features := [("A", "XYZ")];
     expected_authors := {[ "XYZ" := Some "alice" ]};
     expected_messages := {[ "XYZ" := "fix bug" ]};
     expected_dates := {[ "XYZ" := "2024-01-01" ]} |}.

(** [cfg_a] expecting a feature the table does not have. *)
Definition cfg_missing_feature : config :=
  {| target_repo := "repo";
     target_branch := "main";
     feature_doc_path := "FEATURES.md";
     table_header := "| Feature | SHA |";
     required_sections := ["# Log"];
     min_feature_count := 1;
     expected_features := [("A", sha_a); ("X", "deadbeefdeadbeefdeadbeefdeadbeefdeadbeef")];
     expected_authors := {[ sha_a := Some "alice" ]};
     expected_messages := {[ sha_a := "fix bug" ]};
     expected_dates := {[ sha_a := "2024-01-01" ]} |}.

(** [cfg_a] without an expected date for the commit. *)
Definition cfg_no_date : config :=
  {| target_repo := "repo";
     target_branch := "main";
     feature_doc_path := "FEATURES.md";
     table_header := "| Feature | SHA |";
     required_sections := ["# Log"];
     min_feature_count := 1;
     expected_features := [("A", sha_a)];
     expected_authors := {[ sha_a := Some "alice" ]};
     expected_messages := {[ sha_a := "fix bug" ]};
     expected_dates := ∅ |}.

(** [cfg_a] expecting a commit without a linked account. *)
Definition cfg_unlinked : config :=
  {| target_repo := "repo";
     target_branch := "main";
     feature_doc_path := "FEATURES.md";
     table_header := "| Feature | SHA |";
     required_sections := ["# Log"];
     min_feature_count := 1;
     expected_features := [("A", sha_a)];
     expected_authors := {[ sha_a := None ]};
     expected_messages := {[ sha_a := "fix bug" ]};
     expected_dates := {[ sha_a := "2024-01-01" ]} |}.

(** *** Vocabulary for further properties of the parser *)

(** A cell as the parser stores it: trimmed, and free of the two characters
    the text was split on. *)
Definition clean_cell (s : string) : Prop :=
  Text.strip s = s ∧ Text.lacks pipe s = true ∧ Text.lacks newline s = true.

Definition clean_record (f : feature) : Prop :=
  clean_cell (name f) ∧ clean_cell (sha f) ∧ clean_cell (author f)
  ∧ clean_cell (branch f) ∧ clean_cell (date f)
  ∧ clean_cell (files_changed f) ∧ clean_cell (message f).

(** A full row whose last cell contains three dashes. *)
Definition dashed_row : string :=
  "| A | " +:+ sha_a +:+ " | alice | main | 2024-01-01 | 3 | fix --- bug |".

Definition dashed_doc : string :=
  "| Feature | SHA |" +:+ String newline
    (separator_row +:+ String newline
      (dashed_row +:+ String newline (row_a sha_a))).

(** *** Vocabulary for further properties of the pipeline *)

(** The author check of step 6c accepts the commit [d] for the sha
    [feat_sha]. *)
Definition author_accepted (authors : gmap string (option string))
    (feat_sha : string) (d : commit_json) : Prop :=
  match detail_author d with
  | AuthorAbsent | AuthorNull => get_or_none authors feat_sha = None
  | AuthorNotObject => False
  | AuthorObject login => truthy login = true ∧ login = get_or_none authors feat_sha
  end.

(** What steps 6a to 6e have established about a record once they let it
    pass: its sha and date are well formed, some lookup of its sha returned
    a commit whose author and first message line are the expected ones, and
    its date is the expected one. *)
Definition record_verified (commits_api : trace → http_result commit_json)
    (cfg : config) (headers : list (string * string)) (github_org : string)
    (f : feature) : Prop :=
  Text.sha_re_match (sha f) = true
  ∧ (∃ t1 t2 d,
       verify_commit commits_api (sha f) headers github_org (target_repo cfg) t1
         = (Some d, t2)
       ∧ author_accepted (expected_authors cfg) (sha f) d
       ∧ first_message_line d
         = Returned (default "" (expected_messages cfg !! sha f)))
  ∧ Text.date_re_match (date f) = true
  ∧ expected_dates cfg !! sha f = Some (date f).

(** The records a run started at [t] parses in step 3 (none when step 1
    yields no document). *)
Definition parsed_features (contents_api : trace → http_result contents_json)
    (b64decode_utf8 : string → option string)
    (cfg : config) (github_token github_org : string) (t : trace) : list feature :=
  match fetched_document contents_api b64decode_utf8 cfg github_token github_org t with
  | Some doc => parse_feature_table doc (table_header cfg)
  | None => []
  end.

(** A request a run may make: the one for the feature document, or the
    lookup of the well-formed sha of a record in [features] that is a key
    of [expected_authors]; either with the headers built from the token. *)
Definition request_ok (cfg : config) (github_token github_org : string)
    (features : list feature) (e : event) : Prop :=
  match e with
  | HttpGet ContentsEndpoint url headers =>
      url = contents_url github_org (target_repo cfg) (feature_doc_path cfg)
              (target_branch cfg)
      ∧ headers = get_github_headers github_token
  | HttpGet CommitsEndpoint url headers =>
      headers = get_github_headers github_token
      ∧ ∃ f, f ∈ features
             ∧ is_Some (expected_authors cfg !! sha f)
             ∧ hex40 (sha f) = true
             ∧ url = commit_url github_org (target_repo cfg) (sha f)
  | Print _ | PrintErr _ => True
  end.

(** A block only appends events that satisfy [P]. *)
Definition appends {R A} (P : event → Prop) (m : M R A) : Prop :=
  ∀ t, ∃ es, snd (m t) = t ++ es ∧ Forall P es.

(** *** Further samples *)

(** A contents endpoint that serves an empty file. *)
Definition serve_empty : trace → http_result contents_json := serve_doc "".

(** [cfg_a] without any expected author. *)
Definition cfg_no_authors : config :=
  {| target_repo := "repo";
     target_branch := "main";
     feature_doc_path := "FEATURES.md";
     table_header := "| Feature | SHA |";
     required_sections := ["# Log"];
     min_feature_count := 1;
     expected_features := [("A", sha_a)];
     expected_authors := ∅;
     expected_messages := ∅;
     expected_dates := ∅ |}.

(** [cfg_a] with the empty string as header marker. *)
Definition cfg_empty_header : config :=
  {| target_repo := "repo";
     target_branch := "main";
     feature_doc_path := "FEATURES.md";
     table_header := "";
     required_sections := ["# Log"];
     min_feature_count := 1;
     expected_features := [("A", sha_a)];
     expected_authors := {[ sha_a := Some "alice" ]};
     expected_messages := {[ sha_a := "fix bug" ]};
     expected_dates := {[ sha_a := "2024-01-01" ]} |}.

(** A response of the contents endpoint in base64. *)
Definition serve_base64 (payload : string) : trace → http_result contents_json :=
  λ _, Responds (Response 200 "" None
                   (Some (ContentsFile (ContentsObject (Some "base64") (Holds payload))))).

(** A contents endpoint whose answer holds [null] as [content]. *)
Definition serve_null_content : trace → http_result contents_json :=
  λ _, Responds (Response 200 "" None
                   (Some (ContentsFile (ContentsObject None Null)))).

(** What [base64.b64decode(x).decode("utf-8")] gives on three payloads: a
    heading; nothing; and characters outside the alphabet, which are
    dropped.  The samples send these payloads only. *)
Definition sample_decoder : string → option string :=
  λ s, if String.eqb s "IyBMb2c=" then Some "# Log"
       else if String.eqb s "" then Some ""
       else if String.eqb s "???" then Some ""
       else None.

(** ** Loading the environment and the configuration *)

(** The exception that the [except Exception] clause of
    [load_project_config] reports. *)
Inductive load_failure :=
| ReadFailed (descr : string)   (* raised by [open] or [yaml.safe_load] *)
| NotIterable.                  (* the [TypeError] of [field in config] *)

(** One constructor per [print] call of the two loaders; both print on the
    error stream only. *)
Inductive loader_msg :=
| EnvFileMissing (env_path : string)
| TokenNotConfigured (env_path : string)
| OrgNotConfigured (env_path : string)
| ConfigFileMissing (config_path : string)
| ConfigFieldMissing (field : string)
| ConfigLoadFailed (cause : load_failure).

(** How a call of a loader ends. *)
Inductive ended (A : Type) :=
| Exits (code : Z)            (* [sys.exit(code)] *)
| Raises (descr : string)     (* an exception leaves the function *)
| Returns (a : A).
Arguments Exits {A}.
Arguments Raises {A}.
Arguments Returns {A}.

(** A value [yaml.safe_load] can give, as far as the membership test
    [field in config] tells values apart: a scalar that is no string (null,
    boolean, number, timestamp, binary), on which the test raises
    [TypeError]; a string; a sequence or set; a mapping. *)
#[warnings="-register-all"]
Inductive yaml :=
| YScalar
| YStr (s : string)
| YSeq (items : list yaml)
| YMap (entries : list (yaml * yaml)).

(** [v == field] for a string [field]. *)
Definition is_str (field : string) (v : yaml) : bool :=
  match v with
  | YStr s => String.eqb s field
  | _ => false
  end.

(** [field in config]; [None] when the test raises [TypeError]. *)
Definition py_in (field : string) (config : yaml) : option bool :=
  match config with
  | YScalar => None
  | YStr s => Some (Text.contains field s)
  | YSeq items => Some (existsb (is_str field) items)
  | YMap entries => Some (existsb (λ kv, is_str field (fst kv)) entries)
  end.

(** Lines 77-88. *)
Definition required_config_fields : list string :=
  [ "target_repo"; "target_branch"; "feature_doc_path"; "table_header";
    "required_sections"; "min_feature_count"; "expected_features";
    "expected_authors"; "expected_messages"; "expected_dates" ].

Section Loaders.

(** [os.path.exists] *)
Variable path_exists : string → bool.
(** The process environment once [load_dotenv(env_path)] has returned;
    [inl descr] when [load_dotenv] raises. *)
Variable load_dotenv : string → string + gmap string string.
(** [open(config_path)] followed by [yaml.safe_load]; [inl descr] when
    either raises, with [descr] the text of the exception. *)
Variable read_yaml : string → string + yaml.

Definition load_environment (env_path : string)
  : ended (string * string) * list loader_msg :=
  if negb (path_exists env_path) then
    (Exits 1, [EnvFileMissing env_path])
  else
    match load_dotenv env_path with
    | inl descr => (Raises descr, [])
    | inr env =>
        let github_token := env !! "GITHUB_TOKEN" in
        let github_org := env !! "GITHUB_ORG" in
        if negb (truthy github_token) then
          (Exits 1, [TokenNotConfigured env_path])
        else if negb (truthy github_org) then
          (Exits 1, [OrgNotConfigured env_path])
        else
          (Returns (default "" github_token, default "" github_org), [])
    end.

(** The loop over [required_config_fields] (lines 90-93), inside the [try]:
    [sys.exit] raises [SystemExit], which [except Exception] does not
    catch; the [TypeError] of the membership test is caught and reported as
    a failure to load. *)
Fixpoint check_required_fields (config : yaml) (fields : list string)
  : ended yaml * list loader_msg :=
  match fields with
  | [] => (Returns config, [])
  | field :: rest =>
      match py_in field config with
      | None => (Exits 1, [ConfigLoadFailed NotIterable])
      | Some false => (Exits 1, [ConfigFieldMissing field])
      | Some true => check_required_fields config rest
      end
  end.

Definition load_project_config (config_path : string)
  : ended yaml * list loader_msg :=
  if negb (path_exists config_path) then
    (Exits 1, [ConfigFileMissing config_path])
  else
    match read_yaml config_path with
    | inl descr => (Exits 1, [ConfigLoadFailed (ReadFailed descr)])
    | inr config => check_required_fields config required_config_fields
    end.

End Loaders.

(** *** Samples for the loaders *)

Definition sample_env : gmap string string :=
  {[ "GITHUB_TOKEN" := "tok"; "GITHUB_ORG" := "org" ]}.

(** A mapping with the ten required keys, each holding a scalar. *)
Definition sample_yaml : yaml :=
  YMap (map (λ k, (YStr k, YScalar)) required_config_fields).

(** The same mapping without its key [table_header]. *)
Definition sample_yaml_incomplete : yaml :=
  YMap (map (λ k, (YStr k, YScalar))
          [ "target_repo"; "target_branch"; "feature_doc_path";
            "required_sections"; "min_feature_count"; "expected_features";
            "expected_authors"; "expected_messages"; "expected_dates" ]).

(** *** Vocabulary for the diagnostics of a run *)

Definition is_error_line (e : event) : bool :=
  match e with
  | PrintErr _ => true
  | _ => false
  end.

(** Some line went to the error stream. *)
Definition has_error_line (es : list event) : bool := existsb is_error_line es.

(** Run from [t], the block only appends to the trace, and it appends a
    line on the error stream exactly when it returns [False]. *)
Definition explains_at {A} (m : M (outcome bool) A) (t : trace) : Prop :=
  ∃ es, snd (m t) = t ++ es
        ∧ (has_error_line es = true ↔ fst (m t) = Return (Returned false)).

(** An answer of the contents endpoint from which [fetch_github_file]
    returns a falsy value without a word: status 200 and an object whose
    content is absent, [null] or empty, or decodes to the empty string. *)
Definition falsy_content (b64decode_utf8 : string → option string)
    (answer : http_result contents_json) : bool :=
  match answer with
  | Responds response =>
      (status_code response =? 200)
      && match json response with
         | Some (ContentsFile data) =>
             if bool_decide (encoding data = Some "base64") then
               match content data with
               | Holds c => bool_decide (b64decode_utf8 c = Some "")
               | Absent | Null => false
               end
             else
               match content data with
               | Absent | Null | Holds "" => true
               | Holds _ => false
               end
         | Some ContentsArray | None => false
         end
  | RaisesTimeout | RaisesOther _ => false
  end.

(** Whenever the block ends the function, the outcome satisfies [Q]. *)
Definition ends_with {A} (Q : outcome bool → Prop) (m : M (outcome bool) A) : Prop :=
  ∀ t r t', m t = (Return r, t') → Q r.

(** An outcome that is no exception, or is the [AttributeError] of line 378
    on a commit the service has sent with [null] as [commit] or as
    [message]. *)
Definition raised_on_null_message (commits_api : trace → http_result commit_json)
    (o : outcome bool) : Prop :=
  ∀ e, o = Raised e →
       e = AttributeError
       ∧ ∃ t0 r d, commits_api t0 = Responds r ∧ json r = Some d
                   ∧ message_is_text d = false.

(** The request of step 1. *)
Definition document_request (cfg : config) (github_token github_org : string)
  : event :=
  HttpGet ContentsEndpoint
    (contents_url github_org (target_repo cfg) (feature_doc_path cfg)
       (target_branch cfg))
    (get_github_headers github_token).

(** The block ends the function, whatever the trace. *)
Definition returns {R A} (m : M R A) : Prop :=
  ∀ t, ∃ r t', m t = (Return r, t').

(** ** Facts about the text primitives *)

(** Character tests are decided on literals and left alone on variables. *)
#[local] Arguments Ascii.eqb !a !b.

Lemma str_app_cons (c : ascii) (s t : string) :
  String c s +:+ t = String c (s +:+ t).
Proof. reflexivity. Qed.

Lemma str_app_nil_r (s : string) : s +:+ "" = s.
Proof. induction s as [|c s IH]; [done|]. by rewrite str_app_cons, IH. Qed.

Lemma str_app_assoc (s t u : string) : (s +:+ t) +:+ u = s +:+ (t +:+ u).
Proof. induction s as [|c s IH]; [done|]. by rewrite !str_app_cons, IH. Qed.

Lemma startswith_spec (p s : string) :
  Text.startswith p s = true ↔ ∃ b, s = p +:+ b.
Proof.
  revert s. induction p as [|a p IH]; intros s; simpl.
  - split; [intros _; by exists s | done].
  - destruct s as [|b s].
    + split; [done | intros [r Hr]; discriminate Hr].
    + destruct (Ascii.eqb_spec a b) as [->|Hne].
      * rewrite IH. split; intros [r Hr]; exists r.
        -- by rewrite str_app_cons, <- Hr.
        -- rewrite str_app_cons in Hr. by injection Hr.
      * split; [done|]. intros [r Hr]. rewrite str_app_cons in Hr.
        injection Hr as ? ?. congruence.
Qed.

Lemma occurs_in_cons (x : string) (c : ascii) (s : string) :
  occurs_in x s → occurs_in x (String c s).
Proof. intros (a & b & ->). by exists (String c a), b. Qed.

Lemma contains_spec (x s : string) :
  Text.contains x s = true ↔ occurs_in x s.
Proof.
  induction s as [|c s IH]; simpl.
  - rewrite orb_false_r, startswith_spec. split.
    + intros [b Hb]. by exists "", b.
    + intros (a & b & Hab). destruct a; [by exists b | discriminate Hab].
  - rewrite orb_true_iff, IH, startswith_spec. split.
    + intros [[b Hb] | Hocc]; [by exists "", b | by apply occurs_in_cons].
    + intros (a & b & Hab). destruct a as [|a0 a].
      * left. by exists b.
      * right. rewrite str_app_cons in Hab. injection Hab as _ ->. by exists a, b.
Qed.

Lemma occurs_in_refl (s : string) : occurs_in s s.
Proof. exists "", "". simpl. by rewrite str_app_nil_r. Qed.

Lemma occurs_in_trans (x y z : string) :
  occurs_in x y → occurs_in y z → occurs_in x z.
Proof.
  intros (a & b & ->) (c & d & ->).
  exists (c +:+ a), (b +:+ d). by rewrite !str_app_assoc.
Qed.

Lemma lstrip_occurs (s : string) : occurs_in (Text.lstrip s) s.
Proof.
  induction s as [|c s IH]; simpl; [apply occurs_in_refl|].
  destruct (Text.is_space c); [by apply occurs_in_cons | apply occurs_in_refl].
Qed.

Lemma rstrip_prefix (s : string) : ∃ b, s = Text.rstrip s +:+ b.
Proof.
  induction s as [|c s [b Hb]]; simpl; [by exists ""|].
  destruct (Text.rstrip s) as [|r0 r] eqn:Hr.
  - destruct (Text.is_space c).
    + by exists (String c s).
    + exists s. by rewrite str_app_cons.
  - exists b. by rewrite str_app_cons, <- Hb.
Qed.

Lemma strip_occurs (s : string) : occurs_in (Text.strip s) s.
Proof.
  unfold Text.strip. eapply occurs_in_trans; [|apply lstrip_occurs].
  destruct (rstrip_prefix (Text.lstrip s)) as [b Hb]. by exists "", b.
Qed.

Lemma split_nonempty (sep : ascii) (s : string) : Text.split sep s ≠ [].
Proof.
  induction s as [|c s IH]; simpl; [done|].
  destruct (Ascii.eqb c sep); [done|]. by destruct (Text.split sep s).
Qed.

Lemma split_head_prefix (sep : ascii) (s h : string) (tl : list string) :
  Text.split sep s = h :: tl → ∃ b, s = h +:+ b.
Proof.
  revert h tl. induction s as [|c s IH]; simpl; intros h tl Hs.
  - injection Hs as <- _. by exists "".
  - destruct (Ascii.eqb c sep).
    + injection Hs as <- _. by exists (String c s).
    + destruct (Text.split sep s) as [|h' tl'] eqn:Hs'.
      * by destruct (split_nonempty sep s).
      * injection Hs as <- _. destruct (IH h' tl' eq_refl) as [b ->]. by exists b.
Qed.

Lemma split_occurs (sep : ascii) (s l : string) :
  l ∈ Text.split sep s → occurs_in l s.
Proof.
  revert l. induction s as [|c s IH]; simpl; intros l Hl.
  - apply list_elem_of_singleton in Hl as ->. apply occurs_in_refl.
  - destruct (Ascii.eqb c sep).
    + apply elem_of_cons in Hl as [->|Hl].
      * by exists "", (String c s).
      * by apply occurs_in_cons, IH.
    + destruct (Text.split sep s) as [|h tl] eqn:Hs.
      * by destruct (split_nonempty sep s).
      * apply elem_of_cons in Hl as [->|Hl].
        -- destruct (split_head_prefix sep s h tl Hs) as [b ->]. by exists "", b.
        -- apply occurs_in_cons, IH. by right.
Qed.

Lemma all_chars_app (cls : ascii → bool) (a b : string) :
  Text.all_chars cls (a +:+ b) = Text.all_chars cls a && Text.all_chars cls b.
Proof.
  induction a as [|c a IH]; [done|].
  rewrite str_app_cons. simpl. by rewrite IH, andb_assoc.
Qed.


Lemma split_app (sep : ascii) (a b : string) :
  Text.split sep (a +:+ String sep b) = Text.split sep a ++ Text.split sep b.
Proof.
  induction a as [|c a IH].
  - simpl. by rewrite Ascii.eqb_refl.
  - rewrite str_app_cons. simpl. destruct (Ascii.eqb c sep); [by rewrite IH|].
    rewrite IH. destruct (Text.split sep a) as [|h t] eqn:Hs; [|done].
    by destruct (split_nonempty sep a).
Qed.

Lemma split_lacks (sep : ascii) (a : string) :
  Text.lacks sep a = true → Text.split sep a = [a].
Proof.
  unfold Text.lacks. induction a as [|c a IH]; simpl; [done|].
  rewrite andb_true_iff, negb_true_iff. intros [-> Ha]. by rewrite IH.
Qed.

Lemma lstrip_nonspace (c : ascii) (s : string) :
  Text.is_space c = false → Text.lstrip (String c s) = String c s.
Proof. intros Hc. simpl. by rewrite Hc. Qed.







Lemma startswith_pipe_not_heading (s : string) :
  Text.startswith "|" s = true → Text.startswith "##" s = false.
Proof.
  destruct s as [|c s]; cbn; [done|].
  by destruct (Ascii.eqb_spec "|"%char c) as [<-|].
Qed.

(** ** Facts about the table parser *)

(** The loop is unfolded one line at a time; the tests on a line stay
    folded. *)
#[local] Arguments Text.startswith : simpl never.
#[local] Arguments Text.contains : simpl never.
#[local] Arguments Text.strip : simpl never.
#[local] Arguments row_cells : simpl never.

Lemma header_absent_in_lines (D H : string) :
  Text.contains H D = false →
  ∀ l, l ∈ Text.split newline D → Text.contains H (Text.strip l) = false.
Proof.
  intros HD l Hl. apply not_true_is_false. intros Hc.
  apply not_true_iff_false in HD. apply HD, contains_spec.
  apply contains_spec in Hc.
  eapply occurs_in_trans; [exact Hc|].
  eapply occurs_in_trans; [apply strip_occurs|]. by eapply split_occurs.
Qed.

(** One turn of the loop. *)
Lemma parse_loop_cons (H l : string) (rest : list string)
    (ts hf : bool) (fs : list feature) :
  parse_loop H (l :: rest) ts hf fs =
  let line := Text.strip l in
  if Text.contains H line then parse_loop H rest true true fs
  else if negb ts then parse_loop H rest ts hf fs
  else if Text.startswith "##" line && ts then fs
  else if Text.startswith "|" line && Text.contains "---" line then
    parse_loop H rest ts hf fs
  else if Text.startswith "|" line && ts then
    if (7 <=? length (row_cells line))%nat then
      parse_loop H rest ts hf (fs ++ [feature_of_cells (row_cells line)])
    else parse_loop H rest ts hf fs
  else parse_loop H rest ts hf fs.
Proof. reflexivity. Qed.

(** Before the header line nothing is recorded. *)
Lemma parse_loop_before_header (H : string) (lines : list string)
    (hf : bool) (fs : list feature) :
  (∀ l, l ∈ lines → Text.contains H (Text.strip l) = false) →
  parse_loop H lines false hf fs = fs.
Proof.
  induction lines as [|l lines IH]; intros Hno; [done|].
  rewrite parse_loop_cons. cbv zeta. rewrite (Hno l) by left. simpl.
  apply IH. intros l' Hl'. apply Hno. by right.
Qed.

(** A line that is not the header line and adds no record leaves the loop
    where it was. *)
Lemma parse_loop_skip_row (H row : string) (post : list string)
    (ts hf : bool) (fs : list feature) :
  Text.contains H (Text.strip row) = false →
  Text.startswith "|" (Text.strip row) = true →
  (length (row_cells (Text.strip row)) < 7)%nat →
  parse_loop H (row :: post) ts hf fs = parse_loop H post ts hf fs.
Proof.
  intros HH Hpipe Hlen. rewrite parse_loop_cons. cbv zeta. rewrite HH, Hpipe.
  rewrite (startswith_pipe_not_heading _ Hpipe).
  apply Nat.leb_gt in Hlen as ->.
  destruct ts; [|done].
  by destruct (Text.contains "---" (Text.strip row)).
Qed.


Lemma parse_loop_remove_row (H row : string) (pre post : list string)
    (ts hf : bool) (fs : list feature) :
  Text.contains H (Text.strip row) = false →
  Text.startswith "|" (Text.strip row) = true →
  (length (row_cells (Text.strip row)) < 7)%nat →
  parse_loop H (pre ++ row :: post) ts hf fs = parse_loop H (pre ++ post) ts hf fs.
Proof.
  intros HH Hpipe Hlen. revert ts hf fs.
  induction pre as [|l pre IH]; intros ts hf fs.
  - by apply parse_loop_skip_row.
  - rewrite <- !app_comm_cons, !parse_loop_cons. cbv zeta.
    repeat case_match; try done; apply IH.
Qed.

Lemma parse_loop_skip_preamble (H : string) (pre rest : list string)
    (hf : bool) (fs : list feature) :
  (∀ l, l ∈ pre → Text.contains H (Text.strip l) = false) →
  parse_loop H (pre ++ rest) false hf fs = parse_loop H rest false hf fs.
Proof.
  induction pre as [|l pre IH]; intros Hno; [done|].
  rewrite <- app_comm_cons, parse_loop_cons. cbv zeta.
  rewrite (Hno l) by left. simpl.
  apply IH. intros l' Hl'. apply Hno. by right.
Qed.

(** *** The sample row *)









(** ** Claims about the table parser *)

(** C7: when the header marker [H] does not occur in the document [D],
    [parse_feature_table D H] is the empty list.  The parser is a total
    function to lists of records, so there is no error outcome. *)
Theorem C7_absent_header_gives_no_records (D H : string) :
  Text.contains H D = false → parse_feature_table D H = [].
Proof.
  intros HD. unfold parse_feature_table.
  apply parse_loop_before_header. by apply header_absent_in_lines.
Qed.

Lemma C7_absent_header_witness :
  Text.contains "| Feature | SHA |" "# Title" = false
  ∧ parse_feature_table "# Title" "| Feature | SHA |" = [].
Proof.
  split; [by vm_compute|].
  apply (C7_absent_header_gives_no_records "# Title" "| Feature | SHA |").
  by vm_compute.
Defined.






(** C6, as stated, fails: the row [| A | | | | | | |] has seven cells of
    which one is not empty, and it is recorded. *)
Lemma C6_sparse_row_counterexample :
  Text.split newline sparse_doc
    = ["| Feature | SHA |"; separator_row] ++ sparse_row :: []
  ∧ Text.startswith "|" (Text.strip sparse_row) = true
  ∧ Text.contains "---" (Text.strip sparse_row) = false
  ∧ length (filter (λ c, c ≠ "") (row_cells (Text.strip sparse_row))) = 1%nat
  ∧ length (parse_feature_table sparse_doc "| Feature | SHA |") = 1%nat
  ∧ length (parse_feature_table sparse_doc_without_row "| Feature | SHA |") = 0%nat.
Proof. by vm_compute. Qed.

(** C6, amended: a line that, trimmed, starts with a pipe, does not contain
    the header marker and yields fewer than 7 cells (empty cells counted)
    adds no record and raises nothing: the parser returns what it returns
    on the document without that line. *)
Theorem C6_short_row_is_skipped (D H row : string) (pre post : list string) :
  Text.split newline D = pre ++ row :: post →
  Text.contains H (Text.strip row) = false →
  Text.startswith "|" (Text.strip row) = true →
  (length (row_cells (Text.strip row)) < 7)%nat →
  parse_feature_table D H = parse_loop H (pre ++ post) false false [].
Proof.
  intros HD Hnoh Hpipe Hlen. unfold parse_feature_table. rewrite HD.
  by apply parse_loop_remove_row.
Qed.

Lemma C6_short_row_witness :
  parse_feature_table short_row_doc "| Feature | SHA |"
  = parse_loop "| Feature | SHA |"
      (["| Feature | SHA |"; separator_row] ++ [row_a sha_a]) false false [].
Proof.
  apply (C6_short_row_is_skipped short_row_doc "| Feature | SHA |" "| x | y |"
           ["| Feature | SHA |"; separator_row] [row_a sha_a]).
  - by vm_compute.
  - by vm_compute.
  - by vm_compute.
  - vm_compute. lia.
Defined.

(** ** Facts about the control flow *)

Ltac run_monad :=
  cbv beta iota zeta delta
    [body mbind M_bind mret M_ret http_get eprint print return_ raise_ call].

(** The branch at hand returns something else than the result assumed. *)
Ltac no_result := solve [cbv beta iota; intros; simplify_eq].

(** Splits on every test the block at hand makes. *)
Ltac all_branches := repeat (cbv beta iota; case_match); cbv beta iota.

Lemma no_commit_lookup_app (es es' : list event) :
  no_commit_lookup (es ++ es') = no_commit_lookup es && no_commit_lookup es'.
Proof. apply forallb_app. Qed.

Lemma fails_only_bind {A B} (m : M (outcome bool) A) (k : A → M (outcome bool) B) :
  fails_only m → (∀ a, fails_only (k a)) → fails_only (m ≫= k).
Proof.
  intros Hm Hk t r t'. unfold mbind, M_bind.
  destruct (m t) as [[a|r0] t1] eqn:Hmt.
  - apply Hk.
  - intros [= <- <-]. by eapply Hm.
Qed.

Lemma fails_only_ret {A} (a : A) : fails_only (mret a).
Proof. by intros t r t'. Qed.

Lemma fails_only_print (m : msg) : fails_only (print m).
Proof. by intros t r t'. Qed.

Lemma fails_only_eprint (m : msg) : fails_only (eprint m).
Proof. by intros t r t'. Qed.

Lemma fails_only_return_false {A} : fails_only (return_ (A:=A) (Returned false)).
Proof. intros t r t'. by intros [= <- _]. Qed.

Lemma fails_only_call {A} (f : fn A) : fails_only (call f).
Proof. intros t r t'. unfold call. by destruct (f t). Qed.

Lemma fails_only_never_passes {A} (m : M (outcome bool) A) :
  fails_only m → never_passes m.
Proof. intros Hm t r t' Hrun. left. by eapply Hm. Qed.

Lemma never_passes_bind {A B} (m : M (outcome bool) A) (k : A → M (outcome bool) B) :
  never_passes m → (∀ a, never_passes (k a)) → never_passes (m ≫= k).
Proof.
  intros Hm Hk t r t'. unfold mbind, M_bind.
  destruct (m t) as [[a|r0] t1] eqn:Hmt.
  - apply Hk.
  - intros [= <- <-]. by eapply Hm.
Qed.

Lemma never_passes_raise {A} : never_passes (raise_ (A:=A) AttributeError).
Proof. intros t r t'. intros [= <- _]. by right. Qed.

Lemma never_passes_eval {A} (o : outcome A) :
  (∀ e, o = Raised e → e = AttributeError) → never_passes (eval o).
Proof.
  intros Ho t r t'. destruct o as [a|e]; [done|].
  rewrite (Ho e eq_refl). apply never_passes_raise.
Qed.

Lemma quiet_bind {R A B} (m : M R A) (k : A → M R B) :
  quiet m → (∀ a, quiet (k a)) → quiet (m ≫= k).
Proof.
  intros Hm Hk t. unfold mbind, M_bind.
  destruct (Hm t) as (es & Hes & Hq).
  destruct (m t) as [[a|r] t1]; simpl in Hes; subst t1.
  - destruct (Hk a (t ++ es)) as (es' & Hes' & Hq').
    exists (es ++ es'). rewrite Hes', app_assoc, no_commit_lookup_app, Hq, Hq'. done.
  - by exists es.
Qed.

Lemma quiet_ret {R A} (a : A) : quiet (mret (M:=M R) a).
Proof. intros t. exists []. by rewrite app_nil_r. Qed.

Lemma quiet_return {R A} (r : R) : quiet (return_ (A:=A) r).
Proof. intros t. exists []. by rewrite app_nil_r. Qed.

Lemma quiet_eval {R A} (o : outcome A) : quiet (eval (R:=R) o).
Proof. destruct o; [apply quiet_ret | apply quiet_return]. Qed.

Lemma quiet_print {R} (m : msg) : quiet (print (R:=R) m).
Proof. intros t. by exists [Print m]. Qed.

Lemma quiet_eprint {R} (m : msg) : quiet (eprint (R:=R) m).
Proof. intros t. by exists [PrintErr m]. Qed.

Lemma stops_bind_l {A B} (m : M (outcome bool) A) (k : A → M (outcome bool) B) :
  stops m → stops (m ≫= k).
Proof.
  intros Hm t. specialize (Hm t). unfold mbind, M_bind.
  destruct (m t) as [[a|r] t1]; simpl in *; congruence.
Qed.

Lemma stops_bind_r {A B} (m : M (outcome bool) A) (k : A → M (outcome bool) B) :
  fails_only m → (∀ a, stops (k a)) → stops (m ≫= k).
Proof.
  intros Hm Hk t. unfold mbind, M_bind.
  destruct (m t) as [[a|r] t1] eqn:Hmt; [apply Hk|].
  simpl. f_equal. by eapply Hm.
Qed.

Lemma stops_return_false {A} : stops (return_ (A:=A) (Returned false)).
Proof. by intros t. Qed.

Lemma stops_halts {A} (m : M (outcome bool) A) : stops m → halts m.
Proof. intros Hm t. exists (Returned false). split; [apply Hm | by left]. Qed.

Lemma halts_bind_l {A B} (m : M (outcome bool) A) (k : A → M (outcome bool) B) :
  halts m → halts (m ≫= k).
Proof.
  intros Hm t. destruct (Hm t) as (r & Hr & Hfailed). exists r.
  unfold mbind, M_bind. destruct (m t) as [[a|r0] t1]; simpl in *; [done|].
  injection Hr as ->. by split.
Qed.

Lemma halts_bind_r {A B} (m : M (outcome bool) A) (k : A → M (outcome bool) B) :
  never_passes m → (∀ a, halts (k a)) → halts (m ≫= k).
Proof.
  intros Hm Hk t. unfold mbind, M_bind.
  destruct (m t) as [[a|r] t1] eqn:Hmt; [apply Hk|].
  exists r. split; [done|]. by eapply Hm.
Qed.

Lemma stops_quietly_bind_l {A B} (m : M (outcome bool) A) (k : A → M (outcome bool) B) :
  stops_quietly m → stops_quietly (m ≫= k).
Proof.
  intros Hm t. destruct (Hm t) as (es & Hes & Hq). exists es.
  unfold mbind, M_bind. by rewrite Hes.
Qed.

Lemma stops_quietly_bind_r {A B} (m : M (outcome bool) A) (k : A → M (outcome bool) B) :
  fails_only m → quiet m → (∀ a, stops_quietly (k a)) → stops_quietly (m ≫= k).
Proof.
  intros Hf Hm Hk t. unfold mbind, M_bind.
  destruct (Hm t) as (es & Hes & Hq).
  destruct (m t) as [[a|r] t1] eqn:Hmt; simpl in Hes; subst t1.
  - destruct (Hk a (t ++ es)) as (es' & Hes' & Hq').
    exists (es ++ es'). rewrite Hes', app_assoc, no_commit_lookup_app, Hq, Hq'. done.
  - exists es. by rewrite (Hf _ _ _ Hmt).
Qed.

Lemma stops_quietly_return_false {A} :
  stops_quietly (return_ (A:=A) (Returned false)).
Proof. intros t. exists []. by rewrite app_nil_r. Qed.

Create HintDb flow.

#[local] Hint Resolve fails_only_ret fails_only_print fails_only_eprint
  fails_only_return_false fails_only_call : flow.
#[local] Hint Resolve fails_only_never_passes never_passes_raise : flow.
#[local] Hint Resolve quiet_ret quiet_return quiet_eval quiet_print quiet_eprint : flow.
#[local] Hint Resolve stops_return_false stops_quietly_return_false : flow.

(** Splits a block into its statements and branches. *)
Ltac flow :=
  repeat first
    [ progress eauto with flow
    | apply fails_only_bind; [|intros ?]
    | apply never_passes_bind; [|intros ?]
    | apply quiet_bind; [|intros ?]
    | case_match ].

(** ** Facts about the pipeline *)

Section VerifierFacts.

Variable contents_api : trace → http_result contents_json.
Variable commits_api : trace → http_result commit_json.
Variable b64decode_utf8 : string → option string.

(** *** Step 1 *)

Lemma fetch_github_file_quiet file_path headers org repo branch (t : trace) :
  ∃ es,
    snd (fetch_github_file contents_api b64decode_utf8 file_path headers org repo branch t)
      = t ++ es
    ∧ no_commit_lookup es = true.
Proof.
  unfold fetch_github_file. run_monad.
  repeat case_match; simplify_eq; cbn [snd];
    rewrite <- ?app_assoc; eexists; (split; [reflexivity|done]).
Qed.

(** A fetch that returns a content has appended its request and nothing
    else. *)
Lemma fetch_github_file_some_trace file_path headers org repo branch (t t' : trace) c :
  fetch_github_file contents_api b64decode_utf8 file_path headers org repo branch t
    = (Some c, t') →
  t' = t ++ [HttpGet ContentsEndpoint (contents_url org repo file_path branch) headers].
Proof.
  unfold fetch_github_file. run_monad.
  all_branches; intros ?; by simplify_eq.
Qed.

(** *** Step 2 *)

Lemma check_sections_fails_only doc sections : fails_only (check_sections doc sections).
Proof. induction sections as [|s sections IH]; simpl; flow. Qed.

Lemma check_sections_quiet doc sections : quiet (check_sections doc sections).
Proof. induction sections as [|s sections IH]; simpl; flow. Qed.

(** *** Step 5 *)

Lemma name_to_sha_missing (features : list feature) (n : string) :
  (∀ f, f ∈ features → name f ≠ n) → name_to_sha features !! n = None.
Proof.
  unfold name_to_sha. generalize (∅ : gmap string string) (lookup_empty (M:=gmap string) (A:=string) n).
  induction features as [|f features IH]; intros m Hm Hno; simpl; [done|].
  apply IH.
  - rewrite lookup_insert_ne; [done|]. apply Hno. by left.
  - intros f' Hf'. apply Hno. by right.
Qed.

Lemma check_expected_features_fails_only m items :
  fails_only (check_expected_features m items).
Proof. induction items as [|[n s] items IH]; simpl; flow. Qed.

Lemma check_expected_features_quiet m items :
  quiet (check_expected_features m items).
Proof. induction items as [|[n s] items IH]; simpl; flow. Qed.

Lemma check_expected_features_missing (m : gmap string string) items n s :
  (n, s) ∈ items → m !! n = None →
  stops_quietly (check_expected_features m items).
Proof.
  intros Hin Hm. induction items as [|[n' s'] items IH]; [by apply elem_of_nil in Hin|].
  simpl. destruct (m !! n') as [actual|] eqn:Hn'.
  - apply elem_of_cons in Hin as [[= -> ->]|Hin]; [congruence|].
    case_match.
    + repeat (apply stops_quietly_bind_r; [solve [flow] | solve [flow] | intros _]). flow.
    + apply stops_quietly_bind_r; [solve [flow] | solve [flow] | intros _]. by apply IH.
  - apply stops_quietly_bind_r; [solve [flow] | solve [flow] | intros _]. flow.
Qed.

(** *** Step 6 *)

(** [verify_commit] hands over no commit whose author is neither absent,
    null nor an object. *)
Lemma verify_commit_author_shape commit_sha headers org repo t d t' :
  verify_commit commits_api commit_sha headers org repo t = (Some d, t') →
  detail_author d ≠ AuthorNotObject.
Proof.
  unfold verify_commit. run_monad.
  repeat case_match; intros ?; simplify_eq; congruence.
Qed.

(** A commit that [verify_commit] hands over was sent by the service. *)
Lemma verify_commit_served commit_sha headers org repo t d t' :
  verify_commit commits_api commit_sha headers org repo t = (Some d, t') →
  ∃ t0 r, commits_api t0 = Responds r ∧ json r = Some d.
Proof.
  unfold verify_commit. run_monad.
  destruct (Text.sha_re_match commit_sha); cbn [negb]; [|done].
  destruct (commits_api _) as [| descr | r] eqn:Hapi; cbv beta iota; [done | done |].
  destruct (json r) as [d'|] eqn:Hjson; repeat case_match; intros ?; simplify_eq.
  all: by eexists _, r.
Qed.

(** A lookup that returns a commit has appended its request and nothing
    else. *)
Lemma verify_commit_some_trace commit_sha headers org repo (t t' : trace) d :
  verify_commit commits_api commit_sha headers org repo t = (Some d, t') →
  Text.sha_re_match commit_sha = true
  ∧ t' = t ++ [HttpGet CommitsEndpoint (commit_url org repo commit_sha) headers].
Proof.
  unfold verify_commit. run_monad.
  destruct (Text.sha_re_match commit_sha); cbn [negb]; [|done].
  all_branches; intros ?; by simplify_eq.
Qed.

(** A lookup that returns [None] has appended one line on the error stream,
    after its request when it has made one. *)
Lemma verify_commit_none_trace commit_sha headers org repo (t t' : trace) :
  verify_commit commits_api commit_sha headers org repo t = (None, t') →
  ∃ m, t' = t ++ (if Text.sha_re_match commit_sha
                  then [HttpGet CommitsEndpoint (commit_url org repo commit_sha) headers;
                        PrintErr m]
                  else [PrintErr m]).
Proof.
  unfold verify_commit. run_monad.
  destruct (Text.sha_re_match commit_sha); cbn [negb].
  - all_branches; intros ?; simplify_eq; rewrite <- ?app_assoc; cbn [app]; by eexists.
  - intros [= <-]. by eexists.
Qed.

Lemma verify_commit_bad_sha (commit_sha : string) headers org repo (t : trace) :
  Text.sha_re_match commit_sha = false →
  verify_commit commits_api commit_sha headers org repo t
  = (None, t ++ [PrintErr (InvalidShaFormat commit_sha)]).
Proof. intros Hbad. unfold verify_commit. by rewrite Hbad. Qed.

(** The one request of a lookup that the service answers with a commit
    holding the two required keys and a well-shaped author. *)
Lemma verify_commit_found (commit_sha : string) headers org repo (t : trace) r d :
  Text.sha_re_match commit_sha = true →
  commits_api (t ++ [HttpGet CommitsEndpoint (commit_url org repo commit_sha) headers])
    = Responds r →
  status_code r = 200 →
  json r = Some d →
  has_key (detail_sha d) = true →
  has_key (detail_commit d) = true →
  detail_author d ≠ AuthorNotObject →
  verify_commit commits_api commit_sha headers org repo t
  = (Some d, t ++ [HttpGet CommitsEndpoint (commit_url org repo commit_sha) headers]).
Proof.
  intros Hsha Hapi Hstatus Hjson Hs Hc Hauthor. unfold verify_commit. run_monad.
  rewrite Hsha. cbn [negb]. run_monad. rewrite Hapi. cbv beta iota.
  rewrite Hstatus, Hjson, Hs, Hc. cbn [Z.eqb Pos.eqb negb].
  by destruct (detail_author d).
Qed.

Lemma first_message_line_raises d e :
  first_message_line d = Raised e → e = AttributeError.
Proof. unfold first_message_line. repeat case_match; congruence. Qed.

Lemma first_message_line_text d :
  message_is_text d = true → ∃ l, first_message_line d = Returned l.
Proof.
  unfold message_is_text, first_message_line.
  destruct (detail_commit d) as [| |[[| |m]]]; try done; by eexists.
Qed.

Lemma check_author_fails_only feat_sha d authors :
  detail_author d ≠ AuthorNotObject →
  fails_only (check_author feat_sha d authors).
Proof.
  intros Hshape. unfold check_author.
  destruct (detail_author d); [flow | flow | done | flow].
Qed.

Lemma check_author_never_passes feat_sha d authors :
  never_passes (check_author feat_sha d authors).
Proof. unfold check_author. flow. Qed.

Lemma check_message_fails_only feat_sha d msgs :
  message_is_text d = true →
  fails_only (check_message feat_sha d msgs).
Proof.
  intros (l & Hl)%first_message_line_text. unfold check_message. rewrite Hl.
  cbn [eval]. flow.
Qed.

Lemma check_message_never_passes feat_sha d msgs :
  never_passes (check_message feat_sha d msgs).
Proof.
  unfold check_message. apply never_passes_bind.
  - apply never_passes_eval, first_message_line_raises.
  - intros l. flow.
Qed.

Lemma check_date_fails_only feat dates : fails_only (check_date feat dates).
Proof. unfold check_date. flow. Qed.

(** A call followed by a block that, on whatever the call can return,
    ends the function with [return False] only. *)
Lemma fails_only_after_call {A B} (f : fn A) (k : A → M (outcome bool) B) :
  (∀ t a t', f t = (a, t') → fails_only (k a)) → fails_only (call f ≫= k).
Proof.
  intros Hk t r t'. unfold mbind, M_bind, call.
  destruct (f t) as [a t1] eqn:Hf. by eapply Hk.
Qed.

Lemma verify_feature_commit_never_passes cfg headers org feat :
  never_passes (verify_feature_commit commits_api cfg headers org feat).
Proof.
  unfold verify_feature_commit.
  pose proof check_author_never_passes. pose proof check_message_never_passes.
  pose proof check_date_fails_only. flow.
Qed.

Lemma verify_feature_commit_fails_only cfg headers org feat :
  serves_text_messages commits_api →
  fails_only (verify_feature_commit commits_api cfg headers org feat).
Proof.
  intros Htext. unfold verify_feature_commit.
  apply fails_only_bind; [solve [flow] | intros _].
  case_match; [solve [flow]|].
  apply fails_only_after_call. intros t [d|] t' Hlookup; [|solve [flow]].
  pose proof (verify_commit_author_shape _ _ _ _ _ _ _ Hlookup) as Hshape.
  apply verify_commit_served in Hlookup as (t0 & r & Hapi & Hjson).
  pose proof (Htext _ _ _ Hapi Hjson) as Hd.
  pose proof (check_author_fails_only (sha feat) d (expected_authors cfg) Hshape).
  pose proof (check_message_fails_only (sha feat) d (expected_messages cfg) Hd).
  pose proof check_date_fails_only. flow.
Qed.

Lemma verify_commits_never_passes cfg headers org features n :
  never_passes (verify_commits commits_api cfg headers org features n).
Proof.
  revert n. induction features as [|f features IH]; intros n; simpl.
  - flow.
  - pose proof verify_feature_commit_never_passes. flow.
Qed.

Lemma verify_commits_fails_only cfg headers org features n :
  serves_text_messages commits_api →
  fails_only (verify_commits commits_api cfg headers org features n).
Proof.
  intros Htext. revert n. induction features as [|f features IH]; intros n; simpl.
  - flow.
  - pose proof (λ cfg headers org feat,
                  verify_feature_commit_fails_only cfg headers org feat Htext). flow.
Qed.

(** One record on which the loop body always ends the function without
    passing makes the whole loop do so. *)
Lemma verify_commits_halts cfg headers org features feat e n :
  feat ∈ features →
  expected_authors cfg !! sha feat = Some e →
  halts (verify_feature_commit commits_api cfg headers org feat) →
  halts (verify_commits commits_api cfg headers org features n).
Proof.
  intros Hin He Hhalts. revert n.
  induction features as [|f features IH]; intros n; [by apply elem_of_nil in Hin|].
  simpl. apply elem_of_cons in Hin as [<-|Hin].
  - rewrite He. by apply halts_bind_l.
  - destruct (expected_authors cfg !! sha f); [|by apply IH].
    apply halts_bind_r; [apply verify_feature_commit_never_passes|].
    intros _. by apply IH.
Qed.

(** One record on which the loop body always returns [False] makes the
    whole loop return [False], when no commit can make line 378 raise. *)
Lemma verify_commits_stops cfg headers org features feat e n :
  serves_text_messages commits_api →
  feat ∈ features →
  expected_authors cfg !! sha feat = Some e →
  stops (verify_feature_commit commits_api cfg headers org feat) →
  stops (verify_commits commits_api cfg headers org features n).
Proof.
  intros Htext Hin He Hstop. revert n.
  induction features as [|f features IH]; intros n; [by apply elem_of_nil in Hin|].
  simpl. apply elem_of_cons in Hin as [<-|Hin].
  - rewrite He. by apply stops_bind_l.
  - destruct (expected_authors cfg !! sha f); [|by apply IH].
    apply stops_bind_r; [by apply verify_feature_commit_fails_only|].
    intros _. by apply IH.
Qed.

(** *** Steps 2 to 6 and the whole run *)

Lemma verify_document_missing_feature cfg headers org doc n s :
  (n, s) ∈ expected_features cfg →
  (∀ f, f ∈ parse_feature_table doc (table_header cfg) → name f ≠ n) →
  stops_quietly (verify_document commits_api cfg headers org doc).
Proof.
  intros Hin Hno. unfold verify_document.
  pose proof check_sections_fails_only. pose proof check_sections_quiet.
  repeat (apply stops_quietly_bind_r; [solve [flow] | solve [flow] | intros _]).
  case_match.
  { repeat (apply stops_quietly_bind_r; [solve [flow] | solve [flow] | intros _]). flow. }
  repeat (apply stops_quietly_bind_r; [solve [flow] | solve [flow] | intros _]).
  case_match.
  { repeat (apply stops_quietly_bind_r; [solve [flow] | solve [flow] | intros _]). flow. }
  repeat (apply stops_quietly_bind_r; [solve [flow] | solve [flow] | intros _]).
  apply stops_quietly_bind_l.
  eapply check_expected_features_missing; [exact Hin|].
  by apply name_to_sha_missing.
Qed.

Lemma verify_document_halts cfg headers org doc feat e :
  feat ∈ parse_feature_table doc (table_header cfg) →
  expected_authors cfg !! sha feat = Some e →
  halts (verify_feature_commit commits_api cfg headers org feat) →
  halts (verify_document commits_api cfg headers org doc).
Proof.
  intros Hin He Hhalts. unfold verify_document.
  pose proof check_sections_fails_only.
  pose proof check_expected_features_fails_only.
  repeat (apply halts_bind_r; [solve [flow] | intros _]).
  case_match.
  { apply stops_halts. repeat (apply stops_bind_r; [solve [flow] | intros _]). flow. }
  repeat (apply halts_bind_r; [solve [flow] | intros _]).
  case_match.
  { apply stops_halts. repeat (apply stops_bind_r; [solve [flow] | intros _]). flow. }
  repeat (apply halts_bind_r; [solve [flow] | intros _]).
  apply halts_bind_l. by eapply verify_commits_halts.
Qed.

Lemma verify_document_stops cfg headers org doc feat e :
  serves_text_messages commits_api →
  feat ∈ parse_feature_table doc (table_header cfg) →
  expected_authors cfg !! sha feat = Some e →
  stops (verify_feature_commit commits_api cfg headers org feat) →
  stops (verify_document commits_api cfg headers org doc).
Proof.
  intros Htext Hin He Hstop. unfold verify_document.
  pose proof check_sections_fails_only.
  pose proof check_expected_features_fails_only.
  repeat (apply stops_bind_r; [solve [flow] | intros _]).
  case_match.
  { repeat (apply stops_bind_r; [solve [flow] | intros _]). flow. }
  repeat (apply stops_bind_r; [solve [flow] | intros _]).
  case_match.
  { repeat (apply stops_bind_r; [solve [flow] | intros _]). flow. }
  repeat (apply stops_bind_r; [solve [flow] | intros _]).
  apply stops_bind_l. by eapply verify_commits_stops.
Qed.

(** The run, split at the end of step 1. *)
Lemma run_verification_unfold cfg token org (t : trace) :
  run_verification contents_api commits_api b64decode_utf8 cfg token org t =
  let '(fetched, t1) :=
    fetch_github_file contents_api b64decode_utf8 (feature_doc_path cfg)
      (get_github_headers token) org (target_repo cfg) (target_branch cfg)
      (t ++ run_banner cfg org) in
  if negb (truthy fetched) then (Returned false, t1)
  else body (verify_document commits_api cfg (get_github_headers token) org
               (default "" fetched)) t1.
Proof.
  unfold run_verification, run_banner.
  cbv beta iota zeta delta [body mbind M_bind print call].
  rewrite <- !app_assoc. cbn [app].
  destruct (fetch_github_file _ _ _ _ _ _ _ _) as [fetched t1].
  by destruct (negb (truthy fetched)).
Qed.

Lemma run_verification_halts cfg token org (t : trace) :
  (∀ doc, fetched_document contents_api b64decode_utf8 cfg token org t = Some doc →
          halts (verify_document commits_api cfg (get_github_headers token) org doc)) →
  failed (fst (run_verification contents_api commits_api b64decode_utf8 cfg token org t)).
Proof.
  intros Hdoc. rewrite run_verification_unfold. unfold fetched_document in Hdoc.
  destruct (fetch_github_file _ _ _ _ _ _ _ _) as [fetched t1]. simpl in Hdoc.
  destruct fetched as [doc|]; [|by left].
  destruct (negb (truthy (Some doc))); [by left|].
  destruct (Hdoc doc eq_refl t1) as (r & Hr & Hfailed). simpl. unfold body.
  destruct (verify_document _ _ _ _ _ _) as [[b|b] t2]; simpl in *; congruence.
Qed.

Lemma run_verification_stops cfg token org (t : trace) :
  (∀ doc, fetched_document contents_api b64decode_utf8 cfg token org t = Some doc →
          stops (verify_document commits_api cfg (get_github_headers token) org doc)) →
  fst (run_verification contents_api commits_api b64decode_utf8 cfg token org t)
  = Returned false.
Proof.
  intros Hdoc. rewrite run_verification_unfold. unfold fetched_document in Hdoc.
  destruct (fetch_github_file _ _ _ _ _ _ _ _) as [fetched t1]. simpl in Hdoc.
  destruct fetched as [doc|]; [|done].
  destruct (negb (truthy (Some doc))); [done|].
  specialize (Hdoc doc eq_refl t1). simpl. unfold body.
  destruct (verify_document _ _ _ _ _ _) as [[b|b] t2]; simpl in *; congruence.
Qed.

(** The per-commit step up to the author check, for a sha of the required
    shape whose lookup the service answers with a commit that holds the two
    required keys. *)
Lemma verify_feature_commit_found cfg headers org feat d (t : trace) :
  Text.sha_re_match (sha feat) = true →
  serves commits_api (commit_url org (target_repo cfg) (sha feat)) headers d →
  has_key (detail_sha d) = true →
  has_key (detail_commit d) = true →
  detail_author d ≠ AuthorNotObject →
  verify_feature_commit commits_api cfg headers org feat t
  = (check_author (sha feat) d (expected_authors cfg);;
     check_message (sha feat) d (expected_messages cfg);;
     check_date feat (expected_dates cfg);;
     print (CommitVerified (Text.take 8 (sha feat))))
      (t ++ [Print (Verifying (Text.take 8 (sha feat)));
             HttpGet CommitsEndpoint (commit_url org (target_repo cfg) (sha feat))
               headers]).
Proof.
  intros Hsha Hserves Hs Hc Hshape.
  destruct (Hserves (t ++ [Print (Verifying (Text.take 8 (sha feat)))]))
    as (r & Hapi & Hstatus & Hjson).
  unfold verify_feature_commit.
  cbv beta iota zeta delta [mbind M_bind print call].
  rewrite Hsha. cbn [negb]. cbv beta.
  rewrite (verify_commit_found _ _ _ _ _ r d Hsha Hapi Hstatus Hjson Hs Hc Hshape).
  cbv beta iota. by rewrite <- app_assoc.
Qed.

(** The per-commit step when the lookup is answered with a commit whose
    author is neither [null] nor an object: [verify_commit] refuses it. *)
Lemma verify_feature_commit_odd_author cfg headers org feat d (t : trace) :
  Text.sha_re_match (sha feat) = true →
  serves commits_api (commit_url org (target_repo cfg) (sha feat)) headers d →
  has_key (detail_sha d) = true →
  has_key (detail_commit d) = true →
  detail_author d = AuthorNotObject →
  verify_feature_commit commits_api cfg headers org feat t
  = (Return (Returned false),
     t ++ [Print (Verifying (Text.take 8 (sha feat)));
           HttpGet CommitsEndpoint (commit_url org (target_repo cfg) (sha feat))
             headers;
           PrintErr AuthorNotDict;
           PrintErr (NoCommitDetail (Text.take 8 (sha feat)))]).
Proof.
  intros Hsha Hserves Hs Hc Hauthor.
  destruct (Hserves (t ++ [Print (Verifying (Text.take 8 (sha feat)))]))
    as (r & Hapi & Hstatus & Hjson).
  unfold verify_feature_commit, verify_commit. run_monad.
  rewrite Hsha. cbn [negb]. run_monad. rewrite Hapi. cbv beta iota.
  rewrite Hstatus, Hjson, Hs, Hc, Hauthor. cbn [Z.eqb Pos.eqb negb].
  by rewrite <- !app_assoc.
Qed.

(** The author check on a commit without a linked account. *)
Lemma check_author_unlinked feat_sha d authors (e : option string) (t : trace) :
  unlinked d →
  authors !! feat_sha = Some e →
  check_author feat_sha d authors t
  = match e with
    | None => (Next tt, t ++ [Print (WarnUnlinkedAccepted (Text.take 8 feat_sha))])
    | Some h =>
        (Return (Returned false),
         t ++ [PrintErr (AuthorExpectedButUnlinked (Text.take 8 feat_sha) h)])
    end.
Proof.
  intros Hunlinked He. unfold check_author, get_or_none. rewrite He.
  by destruct Hunlinked as [-> | ->], e.
Qed.

(** The author check on a commit with a linked account. *)
Lemma check_author_linked feat_sha d authors (e login : option string) (t : trace) :
  detail_author d = AuthorObject login →
  authors !! feat_sha = Some e →
  check_author feat_sha d authors t
  = if truthy login && bool_decide (login = e) then (Next tt, t)
    else (Return (Returned false),
          t ++ [PrintErr (AuthorMismatch (Text.take 8 feat_sha));
                PrintErr (Expected (show_opt e));
                PrintErr (Actual (if truthy login then show_opt login
                                  else ShownEmptyMark))]).
Proof.
  intros Hd He. unfold check_author, get_or_none. rewrite Hd, He.
  destruct (truthy login), (bool_decide (login = e)); cbn [negb orb andb];
    run_monad; by rewrite <- ?app_assoc.
Qed.

Lemma bind_next {R A B} (m : M R A) (k : A → M R B) (t t' : trace) (a : A) :
  m t = (Next a, t') → (m ≫= k) t = k a t'.
Proof. intros Hm. unfold mbind, M_bind. by rewrite Hm. Qed.

Lemma bind_return {R A B} (m : M R A) (k : A → M R B) (t t' : trace) (r : R) :
  m t = (Return r, t') → (m ≫= k) t = (Return r, t').
Proof. intros Hm. unfold mbind, M_bind. by rewrite Hm. Qed.

(** A record on which the per-commit step always returns [False] makes the
    run fail, and return [False] when no commit can make line 378 raise. *)
Lemma run_verification_fails_on cfg token org (t : trace) doc feat e :
  fetched_document contents_api b64decode_utf8 cfg token org t = Some doc →
  feat ∈ parse_feature_table doc (table_header cfg) →
  expected_authors cfg !! sha feat = Some e →
  stops (verify_feature_commit commits_api cfg (get_github_headers token) org feat) →
  failed (fst (run_verification contents_api commits_api b64decode_utf8 cfg token org t))
  ∧ (serves_text_messages commits_api →
     fst (run_verification contents_api commits_api b64decode_utf8 cfg token org t)
     = Returned false).
Proof.
  intros Hdoc Hin He Hstop. split.
  - apply run_verification_halts.
    intros doc' Hdoc'. assert (doc' = doc) as -> by congruence.
    eapply verify_document_halts; [exact Hin | exact He | by apply stops_halts].
  - intros Htext. apply run_verification_stops.
    intros doc' Hdoc'. assert (doc' = doc) as -> by congruence.
    by eapply verify_document_stops.
Qed.

End VerifierFacts.

(** ** Claims about the pipeline *)

Section VerifierClaims.

Variable contents_api : trace → http_result contents_json.
Variable commits_api : trace → http_result commit_json.
Variable b64decode_utf8 : string → option string.

(** C1, amended: a fetch that fails at the transport level (404, 403, any
    other status but 200, a timeout, any other exception) returns [None]
    whatever the kind of the failure; the kind shows only in the line
    printed on the error stream right after the request. *)
Theorem C1_failed_fetch_returns_none file_path headers org repo branch
    (t : trace) (kind : failure_kind) :
  failure_of (contents_api
                (t ++ [HttpGet ContentsEndpoint
                         (contents_url org repo file_path branch) headers]))
    = Some kind →
  ∃ m rest,
    fetch_github_file contents_api b64decode_utf8 file_path headers org repo branch t
      = (None,
         t ++ [HttpGet ContentsEndpoint (contents_url org repo file_path branch) headers;
               PrintErr m] ++ rest)
    ∧ kind_of_msg m = Some kind.
Proof.
  unfold fetch_github_file, failure_of. run_monad.
  destruct (contents_api _) as [| d | r].
  - intros [= <-]. eexists _, []. rewrite <- app_assoc. split; reflexivity.
  - intros [= <-]. eexists _, []. rewrite <- app_assoc. split; reflexivity.
  - destruct (status_code r =? 200); [done|].
    destruct (status_code r =? 404).
    { intros [= <-]. eexists _, []. rewrite <- app_assoc. split; reflexivity. }
    destruct (status_code r =? 403).
    { intros [= <-]. eexists _, []. rewrite <- app_assoc. split; reflexivity. }
    intros [= <-]. eexists _, [_]. rewrite <- !app_assoc. split; reflexivity.
Qed.

(** C2, amended: a parsed record whose sha is a key of [expected_authors]
    and does not match [^[a-f0-9]{40}$] makes the run fail: it returns
    [False], unless the message check of an earlier record raises first,
    which takes a commit whose [commit] or [message] is [null].  (Keys of the
    three maps that no parsed record carries are never looked at.) *)
Theorem C2_malformed_record_sha_fails cfg token org (t : trace)
    (doc : string) (feat : feature) (e : option string) :
  fetched_document contents_api b64decode_utf8 cfg token org t = Some doc →
  feat ∈ parse_feature_table doc (table_header cfg) →
  expected_authors cfg !! sha feat = Some e →
  Text.sha_re_match (sha feat) = false →
  failed (fst (run_verification contents_api commits_api b64decode_utf8 cfg token org t))
  ∧ (serves_text_messages commits_api →
     fst (run_verification contents_api commits_api b64decode_utf8 cfg token org t)
     = Returned false).
Proof.
  intros Hdoc Hin He Hbad.
  eapply run_verification_fails_on; [exact Hdoc | exact Hin | exact He |].
  intros t'. unfold verify_feature_commit. rewrite Hbad. done.
Qed.

(** C3: when [expected_features] names a feature that no parsed record has,
    the run returns [False] and the trace it leaves holds no request to the
    commits endpoint. *)
Theorem C3_missing_feature_fails_before_lookup cfg token org (t : trace)
    (n s : string) :
  (n, s) ∈ expected_features cfg →
  (∀ doc f, fetched_document contents_api b64decode_utf8 cfg token org t = Some doc →
            f ∈ parse_feature_table doc (table_header cfg) → name f ≠ n) →
  ∃ es,
    run_verification contents_api commits_api b64decode_utf8 cfg token org t
      = (Returned false, t ++ es)
    ∧ no_commit_lookup es = true.
Proof.
  intros Hin Hno. rewrite run_verification_unfold. unfold fetched_document in Hno.
  destruct (fetch_github_file_quiet contents_api b64decode_utf8 (feature_doc_path cfg)
              (get_github_headers token) org (target_repo cfg) (target_branch cfg)
              (t ++ run_banner cfg org)) as (es1 & Hes1 & Hq1).
  destruct (fetch_github_file _ _ _ _ _ _ _ _) as [fetched t1].
  simpl in Hes1, Hno. subst t1.
  destruct (negb (truthy fetched)) eqn:Htruthy.
  - exists (run_banner cfg org ++ es1).
    by rewrite app_assoc, no_commit_lookup_app, Hq1.
  - destruct fetched as [doc|]; [|done].
    destruct (verify_document_missing_feature commits_api cfg (get_github_headers token)
                org doc n s Hin (λ f, Hno doc f eq_refl)
                ((t ++ run_banner cfg org) ++ es1)) as (es2 & Hes2 & Hq2).
    exists (run_banner cfg org ++ es1 ++ es2).
    unfold body. simpl default. rewrite Hes2.
    rewrite !no_commit_lookup_app, Hq1, Hq2, !app_assoc. done.
Qed.

(** C4: a sha that does not match [^[a-f0-9]{40}$] makes [verify_commit]
    print the invalid-format line and return [None], and makes the
    per-commit step of the run print it and return [False]; in both cases
    the trace gains no request. *)
Theorem C4_bad_sha_short_circuits (bad_sha : string) :
  Text.sha_re_match bad_sha = false →
  (∀ headers org repo (t : trace),
     verify_commit commits_api bad_sha headers org repo t
     = (None, t ++ [PrintErr (InvalidShaFormat bad_sha)]))
  ∧ (∀ cfg headers org feat (t : trace),
       sha feat = bad_sha →
       verify_feature_commit commits_api cfg headers org feat t
       = (Return (Returned false),
          t ++ [Print (Verifying (Text.take 8 bad_sha));
                PrintErr (InvalidShaFormat bad_sha)])).
Proof.
  intros Hbad. split.
  - intros. by apply verify_commit_bad_sha.
  - intros cfg headers org feat t <-. unfold verify_feature_commit.
    rewrite Hbad. cbn [negb]. run_monad. by rewrite <- app_assoc.
Qed.

(** C5: the author check of the per-commit step, for a record whose sha is
    a key of [expected_authors], with value [e], and whose lookup the
    service answers with the commit [d].
    (1) No linked account ([author] absent or [null]) and [e] is [None]:
        the step prints the warning on standard output and goes on with the
        message check.
    (2) No linked account and [e] is a handle: the step prints the line of
        the missing account and returns [False], and a run whose table
        holds the record fails.
    (3) An account whose handle is not empty and is [e]: the step goes on
        with the message check and prints nothing.
    (4) An account otherwise (handle missing, empty, or not [e]): the step
        prints the three lines of the mismatch and returns [False], and a
        run whose table holds the record fails.
    (5) An author that is neither [null] nor an object: [verify_commit]
        refuses the commit, the step returns [False] and a run whose table
        holds the record fails.
    A run that fails returns [False], unless the message check of an
    earlier record raises first. *)
Theorem C5_author_check cfg token org (feat : feature) (d : commit_json)
    (e : option string) :
  Text.sha_re_match (sha feat) = true →
  serves commits_api (commit_url org (target_repo cfg) (sha feat))
    (get_github_headers token) d →
  has_key (detail_sha d) = true →
  has_key (detail_commit d) = true →
  expected_authors cfg !! sha feat = Some e →
  (unlinked d → e = None →
   ∀ t : trace,
     verify_feature_commit commits_api cfg (get_github_headers token) org feat t
     = (check_message (sha feat) d (expected_messages cfg);;
        check_date feat (expected_dates cfg);;
        print (CommitVerified (Text.take 8 (sha feat))))
         (t ++ [Print (Verifying (Text.take 8 (sha feat)));
                HttpGet CommitsEndpoint (commit_url org (target_repo cfg) (sha feat))
                  (get_github_headers token);
                Print (WarnUnlinkedAccepted (Text.take 8 (sha feat)))]))
  ∧ (∀ h, unlinked d → e = Some h →
       (∀ t : trace,
          verify_feature_commit commits_api cfg (get_github_headers token) org feat t
          = (Return (Returned false),
             t ++ [Print (Verifying (Text.take 8 (sha feat)));
                   HttpGet CommitsEndpoint
                     (commit_url org (target_repo cfg) (sha feat))
                     (get_github_headers token);
                   PrintErr (AuthorExpectedButUnlinked (Text.take 8 (sha feat)) h)]))
       ∧ ∀ (t : trace) doc,
           fetched_document contents_api b64decode_utf8 cfg token org t = Some doc →
           feat ∈ parse_feature_table doc (table_header cfg) →
           failed (fst (run_verification contents_api commits_api b64decode_utf8
                          cfg token org t))
           ∧ (serves_text_messages commits_api →
              fst (run_verification contents_api commits_api b64decode_utf8
                     cfg token org t) = Returned false))
  ∧ (∀ login, detail_author d = AuthorObject login →
       truthy login = true → login = e →
       ∀ t : trace,
         verify_feature_commit commits_api cfg (get_github_headers token) org feat t
         = (check_message (sha feat) d (expected_messages cfg);;
            check_date feat (expected_dates cfg);;
            print (CommitVerified (Text.take 8 (sha feat))))
             (t ++ [Print (Verifying (Text.take 8 (sha feat)));
                    HttpGet CommitsEndpoint
                      (commit_url org (target_repo cfg) (sha feat))
                      (get_github_headers token)]))
  ∧ (∀ login, detail_author d = AuthorObject login →
       truthy login = false ∨ login ≠ e →
       (∀ t : trace,
          verify_feature_commit commits_api cfg (get_github_headers token) org feat t
          = (Return (Returned false),
             t ++ [Print (Verifying (Text.take 8 (sha feat)));
                   HttpGet CommitsEndpoint
                     (commit_url org (target_repo cfg) (sha feat))
                     (get_github_headers token);
                   PrintErr (AuthorMismatch (Text.take 8 (sha feat)));
                   PrintErr (Expected (show_opt e));
                   PrintErr (Actual (if truthy login then show_opt login
                                     else ShownEmptyMark))]))
       ∧ ∀ (t : trace) doc,
           fetched_document contents_api b64decode_utf8 cfg token org t = Some doc →
           feat ∈ parse_feature_table doc (table_header cfg) →
           failed (fst (run_verification contents_api commits_api b64decode_utf8
                          cfg token org t))
           ∧ (serves_text_messages commits_api →
              fst (run_verification contents_api commits_api b64decode_utf8
                     cfg token org t) = Returned false))
  ∧ (detail_author d = AuthorNotObject →
     (∀ t : trace,
        verify_feature_commit commits_api cfg (get_github_headers token) org feat t
        = (Return (Returned false),
           t ++ [Print (Verifying (Text.take 8 (sha feat)));
                 HttpGet CommitsEndpoint
                   (commit_url org (target_repo cfg) (sha feat))
                   (get_github_headers token);
                 PrintErr AuthorNotDict;
                 PrintErr (NoCommitDetail (Text.take 8 (sha feat)))]))
     ∧ ∀ (t : trace) doc,
         fetched_document contents_api b64decode_utf8 cfg token org t = Some doc →
         feat ∈ parse_feature_table doc (table_header cfg) →
         failed (fst (run_verification contents_api commits_api b64decode_utf8
                        cfg token org t))
         ∧ (serves_text_messages commits_api →
            fst (run_verification contents_api commits_api b64decode_utf8
                   cfg token org t) = Returned false)).
Proof.
  intros Hsha Hserves Hs Hc He.
  pose proof (λ Hshape t, verify_feature_commit_found commits_api cfg
                (get_github_headers token) org feat d t Hsha Hserves Hs Hc Hshape)
    as Hstep.
  assert (Hrun :
    stops (verify_feature_commit commits_api cfg (get_github_headers token) org feat) →
    ∀ (t : trace) doc,
      fetched_document contents_api b64decode_utf8 cfg token org t = Some doc →
      feat ∈ parse_feature_table doc (table_header cfg) →
      failed (fst (run_verification contents_api commits_api b64decode_utf8
                     cfg token org t))
      ∧ (serves_text_messages commits_api →
         fst (run_verification contents_api commits_api b64decode_utf8
                cfg token org t) = Returned false)).
  { intros Hstop t doc Hdoc Hin. by eapply run_verification_fails_on. }
  split_and!.
  - intros Hunlinked -> t.
    rewrite Hstep by (destruct Hunlinked; congruence).
    erewrite bind_next; [|exact (check_author_unlinked _ _ _ None _ Hunlinked He)].
    by rewrite <- app_assoc.
  - intros h Hunlinked ->.
    assert (Hfalse : ∀ t : trace,
      verify_feature_commit commits_api cfg (get_github_headers token) org feat t
      = (Return (Returned false),
         t ++ [Print (Verifying (Text.take 8 (sha feat)));
               HttpGet CommitsEndpoint (commit_url org (target_repo cfg) (sha feat))
                 (get_github_headers token);
               PrintErr (AuthorExpectedButUnlinked (Text.take 8 (sha feat)) h)])).
    { intros t. rewrite Hstep by (destruct Hunlinked; congruence).
      erewrite bind_return;
        [|exact (check_author_unlinked _ _ _ (Some h) _ Hunlinked He)].
      by rewrite <- app_assoc. }
    split; [exact Hfalse|]. apply Hrun. intros t. by rewrite Hfalse.
  - intros login Hd Htruthy -> t. rewrite Hstep by congruence.
    erewrite bind_next; [reflexivity|].
    erewrite check_author_linked by done.
    by rewrite Htruthy, bool_decide_eq_true_2.
  - intros login Hd Hbad.
    assert (Hfalse : ∀ t : trace,
      verify_feature_commit commits_api cfg (get_github_headers token) org feat t
      = (Return (Returned false),
         t ++ [Print (Verifying (Text.take 8 (sha feat)));
               HttpGet CommitsEndpoint (commit_url org (target_repo cfg) (sha feat))
                 (get_github_headers token);
               PrintErr (AuthorMismatch (Text.take 8 (sha feat)));
               PrintErr (Expected (show_opt e));
               PrintErr (Actual (if truthy login then show_opt login
                                 else ShownEmptyMark))])).
    { intros t. rewrite Hstep by congruence.
      erewrite bind_return; [reflexivity|].
      erewrite check_author_linked by done.
      assert (truthy login && bool_decide (login = e) = false) as ->.
      { destruct Hbad as [-> | Hne]; [done|].
        by rewrite (bool_decide_eq_false_2 _ Hne), andb_false_r. }
      by rewrite <- app_assoc. }
    split; [exact Hfalse|]. apply Hrun. intros t. by rewrite Hfalse.
  - intros Hd.
    pose proof (λ t, verify_feature_commit_odd_author commits_api cfg
                  (get_github_headers token) org feat d t Hsha Hserves Hs Hc Hd)
      as Hfalse.
    split; [exact Hfalse|]. apply Hrun. intros t. by rewrite Hfalse.
Qed.

(** C10: for a record whose sha has no entry in [expected_dates],
    (1) the date check, once the record's date has the shape
        [YYYY-MM-DD], compares it with [None] and returns [False] after the
        three lines of the date mismatch;
    (2) so does the per-commit step when the lookup, the author check and
        the message check have passed;
    (3) and a run whose table holds such a record with its sha among the
        keys of [expected_authors] fails: it returns [False], unless the
        message check of this or an earlier record raises first, which
        takes a commit whose [commit] or [message] is [null]. *)
Theorem C10_missing_expected_date cfg (feat : feature) :
  expected_dates cfg !! sha feat = None →
  (∀ t : trace,
     Text.date_re_match (date feat) = true →
     check_date feat (expected_dates cfg) t
     = (Return (Returned false),
        t ++ [PrintErr (DateMismatch (Text.take 8 (sha feat)));
              PrintErr (Expected ShownNone);
              PrintErr (Actual (ShownStr (date feat)))]))
  ∧ (∀ headers org (t t2 t3 t4 : trace) d,
       Text.sha_re_match (sha feat) = true →
       verify_commit commits_api (sha feat) headers org (target_repo cfg)
         (t ++ [Print (Verifying (Text.take 8 (sha feat)))]) = (Some d, t2) →
       check_author (sha feat) d (expected_authors cfg) t2 = (Next tt, t3) →
       check_message (sha feat) d (expected_messages cfg) t3 = (Next tt, t4) →
       Text.date_re_match (date feat) = true →
       verify_feature_commit commits_api cfg headers org feat t
       = (Return (Returned false),
          t4 ++ [PrintErr (DateMismatch (Text.take 8 (sha feat)));
                 PrintErr (Expected ShownNone);
                 PrintErr (Actual (ShownStr (date feat)))]))
  ∧ (∀ token org (t : trace) doc e,
       fetched_document contents_api b64decode_utf8 cfg token org t = Some doc →
       feat ∈ parse_feature_table doc (table_header cfg) →
       expected_authors cfg !! sha feat = Some e →
       failed (fst (run_verification contents_api commits_api b64decode_utf8
                      cfg token org t))
       ∧ (serves_text_messages commits_api →
          fst (run_verification contents_api commits_api b64decode_utf8
                 cfg token org t) = Returned false)).
Proof.
  intros Hnone.
  assert (Hdate : ∀ t : trace,
     Text.date_re_match (date feat) = true →
     check_date feat (expected_dates cfg) t
     = (Return (Returned false),
        t ++ [PrintErr (DateMismatch (Text.take 8 (sha feat)));
              PrintErr (Expected ShownNone);
              PrintErr (Actual (ShownStr (date feat)))])).
  { intros t Hshape. unfold check_date. rewrite Hnone, Hshape. cbn [negb].
    rewrite bool_decide_eq_false_2 by done. cbn [negb show_opt]. run_monad.
    by rewrite <- !app_assoc. }
  assert (Hstops : stops (check_date feat (expected_dates cfg))).
  { intros t'. unfold check_date. rewrite Hnone.
    by destruct (Text.date_re_match (date feat)). }
  split; [exact Hdate|]. split.
  - intros headers org t t2 t3 t4 d Hsha Hlookup Hauthor Hmsg Hshape.
    unfold verify_feature_commit.
    cbv beta iota zeta delta [mbind M_bind print call].
    rewrite Hsha. cbn [negb]. cbv beta. rewrite Hlookup. cbv beta iota.
    rewrite Hauthor, Hmsg. by rewrite (Hdate t4 Hshape).
  - intros token org t doc e Hdoc Hin He. split.
    + apply run_verification_halts.
      intros doc' Hdoc'. assert (doc' = doc) as -> by congruence.
      eapply verify_document_halts; [exact Hin | exact He |].
      unfold verify_feature_commit.
      apply halts_bind_r; [solve [flow] | intros _].
      case_match; [apply stops_halts, stops_bind_r; [solve [flow] | intros _]; flow|].
      apply halts_bind_r; [solve [flow] | intros [d|]].
      2:{ apply stops_halts, stops_bind_r; [solve [flow] | intros _]. flow. }
      apply halts_bind_r; [apply check_author_never_passes | intros _].
      apply halts_bind_r; [apply check_message_never_passes | intros _].
      by apply halts_bind_l, stops_halts.
    + intros Htext. apply run_verification_stops.
      intros doc' Hdoc'. assert (doc' = doc) as -> by congruence.
      eapply verify_document_stops; [exact Htext | exact Hin | exact He |].
      unfold verify_feature_commit.
      apply stops_bind_r; [solve [flow] | intros _].
      case_match; [apply stops_bind_r; [solve [flow] | intros _]; flow|].
      intros t'. unfold mbind at 1, M_bind at 1, call.
      destruct (verify_commit _ _ _ _ _ _) as [[d|] t2] eqn:Hlookup.
      2:{ by run_monad. }
      pose proof (verify_commit_author_shape _ _ _ _ _ _ _ _ Hlookup) as Hshape.
      apply verify_commit_served in Hlookup as (t0 & r & Hapi & Hjson).
      pose proof (Htext _ _ _ Hapi Hjson) as Hd.
      revert t2. change (stops (check_author (sha feat) d (expected_authors cfg);;
                                check_message (sha feat) d (expected_messages cfg);;
                                check_date feat (expected_dates cfg);;
                                print (CommitVerified (Text.take 8 (sha feat))))).
      apply stops_bind_r; [by apply check_author_fails_only | intros _].
      apply stops_bind_r; [by apply check_message_fails_only | intros _].
      by apply stops_bind_l.
Qed.

End VerifierClaims.

(** ** The claims at sample inputs *)

(** The pipeline passes on the sample table with matching expectations. *)
Example run_verification_passes :
  fst (run_verification (serve_doc doc_a) (serve_commit commit_a) no_decoder
         cfg_a "tok" "org" []) = Returned true.
Proof. by vm_compute. Qed.

(** It raises when the commit holds [null] as its message. *)
Example run_verification_raises :
  fst (run_verification (serve_doc doc_a) (serve_commit commit_null_message)
         no_decoder cfg_a "tok" "org" []) = Raised AttributeError.
Proof. by vm_compute. Qed.

(** C1, as stated, fails: four fetches that fail in the four different ways
    return the same value, [None]. *)
Lemma C1_collapsed_failures_counterexample :
  failure_of (refuse_with 404 []) = Some NotFound
  ∧ failure_of (refuse_with 403 []) = Some AccessDenied
  ∧ failure_of (contents_timeout []) = Some TransportTimeout
  ∧ failure_of (contents_unreachable []) = Some OtherTransportError
  ∧ fst (fetch_github_file (refuse_with 404) no_decoder
           "FEATURES.md" [] "org" "repo" "main" []) = None
  ∧ fst (fetch_github_file (refuse_with 403) no_decoder
           "FEATURES.md" [] "org" "repo" "main" []) = None
  ∧ fst (fetch_github_file contents_timeout no_decoder
           "FEATURES.md" [] "org" "repo" "main" []) = None
  ∧ fst (fetch_github_file contents_unreachable no_decoder
           "FEATURES.md" [] "org" "repo" "main" []) = None.
Proof. by vm_compute. Qed.

Lemma C1_failed_fetch_witness :
  failure_of (refuse_with 404
                ([] ++ [HttpGet ContentsEndpoint
                          (contents_url "org" "repo" "FEATURES.md" "main") []]))
    = Some NotFound
  ∧ ∃ m rest,
      fetch_github_file (refuse_with 404) no_decoder
        "FEATURES.md" [] "org" "repo" "main" []
      = (None,
         [] ++ [HttpGet ContentsEndpoint
                  (contents_url "org" "repo" "FEATURES.md" "main") [];
                PrintErr m] ++ rest)
      ∧ kind_of_msg m = Some NotFound.
Proof.
  split; [reflexivity|].
  apply (C1_failed_fetch_returns_none (refuse_with 404) no_decoder
           "FEATURES.md" [] "org" "repo" "main" [] NotFound).
  reflexivity.
Defined.

(** C2, as stated, fails: [XYZ] is a key of the three maps and is no sha,
    no row of the table carries it, and the run returns [True]. *)
Lemma C2_stray_key_counterexample :
  expected_authors cfg_stray_key !! "XYZ" = Some (Some "bob")
  ∧ expected_messages cfg_stray_key !! "XYZ" = Some "oops"
  ∧ expected_dates cfg_stray_key !! "XYZ" = Some "2024-01-01"
  ∧ Text.sha_re_match "XYZ" = false
  ∧ map sha (parse_feature_table doc_a (table_header cfg_stray_key)) = [sha_a]
  ∧ fst (run_verification (serve_doc doc_a) (serve_commit commit_a) no_decoder
           cfg_stray_key "tok" "org" []) = Returned true.
Proof. by vm_compute. Qed.

Lemma C2_malformed_record_sha_witness :
  fst (run_verification (serve_doc doc_bad_sha) (serve_commit commit_a) no_decoder
         cfg_bad_sha "tok" "org" []) = Returned false.
Proof.
  apply (C2_malformed_record_sha_fails (serve_doc doc_bad_sha) (serve_commit commit_a)
           no_decoder cfg_bad_sha "tok" "org" [] doc_bad_sha (record_a "XYZ")
           (Some "alice")).
  - reflexivity.
  - vm_compute. apply list_elem_of_singleton. reflexivity.
  - reflexivity.
  - reflexivity.
  - intros t r d [= <-] [= <-]. reflexivity.
Defined.

Lemma C3_missing_feature_witness :
  ∃ es,
    run_verification (serve_doc doc_a) (serve_commit commit_a) no_decoder
      cfg_missing_feature "tok" "org" [] = (Returned false, [] ++ es)
    ∧ no_commit_lookup es = true.
Proof.
  apply (C3_missing_feature_fails_before_lookup (serve_doc doc_a)
           (serve_commit commit_a) no_decoder cfg_missing_feature "tok" "org" []
           "X" "deadbeefdeadbeefdeadbeefdeadbeefdeadbeef").
  - vm_compute. apply elem_of_cons. right. apply list_elem_of_singleton. reflexivity.
  - intros doc f Hdoc Hf. vm_compute in Hdoc. injection Hdoc as <-.
    vm_compute in Hf. apply list_elem_of_singleton in Hf. rewrite Hf. discriminate.
Defined.

Lemma C4_bad_sha_witness :
  (* 39 hexadecimal digits *)
  verify_commit commits_down "0123456789abcdef0123456789abcdef0123456" [] "org" "repo" []
  = (None,
     [] ++ [PrintErr (InvalidShaFormat "0123456789abcdef0123456789abcdef0123456")])
  (* one uppercase digit *)
  ∧ verify_feature_commit commits_down cfg_a [] "org"
      (record_a "0123456789Abcdef0123456789abcdef01234567") []
    = (Return (Returned false),
       [] ++ [Print (Verifying
                       (Text.take 8 "0123456789Abcdef0123456789abcdef01234567"));
              PrintErr (InvalidShaFormat "0123456789Abcdef0123456789abcdef01234567")]).
Proof.
  split.
  - apply (proj1 (C4_bad_sha_short_circuits commits_down
                    "0123456789abcdef0123456789abcdef0123456" eq_refl)).
  - apply (proj2 (C4_bad_sha_short_circuits commits_down
                    "0123456789Abcdef0123456789abcdef01234567" eq_refl)).
    reflexivity.
Defined.

(** The author check on the sample record: an accepted commit without
    account; a commit without account where [alice] is expected; the commit
    by [alice]; a commit by [bob]; a commit by an account without handle;
    and a commit whose author is a string. *)
Lemma C5_author_check_witness :
  (verify_feature_commit (serve_commit commit_unlinked) cfg_unlinked
     (get_github_headers "tok") "org" (record_a sha_a) []
   = (check_message sha_a commit_unlinked (expected_messages cfg_unlinked);;
      check_date (record_a sha_a) (expected_dates cfg_unlinked);;
      print (CommitVerified (Text.take 8 sha_a)))
       ([] ++ [Print (Verifying (Text.take 8 sha_a));
               HttpGet CommitsEndpoint (commit_url "org" "repo" sha_a)
                 (get_github_headers "tok");
               Print (WarnUnlinkedAccepted (Text.take 8 sha_a))]))
  ∧ (verify_feature_commit (serve_commit commit_unlinked) cfg_a
       (get_github_headers "tok") "org" (record_a sha_a) []
     = (Return (Returned false),
        [] ++ [Print (Verifying (Text.take 8 sha_a));
               HttpGet CommitsEndpoint (commit_url "org" "repo" sha_a)
                 (get_github_headers "tok");
               PrintErr (AuthorExpectedButUnlinked (Text.take 8 sha_a) "alice")]))
  ∧ fst (run_verification (serve_doc doc_a) (serve_commit commit_unlinked) no_decoder
           cfg_a "tok" "org" []) = Returned false
  ∧ (verify_feature_commit (serve_commit commit_a) cfg_a
       (get_github_headers "tok") "org" (record_a sha_a) []
     = (check_message sha_a commit_a (expected_messages cfg_a);;
        check_date (record_a sha_a) (expected_dates cfg_a);;
        print (CommitVerified (Text.take 8 sha_a)))
         ([] ++ [Print (Verifying (Text.take 8 sha_a));
                 HttpGet CommitsEndpoint (commit_url "org" "repo" sha_a)
                   (get_github_headers "tok")]))
  ∧ (verify_feature_commit (serve_commit commit_by_bob) cfg_a
       (get_github_headers "tok") "org" (record_a sha_a) []
     = (Return (Returned false),
        [] ++ [Print (Verifying (Text.take 8 sha_a));
               HttpGet CommitsEndpoint (commit_url "org" "repo" sha_a)
                 (get_github_headers "tok");
               PrintErr (AuthorMismatch (Text.take 8 sha_a));
               PrintErr (Expected (ShownStr "alice"));
               PrintErr (Actual (ShownStr "bob"))]))
  ∧ fst (run_verification (serve_doc doc_a) (serve_commit commit_no_handle) no_decoder
           cfg_a "tok" "org" []) = Returned false
  ∧ fst (run_verification (serve_doc doc_a) (serve_commit commit_odd_author) no_decoder
           cfg_a "tok" "org" []) = Returned false.
Proof.
  assert (Hserves : ∀ d, serves (serve_commit d) (commit_url "org" "repo" sha_a)
                           (get_github_headers "tok") d).
  { intros d t. eexists. split_and!; reflexivity. }
  assert (Htext : ∀ d, message_is_text d = true → serves_text_messages (serve_commit d)).
  { intros d Hd t r d' [= <-] [= <-]. exact Hd. }
  assert (Hin : record_a sha_a ∈ parse_feature_table doc_a (table_header cfg_a)).
  { vm_compute. apply list_elem_of_singleton. reflexivity. }
  pose proof (C5_author_check (serve_doc doc_a) (serve_commit commit_unlinked)
                no_decoder cfg_unlinked "tok" "org" (record_a sha_a)
                commit_unlinked None eq_refl (Hserves _) eq_refl eq_refl eq_refl)
    as (Haccepted & _).
  pose proof (C5_author_check (serve_doc doc_a) (serve_commit commit_unlinked)
                no_decoder cfg_a "tok" "org" (record_a sha_a)
                commit_unlinked (Some "alice") eq_refl (Hserves _) eq_refl eq_refl
                eq_refl)
    as (_ & Hmissing & _).
  pose proof (C5_author_check (serve_doc doc_a) (serve_commit commit_a)
                no_decoder cfg_a "tok" "org" (record_a sha_a)
                commit_a (Some "alice") eq_refl (Hserves _) eq_refl eq_refl eq_refl)
    as (_ & _ & Hmatch & _).
  pose proof (C5_author_check (serve_doc doc_a) (serve_commit commit_by_bob)
                no_decoder cfg_a "tok" "org" (record_a sha_a)
                commit_by_bob (Some "alice") eq_refl (Hserves _) eq_refl eq_refl
                eq_refl)
    as (_ & _ & _ & Hother & _).
  pose proof (C5_author_check (serve_doc doc_a) (serve_commit commit_no_handle)
                no_decoder cfg_a "tok" "org" (record_a sha_a)
                commit_no_handle (Some "alice") eq_refl (Hserves _) eq_refl eq_refl
                eq_refl)
    as (_ & _ & _ & Hempty & _).
  pose proof (C5_author_check (serve_doc doc_a) (serve_commit commit_odd_author)
                no_decoder cfg_a "tok" "org" (record_a sha_a)
                commit_odd_author (Some "alice") eq_refl (Hserves _) eq_refl eq_refl
                eq_refl)
    as (_ & _ & _ & _ & Hodd).
  split_and!.
  - apply Haccepted; [right|]; reflexivity.
  - apply (Hmissing "alice"); [right|]; reflexivity.
  - apply (Hmissing "alice") with (doc := doc_a);
      [right; reflexivity | reflexivity | reflexivity | exact Hin | by apply Htext].
  - apply (Hmatch (Some "alice")); reflexivity.
  - apply (Hother (Some "bob")); [reflexivity | right; discriminate].
  - apply (Hempty None) with (doc := doc_a);
      [reflexivity | left; reflexivity | reflexivity | exact Hin | by apply Htext].
  - apply Hodd with (doc := doc_a);
      [reflexivity | reflexivity | exact Hin | by apply Htext].
Defined.

Lemma C10_missing_expected_date_witness :
  fst (run_verification (serve_doc doc_a) (serve_commit commit_a) no_decoder
         cfg_no_date "tok" "org" []) = Returned false.
Proof.
  apply (proj2 (proj2 (C10_missing_expected_date (serve_doc doc_a)
                         (serve_commit commit_a) no_decoder cfg_no_date
                         (record_a sha_a) eq_refl))
           "tok" "org" [] doc_a (Some "alice")).
  - reflexivity.
  - vm_compute. apply list_elem_of_singleton. reflexivity.
  - reflexivity.
  - intros t r d [= <-] [= <-]. reflexivity.
Defined.

(** ** Further facts about the text primitives *)

Lemma all_chars_occurs (cls : ascii → bool) (x s : string) :
  occurs_in x s → Text.all_chars cls s = true → Text.all_chars cls x = true.
Proof.
  intros (a & b & ->). rewrite !all_chars_app, !andb_true_iff. tauto.
Qed.

Lemma lacks_occurs (c : ascii) (x s : string) :
  occurs_in x s → Text.lacks c s = true → Text.lacks c x = true.
Proof. apply all_chars_occurs. Qed.

Lemma split_pieces_lack (sep : ascii) (s l : string) :
  l ∈ Text.split sep s → Text.lacks sep l = true.
Proof.
  unfold Text.lacks. revert l. induction s as [|c s IH]; simpl; intros l Hl.
  - by apply list_elem_of_singleton in Hl as ->.
  - destruct (Ascii.eqb c sep) eqn:Hc.
    + apply elem_of_cons in Hl as [->|Hl]; [done | by apply IH].
    + destruct (Text.split sep s) as [|h tl] eqn:Hs.
      * by destruct (split_nonempty sep s).
      * apply elem_of_cons in Hl as [->|Hl].
        -- simpl. rewrite Hc. simpl. apply IH. by left.
        -- apply IH. by right.
Qed.

Lemma rstrip_idem (s : string) : Text.rstrip (Text.rstrip s) = Text.rstrip s.
Proof.
  induction s as [|c s IH]; [done|]. simpl.
  destruct (Text.rstrip s) as [|r0 r] eqn:Hr.
  - destruct (Text.is_space c) eqn:Hc; [done|]. simpl. by rewrite Hc.
  - change (Text.rstrip (String c (String r0 r)))
      with (match Text.rstrip (String r0 r) with
            | "" => if Text.is_space c then "" else String c ""
            | r' => String c r'
            end).
    by rewrite IH.
Qed.

Lemma lstrip_head (s : string) :
  Text.lstrip s = "" ∨ ∃ c r, Text.lstrip s = String c r ∧ Text.is_space c = false.
Proof.
  induction s as [|c s IH]; simpl; [by left|].
  destruct (Text.is_space c) eqn:Hc; [done|]. right. by exists c, s.
Qed.

Lemma rstrip_keeps_head (c : ascii) (s : string) :
  Text.is_space c = false → ∃ r, Text.rstrip (String c s) = String c r.
Proof.
  intros Hc. simpl. destruct (Text.rstrip s); [|by eexists].
  rewrite Hc. by eexists.
Qed.

Lemma strip_idem (s : string) : Text.strip (Text.strip s) = Text.strip s.
Proof.
  unfold Text.strip. destruct (lstrip_head s) as [->|(c & r & -> & Hc)]; [done|].
  destruct (rstrip_keeps_head c r Hc) as [r' Hr']. rewrite Hr'.
  rewrite lstrip_nonspace by done. rewrite <- Hr'. apply rstrip_idem.
Qed.

Lemma in_slice_1_m1 {A} (x : A) (l : list A) : x ∈ Text.slice_1_m1 l → x ∈ l.
Proof.
  unfold Text.slice_1_m1. destruct l as [|a l]; simpl; [done|].
  intros Hx. right. revert Hx.
  induction l as [|b l IH]; simpl; [done|].
  destruct l as [|b' l]; [by intros ?%elem_of_nil|].
  intros [->|Hx]%elem_of_cons; [by left | right; by apply IH].
Qed.

Lemma slice_1_m1_snoc {A} (a : A) (l : list A) (x : A) :
  Text.slice_1_m1 (a :: l ++ [x]) = l.
Proof. unfold Text.slice_1_m1. simpl. apply removelast_last. Qed.

Lemma repeat_class_spec (cls : ascii → bool) (n : nat) (s rest : string) :
  Text.repeat_class cls n s = Some rest
  ↔ ∃ h, s = h +:+ rest ∧ String.length h = n ∧ Text.all_chars cls h = true.
Proof.
  revert s. induction n as [|n IH]; intros s; simpl.
  - split.
    + intros [= ->]. by exists "".
    + intros (h & -> & Hlen & _). by destruct h.
  - destruct s as [|c s].
    + split; [done|]. intros (h & Hs & Hlen & _). by destruct h.
    + destruct (cls c) eqn:Hc.
      * rewrite IH. split.
        -- intros (h & -> & Hlen & Hh). exists (String c h). simpl.
           by rewrite Hc, Hh, Hlen.
        -- intros (h & Hs & Hlen & Hh). destruct h as [|c' h]; [done|].
           rewrite str_app_cons in Hs. injection Hs as <- ->.
           simpl in Hlen, Hh. apply andb_true_iff in Hh as [_ Hh].
           exists h. split; [done|]. split; [by injection Hlen | done].
      * split; [done|]. intros (h & Hs & Hlen & Hh). destruct h as [|c' h]; [done|].
        rewrite str_app_cons in Hs. injection Hs as <- ->.
        simpl in Hh. by rewrite Hc in Hh.
Qed.

Lemma at_dollar_spec (r : string) :
  Text.at_dollar r = true ↔ r = "" ∨ r = String newline "".
Proof.
  destruct r as [|c [|c' r]].
  - split; [by left | done].
  - split.
    + intros Hc. right. by destruct c as [[] [] [] [] [] [] [] []].
    + intros [?|[= ->]]; done.
  - split.
    + by destruct c as [[] [] [] [] [] [] [] []].
    + by intros [?|?].
Qed.

Lemma lacks_final_newline (h : string) :
  Text.lacks newline (h +:+ String newline "") = false.
Proof.
  unfold Text.lacks. rewrite all_chars_app. simpl. apply andb_false_r.
Qed.

(** ** Further properties of the table parser *)

(** X1: text before the first line that contains the header marker does
    not matter: a document and the document with any marker-free text put in
    front of it parse alike. *)
Theorem parse_ignores_text_before_header (H pre rest : string) :
  Text.contains H pre = false →
  parse_feature_table (pre +:+ String newline rest) H = parse_feature_table rest H.
Proof.
  intros Hpre. unfold parse_feature_table. rewrite split_app.
  apply parse_loop_skip_preamble. by apply header_absent_in_lines.
Qed.

Lemma parse_ignores_text_before_header_witness :
  parse_feature_table (row_a sha_a +:+ String newline doc_a) "| Feature | SHA |"
  = parse_feature_table doc_a "| Feature | SHA |".
Proof.
  apply (parse_ignores_text_before_header "| Feature | SHA |" (row_a sha_a) doc_a).
  by vm_compute.
Defined.

Lemma parse_loop_remove_inert (H row : string) (pre post : list string)
    (ts hf : bool) (fs : list feature) :
  (∀ ts hf fs, parse_loop H (row :: post) ts hf fs = parse_loop H post ts hf fs) →
  parse_loop H (pre ++ row :: post) ts hf fs = parse_loop H (pre ++ post) ts hf fs.
Proof.
  intros Hrow. revert ts hf fs.
  induction pre as [|l pre IH]; intros ts hf fs; [apply Hrow|].
  rewrite <- !app_comm_cons, !parse_loop_cons. cbv zeta.
  repeat case_match; try done; apply IH.
Qed.

(** X2: a line that, trimmed, starts with a pipe and contains three dashes
    anywhere is taken for a separator and adds no record, however many
    cells it has. *)
Theorem parse_drops_rows_with_dashes (D H row : string) (pre post : list string) :
  Text.split newline D = pre ++ row :: post →
  Text.contains H (Text.strip row) = false →
  Text.startswith "|" (Text.strip row) = true →
  Text.contains "---" (Text.strip row) = true →
  parse_feature_table D H = parse_loop H (pre ++ post) false false [].
Proof.
  intros HD Hnoh Hpipe Hdash. unfold parse_feature_table. rewrite HD.
  apply parse_loop_remove_inert. intros ts hf fs.
  rewrite parse_loop_cons. cbv zeta. rewrite Hnoh, Hpipe, Hdash.
  rewrite (startswith_pipe_not_heading _ Hpipe). by destruct ts.
Qed.

Lemma parse_drops_rows_with_dashes_witness :
  length (row_cells (Text.strip dashed_row)) = 7%nat
  ∧ parse_feature_table dashed_doc "| Feature | SHA |"
    = parse_loop "| Feature | SHA |"
        (["| Feature | SHA |"; separator_row] ++ [row_a sha_a]) false false [].
Proof.
  split; [by vm_compute|].
  apply (parse_drops_rows_with_dashes dashed_doc "| Feature | SHA |" dashed_row
           ["| Feature | SHA |"; separator_row] [row_a sha_a]); by vm_compute.
Defined.

Lemma clean_cell_of_piece (line piece : string) :
  Text.lacks newline line = true →
  piece ∈ Text.split pipe line →
  clean_cell (Text.strip piece).
Proof.
  intros Hline Hpiece. split; [apply strip_idem|]. split.
  - eapply lacks_occurs; [apply strip_occurs|]. by eapply split_pieces_lack.
  - eapply lacks_occurs; [apply strip_occurs|].
    eapply lacks_occurs; [|exact Hline]. by eapply split_occurs.
Qed.

Lemma row_cells_clean (line c : string) :
  Text.lacks newline line = true → c ∈ row_cells line → clean_cell c.
Proof.
  intros Hline Hc. unfold row_cells in Hc.
  apply list_elem_of_In, in_map_iff in Hc as (piece & <- & Hpiece).
  apply list_elem_of_In, in_slice_1_m1 in Hpiece.
  by eapply clean_cell_of_piece.
Qed.

Lemma feature_of_cells_clean (cells : list string) :
  (7 ≤ length cells)%nat →
  (∀ c, c ∈ cells → clean_cell c) →
  clean_record (feature_of_cells cells).
Proof.
  intros Hlen Hall. unfold clean_record, feature_of_cells; cbn [name sha author branch date files_changed message].
  repeat split; apply Hall, list_elem_of_In, nth_In; lia.
Qed.

Lemma parse_loop_clean (H : string) (lines : list string) (ts hf : bool)
    (fs : list feature) :
  (∀ l, l ∈ lines → Text.lacks newline l = true) →
  Forall clean_record fs →
  Forall clean_record (parse_loop H lines ts hf fs).
Proof.
  revert ts hf fs. induction lines as [|l lines IH]; intros ts hf fs Hlines Hfs; [done|].
  assert (Hrest : ∀ l', l' ∈ lines → Text.lacks newline l' = true)
    by (intros l' Hl'; apply Hlines; by right).
  rewrite parse_loop_cons. cbv zeta.
  repeat case_match; try done; try (by apply IH).
  apply IH; [done|]. apply Forall_app. split; [done|]. apply Forall_singleton.
  apply feature_of_cells_clean; [by apply Nat.leb_le|].
  intros c Hc. eapply row_cells_clean; [|exact Hc].
  eapply lacks_occurs; [apply strip_occurs|]. apply Hlines. by left.
Qed.

(** X3: every field of every parsed record is trimmed and contains neither
    a pipe nor a newline. *)
Theorem parsed_records_are_clean (D H : string) (f : feature) :
  f ∈ parse_feature_table D H → clean_record f.
Proof.
  revert f. apply Forall_forall. unfold parse_feature_table.
  apply parse_loop_clean; [|done]. intros l Hl. by eapply split_pieces_lack.
Qed.

Lemma parsed_records_are_clean_witness : clean_record (record_a sha_a).
Proof.
  apply (parsed_records_are_clean doc_a "| Feature | SHA |" (record_a sha_a)).
  vm_compute. apply list_elem_of_singleton. reflexivity.
Defined.

Lemma parse_loop_empty_header (lines : list string) (ts hf : bool)
    (fs : list feature) :
  parse_loop "" lines ts hf fs = fs.
Proof.
  revert ts hf. induction lines as [|l lines IH]; intros ts hf; [done|].
  rewrite parse_loop_cons. cbv zeta.
  assert (Text.contains "" (Text.strip l) = true) as ->; [|apply IH].
  apply contains_spec. by exists "", (Text.strip l).
Qed.

(** X4: with the empty string as header marker every line counts as a
    header line, so no document yields a record. *)
Theorem parse_with_empty_header (D : string) : parse_feature_table D "" = [].
Proof. apply parse_loop_empty_header. Qed.

Lemma parse_loop_acc (H : string) (lines : list string) (ts hf : bool)
    (fs : list feature) :
  parse_loop H lines ts hf fs = fs ++ parse_loop H lines ts hf [].
Proof.
  revert ts hf fs. induction lines as [|l lines IH]; intros ts hf fs.
  - by rewrite app_nil_r.
  - rewrite !parse_loop_cons. cbv zeta.
    repeat case_match; try apply IH; try (by rewrite app_nil_r).
    rewrite IH, (IH _ _ ([] ++ _)). by rewrite <- app_assoc.
Qed.

Lemma parse_loop_app_prefix (H : string) (l1 l2 : list string) (ts hf : bool)
    (fs : list feature) :
  parse_loop H l1 ts hf fs `prefix_of` parse_loop H (l1 ++ l2) ts hf fs.
Proof.
  revert ts hf fs. induction l1 as [|l l1 IH]; intros ts hf fs.
  - simpl. rewrite (parse_loop_acc H l2). by eexists.
  - rewrite <- app_comm_cons, !parse_loop_cons. cbv zeta.
    repeat case_match; try done; apply IH.
Qed.

(** X5: text appended to a document after a newline can add records but
    cannot change or remove the records parsed from the document. *)
Theorem parse_appending_keeps_records (D E H : string) :
  parse_feature_table D H
    `prefix_of` parse_feature_table (D +:+ String newline E) H.
Proof.
  unfold parse_feature_table. rewrite split_app. apply parse_loop_app_prefix.
Qed.

(** X6: whatever follows the last pipe of a row is dropped: a row whose
    closing pipe is missing loses its last cell. *)
Theorem row_cells_ignore_text_after_last_pipe (row_body last : string) :
  Text.lacks pipe last = true →
  row_cells (row_body +:+ String pipe last)
  = map Text.strip (tail (Text.split pipe row_body)).
Proof.
  intros Hlast. unfold row_cells. rewrite split_app, (split_lacks pipe last Hlast).
  destruct (Text.split pipe row_body) as [|h tl] eqn:Hs.
  - by destruct (split_nonempty pipe row_body).
  - simpl app. by rewrite slice_1_m1_snoc.
Qed.

Lemma row_cells_ignore_text_after_last_pipe_witness :
  row_cells ("| a | b | c | d | e | f" +:+ String pipe " g")
  = map Text.strip (tail (Text.split pipe "| a | b | c | d | e | f")).
Proof.
  apply (row_cells_ignore_text_after_last_pipe "| a | b | c | d | e | f" " g").
  by vm_compute.
Defined.

(** What the sha pattern consumes: forty digits, and then nothing or one
    newline. *)
Lemma sha_re_match_inv (s : string) :
  Text.sha_re_match s = true →
  hex40 s = true ∨ ∃ h, hex40 h = true ∧ s = h +:+ String newline "".
Proof.
  unfold Text.sha_re_match, hex40.
  destruct (Text.repeat_class Text.is_lower_hex 40 s) as [rest|] eqn:Hrc; [|done].
  apply repeat_class_spec in Hrc as (h & -> & Hlen & Hhex).
  intros [->| ->]%at_dollar_spec.
  - left. rewrite str_app_nil_r, Hlen, Hhex. done.
  - right. exists h. by rewrite Hlen, Hhex.
Qed.

Lemma hex40_sha_re_match (s : string) : hex40 s = true → Text.sha_re_match s = true.
Proof.
  unfold Text.sha_re_match, hex40.
  intros [Hlen Hhex]%andb_true_iff. apply Nat.eqb_eq in Hlen.
  assert (Hrc : Text.repeat_class Text.is_lower_hex 40 s = Some "").
  { apply repeat_class_spec. exists s. by rewrite str_app_nil_r. }
  by rewrite Hrc.
Qed.

(** On a string without newline the pattern accepts forty digits and
    nothing else. *)
Lemma sha_re_match_one_line (s : string) :
  Text.lacks newline s = true → Text.sha_re_match s = hex40 s.
Proof.
  intros Hnl. destruct (hex40 s) eqn:Hhex; [by apply hex40_sha_re_match|].
  apply not_true_is_false. intros [Hs | (h & _ & Hs)]%sha_re_match_inv.
  - congruence.
  - rewrite Hs, lacks_final_newline in Hnl. done.
Qed.

Lemma parsed_sha_one_line (D H : string) (f : feature) :
  f ∈ parse_feature_table D H → Text.lacks newline (sha f) = true.
Proof.
  intros Hf.
  assert (Hclean : Forall clean_record (parse_feature_table D H)).
  { apply parse_loop_clean; [|done]. intros l Hl. by eapply split_pieces_lack. }
  rewrite Forall_forall in Hclean. by destruct (Hclean f Hf) as (_ & (_ & _ & Hnl) & _).
Qed.

(** X7: the sha pattern of [verify_commit] and of step 6a accepts exactly
    forty lowercase hexadecimal digits, optionally followed by one
    newline. *)
Theorem sha_re_match_spec (s : string) :
  Text.sha_re_match s = true
  ↔ hex40 s = true ∨ ∃ h, hex40 h = true ∧ s = h +:+ String newline "".
Proof.
  split; [apply sha_re_match_inv|].
  intros [Hs | (h & Hh & ->)]; [by apply hex40_sha_re_match|].
  unfold Text.sha_re_match, hex40 in *.
  apply andb_true_iff in Hh as [Hlen Hhex]. apply Nat.eqb_eq in Hlen.
  assert (Hrc : Text.repeat_class Text.is_lower_hex 40 (h +:+ String newline "")
                = Some (String newline "")).
  { apply repeat_class_spec. by exists h. }
  by rewrite Hrc.
Qed.

(** X8: on the sha of a parsed record the format check of step 6a passes
    exactly when the sha is forty lowercase hexadecimal digits. *)
Theorem parsed_sha_format (D H : string) (f : feature) :
  f ∈ parse_feature_table D H →
  Text.sha_re_match (sha f) = hex40 (sha f).
Proof.
  intros Hf. apply sha_re_match_one_line. by eapply parsed_sha_one_line.
Qed.

Lemma parsed_sha_format_witness :
  Text.sha_re_match (sha (record_a "XYZ")) = hex40 (sha (record_a "XYZ")).
Proof.
  apply (parsed_sha_format doc_bad_sha "| Feature | SHA |" (record_a "XYZ")).
  vm_compute. apply list_elem_of_singleton. reflexivity.
Defined.

(** ** Further properties of the two requests *)

Section RequestProperties.

Variable contents_api : trace → http_result contents_json.
Variable commits_api : trace → http_result commit_json.
Variable b64decode_utf8 : string → option string.

(** X9: when [fetch_github_file] returns a content, it has made the one
    request and printed nothing, the answer had status 200 and a JSON
    object as body, and the content is the decoded [content] field when the
    body says [base64], and else the [content] field as it is (the empty
    string when the field is absent). *)
Theorem fetch_success_shape file_path headers org repo branch (t t' : trace)
    (c : string) :
  fetch_github_file contents_api b64decode_utf8 file_path headers org repo branch t
    = (Some c, t') →
  t' = t ++ [HttpGet ContentsEndpoint (contents_url org repo file_path branch) headers]
  ∧ ∃ r data,
      contents_api t' = Responds r
      ∧ status_code r = 200
      ∧ json r = Some (ContentsFile data)
      ∧ ((encoding data = Some "base64"
          ∧ ∃ raw, content data = Holds raw ∧ b64decode_utf8 raw = Some c)
         ∨ (encoding data ≠ Some "base64"
            ∧ (content data = Holds c ∨ (content data = Absent ∧ c = "")))).
Proof.
  unfold fetch_github_file. run_monad.
  destruct (contents_api _) as [| descr | r] eqn:Hapi; cbv beta iota; [no_result | no_result |].
  destruct (status_code r =? 200) eqn:Hstatus.
  2:{ all_branches; no_result. }
  apply Z.eqb_eq in Hstatus.
  destruct (json r) as [[|data]|] eqn:Hjson; cbv beta iota; [no_result | | no_result].
  destruct (bool_decide (encoding data = Some "base64")) eqn:Henc.
  - apply bool_decide_eq_true in Henc.
    destruct (content data) as [| |raw] eqn:Hraw; [no_result | no_result |].
    destruct (b64decode_utf8 raw) as [decoded|] eqn:Hdec; [|no_result].
    intros [= <- <-]. split; [done|]. exists r, data. rewrite Hapi.
    repeat split; try done. left. split; [done|]. by exists raw.
  - apply bool_decide_eq_false in Henc.
    destruct (content data) as [| |raw] eqn:Hraw; cbn [get_with_default];
      intros [= <- <-]; (split; [done|]); exists r, data; rewrite Hapi;
      (split_and!; try done); right; (split; [done|]); auto.
Qed.

(** X10: when [fetch_github_file] returns [None] it has made the one
    request and then either printed at least one line on the error stream,
    or printed nothing at all; the latter takes an answer with status 200
    and an object that is not marked [base64] and holds [null] as its
    [content]. *)
Theorem fetch_failure_shape file_path headers org repo branch (t t' : trace) :
  fetch_github_file contents_api b64decode_utf8 file_path headers org repo branch t
    = (None, t') →
  (∃ m rest,
     t' = t ++ [HttpGet ContentsEndpoint (contents_url org repo file_path branch) headers;
                PrintErr m] ++ rest)
  ∨ (t' = t ++ [HttpGet ContentsEndpoint (contents_url org repo file_path branch)
                  headers]
     ∧ ∃ r data,
         contents_api t' = Responds r
         ∧ status_code r = 200
         ∧ json r = Some (ContentsFile data)
         ∧ encoding data ≠ Some "base64"
         ∧ content data = Null).
Proof.
  unfold fetch_github_file. run_monad.
  destruct (contents_api _) as [| descr | r] eqn:Hapi; cbv beta iota.
  1,2: intros ?; simplify_eq; left; rewrite <- app_assoc; by eexists _, [].
  destruct (status_code r =? 200) eqn:Hstatus.
  2:{ all_branches; intros ?; simplify_eq; left; rewrite <- ?app_assoc; cbn [app];
        by eexists _, _. }
  apply Z.eqb_eq in Hstatus.
  destruct (json r) as [[|data]|] eqn:Hjson; cbv beta iota.
  1,3: intros ?; simplify_eq; left; rewrite <- app_assoc; by eexists _, [].
  destruct (bool_decide (encoding data = Some "base64")) eqn:Henc.
  - all_branches; intros ?; simplify_eq; left; rewrite <- app_assoc; by eexists _, [].
  - apply bool_decide_eq_false in Henc.
    destruct (content data) as [| |raw] eqn:Hraw; cbn [get_with_default];
      intros ?; simplify_eq.
    right. split; [done|]. exists r, data. by rewrite Hapi.
Qed.

(** X11: when [verify_commit] returns a commit, the sha has the required
    shape, the function has made exactly one request, for that sha, and
    printed nothing, the answer had status 200 and the commit as its body,
    and the commit has the keys [sha] and [commit], which may hold [null],
    and an author that is absent, null or an object. *)
Theorem verify_commit_success_shape commit_sha headers org repo (t t' : trace)
    (d : commit_json) :
  verify_commit commits_api commit_sha headers org repo t = (Some d, t') →
  Text.sha_re_match commit_sha = true
  ∧ t' = t ++ [HttpGet CommitsEndpoint (commit_url org repo commit_sha) headers]
  ∧ (∃ r, commits_api t' = Responds r ∧ status_code r = 200 ∧ json r = Some d)
  ∧ has_key (detail_sha d) = true
  ∧ has_key (detail_commit d) = true
  ∧ detail_author d ≠ AuthorNotObject.
Proof.
  unfold verify_commit. run_monad.
  destruct (Text.sha_re_match commit_sha) eqn:Hsha; [|no_result]. cbn [negb].
  destruct (commits_api _) as [| descr | r] eqn:Hapi; cbv beta iota; [no_result | no_result |].
  destruct (status_code r =? 200) eqn:Hstatus; [|no_result]. cbn [negb].
  apply Z.eqb_eq in Hstatus.
  destruct (json r) as [d'|] eqn:Hjson; [|no_result].
  destruct (has_key (detail_sha d')) eqn:Hs; [|no_result].
  destruct (has_key (detail_commit d')) eqn:Hc; [|no_result]. cbn [negb].
  destruct (detail_author d') eqn:Hauthor; cbv beta iota; intros ?; simplify_eq;
    (split_and!; try done; try congruence; by exists r).
Qed.

(** X12: [verify_commit] never fails silently and never asks twice: when it
    returns [None] it has printed exactly one line on the error stream,
    either at once (the sha is malformed) or after its one request. *)
Theorem verify_commit_failure_is_reported commit_sha headers org repo (t t' : trace) :
  verify_commit commits_api commit_sha headers org repo t = (None, t') →
  (Text.sha_re_match commit_sha = false
   ∧ t' = t ++ [PrintErr (InvalidShaFormat commit_sha)])
  ∨ (Text.sha_re_match commit_sha = true
     ∧ ∃ m, t' = t ++ [HttpGet CommitsEndpoint (commit_url org repo commit_sha) headers;
                       PrintErr m]).
Proof.
  unfold verify_commit. run_monad.
  destruct (Text.sha_re_match commit_sha) eqn:Hsha; cbn [negb].
  2:{ intros [= <-]. by left. }
  intros Hres. right. split; [done|]. revert Hres.
  all_branches; intros ?; simplify_eq;
    rewrite <- ?app_assoc; cbn [app]; by eexists.
Qed.

End RequestProperties.

Lemma fetch_success_shape_witness :
  [] ++ [HttpGet ContentsEndpoint (contents_url "org" "repo" "FEATURES.md" "main") []]
  = [] ++ [HttpGet ContentsEndpoint (contents_url "org" "repo" "FEATURES.md" "main") []]
  ∧ ∃ r data,
      serve_base64 "IyBMb2c="
        ([] ++ [HttpGet ContentsEndpoint
                  (contents_url "org" "repo" "FEATURES.md" "main") []]) = Responds r
      ∧ status_code r = 200
      ∧ json r = Some (ContentsFile data)
      ∧ ((encoding data = Some "base64"
          ∧ ∃ raw, content data = Holds raw ∧ sample_decoder raw = Some "# Log")
         ∨ (encoding data ≠ Some "base64"
            ∧ (content data = Holds "# Log" ∨ (content data = Absent ∧ "# Log" = "")))).
Proof.
  apply (fetch_success_shape (serve_base64 "IyBMb2c=") sample_decoder
           "FEATURES.md" [] "org" "repo" "main" []
           ([] ++ [HttpGet ContentsEndpoint
                     (contents_url "org" "repo" "FEATURES.md" "main") []])
           "# Log").
  reflexivity.
Defined.

(** Two fetches that return [None]: of a file that does not exist, and of
    a file whose content is [null]. *)
Lemma fetch_failure_shape_witness :
  ((∃ m rest,
      [HttpGet ContentsEndpoint (contents_url "org" "repo" "FEATURES.md" "main") [];
       PrintErr (FileNotFound "FEATURES.md" "main")]
      = [] ++ [HttpGet ContentsEndpoint
                 (contents_url "org" "repo" "FEATURES.md" "main") [];
               PrintErr m] ++ rest)
   ∨ ([HttpGet ContentsEndpoint (contents_url "org" "repo" "FEATURES.md" "main") [];
       PrintErr (FileNotFound "FEATURES.md" "main")]
      = [] ++ [HttpGet ContentsEndpoint
                 (contents_url "org" "repo" "FEATURES.md" "main") []]
      ∧ ∃ r data,
          refuse_with 404
            [HttpGet ContentsEndpoint (contents_url "org" "repo" "FEATURES.md" "main") [];
             PrintErr (FileNotFound "FEATURES.md" "main")] = Responds r
          ∧ status_code r = 200
          ∧ json r = Some (ContentsFile data)
          ∧ encoding data ≠ Some "base64"
          ∧ content data = Null))
  ∧ ((∃ m rest,
        [HttpGet ContentsEndpoint (contents_url "org" "repo" "FEATURES.md" "main") []]
        = [] ++ [HttpGet ContentsEndpoint
                   (contents_url "org" "repo" "FEATURES.md" "main") [];
                 PrintErr m] ++ rest)
     ∨ ([HttpGet ContentsEndpoint (contents_url "org" "repo" "FEATURES.md" "main") []]
        = [] ++ [HttpGet ContentsEndpoint
                   (contents_url "org" "repo" "FEATURES.md" "main") []]
        ∧ ∃ r data,
            serve_null_content
              [HttpGet ContentsEndpoint
                 (contents_url "org" "repo" "FEATURES.md" "main") []] = Responds r
            ∧ status_code r = 200
            ∧ json r = Some (ContentsFile data)
            ∧ encoding data ≠ Some "base64"
            ∧ content data = Null)).
Proof.
  split.
  - apply (fetch_failure_shape (refuse_with 404) no_decoder
             "FEATURES.md" [] "org" "repo" "main" []).
    reflexivity.
  - apply (fetch_failure_shape serve_null_content no_decoder
             "FEATURES.md" [] "org" "repo" "main" []).
    reflexivity.
Defined.

Lemma verify_commit_success_shape_witness :
  Text.sha_re_match sha_a = true
  ∧ [HttpGet CommitsEndpoint (commit_url "org" "repo" sha_a) []]
    = [] ++ [HttpGet CommitsEndpoint (commit_url "org" "repo" sha_a) []]
  ∧ (∃ r, serve_commit commit_null_message
            [HttpGet CommitsEndpoint (commit_url "org" "repo" sha_a) []] = Responds r
          ∧ status_code r = 200 ∧ json r = Some commit_null_message)
  ∧ has_key (detail_sha commit_null_message) = true
  ∧ has_key (detail_commit commit_null_message) = true
  ∧ detail_author commit_null_message ≠ AuthorNotObject.
Proof.
  apply (verify_commit_success_shape (serve_commit commit_null_message) sha_a []
           "org" "repo" []).
  reflexivity.
Defined.

Lemma verify_commit_failure_is_reported_witness :
  (Text.sha_re_match sha_a = false
   ∧ [HttpGet CommitsEndpoint (commit_url "org" "repo" sha_a) []; PrintErr CommitTimeout]
     = [] ++ [PrintErr (InvalidShaFormat sha_a)])
  ∨ (Text.sha_re_match sha_a = true
     ∧ ∃ m, [HttpGet CommitsEndpoint (commit_url "org" "repo" sha_a) [];
             PrintErr CommitTimeout]
            = [] ++ [HttpGet CommitsEndpoint (commit_url "org" "repo" sha_a) [];
                     PrintErr m]).
Proof.
  apply (verify_commit_failure_is_reported commits_down sha_a [] "org" "repo" []).
  reflexivity.
Defined.

(** ** Further facts about the control flow *)

Lemma bind_next_inv {R A B} (m : M R A) (k : A → M R B) (t t' : trace) (b : B) :
  (m ≫= k) t = (Next b, t') →
  ∃ a t1, m t = (Next a, t1) ∧ k a t1 = (Next b, t').
Proof.
  unfold mbind, M_bind. destruct (m t) as [[a|r] t1]; [by exists a, t1 | done].
Qed.

(** A block that cannot make the run pass has fallen through when the
    function returns [True]. *)
Lemma bind_true_inv {A} (m : M (outcome bool) A)
    (k : A → M (outcome bool) (outcome bool)) (t : trace) :
  never_passes m →
  fst (body (m ≫= k) t) = Returned true →
  ∃ a t1, m t = (Next a, t1) ∧ fst (body (k a) t1) = Returned true.
Proof.
  intros Hm. unfold body, mbind, M_bind.
  destruct (m t) as [[a|r] t1] eqn:Hmt; [by exists a, t1|].
  simpl. intros ->. by destruct (Hm _ _ _ Hmt).
Qed.

Lemma appends_bind {R A B} (P : event → Prop) (m : M R A) (k : A → M R B) :
  appends P m → (∀ a, appends P (k a)) → appends P (m ≫= k).
Proof.
  intros Hm Hk t. unfold mbind, M_bind.
  destruct (Hm t) as (es & Hes & HP).
  destruct (m t) as [[a|r] t1]; simpl in Hes; subst t1.
  - destruct (Hk a (t ++ es)) as (es' & Hes' & HP').
    exists (es ++ es'). rewrite Hes', app_assoc. split; [done|].
    by apply Forall_app.
  - by exists es.
Qed.

Lemma appends_ret {R A} (P : event → Prop) (a : A) : appends P (mret (M:=M R) a).
Proof. intros t. exists []. by rewrite app_nil_r. Qed.

Lemma appends_return {R A} (P : event → Prop) (r : R) : appends P (return_ (A:=A) r).
Proof. intros t. exists []. by rewrite app_nil_r. Qed.

Lemma appends_eval {R A} (P : event → Prop) (o : outcome A) :
  appends P (eval (R:=R) o).
Proof. destruct o; [apply appends_ret | apply appends_return]. Qed.

Lemma appends_print {R} (P : event → Prop) (m : msg) :
  P (Print m) → appends P (print (R:=R) m).
Proof. intros HP t. exists [Print m]. split; [done|]. by apply Forall_singleton. Qed.

Lemma appends_eprint {R} (P : event → Prop) (m : msg) :
  P (PrintErr m) → appends P (eprint (R:=R) m).
Proof. intros HP t. exists [PrintErr m]. split; [done|]. by apply Forall_singleton. Qed.

Lemma appends_call {R A} (P : event → Prop) (f : fn A) :
  (∀ t, ∃ es, snd (f t) = t ++ es ∧ Forall P es) → appends P (call (R:=R) f).
Proof.
  intros Hf t. destruct (Hf t) as (es & Hes & HP). exists es.
  unfold call. by destruct (f t).
Qed.

Lemma appends_body {R} (P : event → Prop) (m : M R R) (t : trace) :
  appends P m → ∃ es, snd (body m t) = t ++ es ∧ Forall P es.
Proof.
  intros Hm. destruct (Hm t) as (es & Hes & HP). exists es.
  unfold body. by destruct (m t) as [[r|r] t1].
Qed.

Ltac run_monad_in H :=
  cbv beta iota zeta delta
    [body mbind M_bind mret M_ret http_get eprint print return_ raise_ call fst]
    in H.

(** ** Further properties of the pipeline *)

Section PipelineProperties.

Variable contents_api : trace → http_result contents_json.
Variable commits_api : trace → http_result commit_json.
Variable b64decode_utf8 : string → option string.

(** *** What a passing run has established *)

Lemma check_sections_next doc sections (t t' : trace) u :
  check_sections doc sections t = (Next u, t') →
  Forall (λ s, Text.contains s doc = true) sections.
Proof.
  revert t. induction sections as [|s sections IH]; intros t Hrun; [done|].
  cbn [check_sections] in Hrun.
  destruct (Text.contains s doc) eqn:Hs; cbn [negb] in Hrun; [|done].
  apply bind_next_inv in Hrun as (? & t1 & _ & Hrun).
  constructor; [done | by eapply IH].
Qed.

Lemma check_expected_features_next (m : gmap string string) items (t t' : trace) u :
  check_expected_features m items t = (Next u, t') →
  ∀ n s, (n, s) ∈ items → m !! n = Some s.
Proof.
  revert t. induction items as [|[n0 s0] items IH]; intros t Hrun n s Hin;
    [by apply elem_of_nil in Hin|].
  cbn [check_expected_features] in Hrun.
  destruct (m !! n0) as [actual|] eqn:Hn0; [|done].
  destruct (bool_decide (actual = s0)) eqn:Hs0; cbn [negb] in Hrun; [|done].
  apply bool_decide_eq_true in Hs0 as ->.
  apply bind_next_inv in Hrun as (? & t1 & _ & Hrun).
  apply elem_of_cons in Hin as [[= -> ->]|Hin]; [done | by eapply IH].
Qed.

Lemma check_author_next feat_sha d authors (t t' : trace) u :
  check_author feat_sha d authors t = (Next u, t') →
  author_accepted authors feat_sha d.
Proof.
  unfold check_author, author_accepted.
  destruct (detail_author d) as [| | |login]; try done.
  - by destruct (get_or_none authors feat_sha).
  - by destruct (get_or_none authors feat_sha).
  - destruct (truthy login); cbn [negb orb]; [|done].
    destruct (bool_decide (login = get_or_none authors feat_sha)) eqn:Heq; [|done].
    by apply bool_decide_eq_true in Heq.
Qed.

Lemma check_message_next feat_sha d msgs (t t' : trace) u :
  check_message feat_sha d msgs t = (Next u, t') →
  first_message_line d = Returned (default "" (msgs !! feat_sha)).
Proof.
  unfold check_message. destruct (first_message_line d) as [l|e]; [|done].
  cbn [eval]. intros (l' & t1 & [= <- <-] & Hrun)%bind_next_inv.
  destruct (bool_decide (l = default "" (msgs !! feat_sha))) eqn:Heq; [|done].
  by apply bool_decide_eq_true in Heq as ->.
Qed.

Lemma check_date_next feat dates (t t' : trace) u :
  check_date feat dates t = (Next u, t') →
  Text.date_re_match (date feat) = true ∧ dates !! sha feat = Some (date feat).
Proof.
  unfold check_date.
  destruct (Text.date_re_match (date feat)); cbn [negb]; [|done].
  destruct (bool_decide (Some (date feat) = dates !! sha feat)) eqn:Heq; [|done].
  by apply bool_decide_eq_true in Heq.
Qed.

Lemma verify_feature_commit_next cfg headers org feat (t t' : trace) u :
  verify_feature_commit commits_api cfg headers org feat t = (Next u, t') →
  record_verified commits_api cfg headers org feat.
Proof.
  unfold verify_feature_commit. intros Hrun.
  apply bind_next_inv in Hrun as (? & t1 & _ & Hrun).
  destruct (Text.sha_re_match (sha feat)) eqn:Hsha; cbn [negb] in Hrun; [|done].
  apply bind_next_inv in Hrun as (found & t2 & Hcall & Hrun).
  unfold call in Hcall.
  destruct (verify_commit _ _ _ _ _ _) as [found' t2'] eqn:Hlookup.
  injection Hcall as -> ->.
  destruct found as [d|]; [|done].
  apply bind_next_inv in Hrun as (? & t3 & Hauthor & Hrun).
  apply bind_next_inv in Hrun as (? & t4 & Hmsg & Hrun).
  apply bind_next_inv in Hrun as (? & t5 & Hdate & _).
  apply check_author_next in Hauthor. apply check_message_next in Hmsg.
  apply check_date_next in Hdate as [Hshape Hdate].
  split; [done|]. split; [by exists t1, t2, d|]. done.
Qed.

Lemma verify_commits_next cfg headers org features n (t t' : trace) n' :
  verify_commits commits_api cfg headers org features n t = (Next n', t') →
  ∀ f, f ∈ features → is_Some (expected_authors cfg !! sha f) →
       record_verified commits_api cfg headers org f.
Proof.
  revert n t. induction features as [|f0 features IH]; intros n t Hrun f Hin Hkey;
    [by apply elem_of_nil in Hin|].
  cbn [verify_commits] in Hrun.
  destruct (expected_authors cfg !! sha f0) as [e|] eqn:Hf0.
  - apply bind_next_inv in Hrun as (u & t1 & Hbody & Hrun).
    apply elem_of_cons in Hin as [->|Hin].
    + by eapply verify_feature_commit_next.
    + by eapply IH.
  - apply elem_of_cons in Hin as [->|Hin].
    + rewrite Hf0 in Hkey. by destruct Hkey.
    + by eapply IH.
Qed.

(** X13: a run that returns [True] has fetched a non-empty document that
    contains every required section, has parsed from it at least one record
    and at least [min_feature_count] records, has found every expected
    feature in the name-to-sha map with the expected sha, and has verified
    every record whose sha is a key of [expected_authors]. *)
Theorem run_verification_true_is_sound cfg token org (t : trace) :
  fst (run_verification contents_api commits_api b64decode_utf8 cfg token org t)
  = Returned true →
  ∃ doc,
    fetched_document contents_api b64decode_utf8 cfg token org t = Some doc
    ∧ doc ≠ ""
    ∧ Forall (λ s, Text.contains s doc = true) (required_sections cfg)
    ∧ parse_feature_table doc (table_header cfg) ≠ []
    ∧ min_feature_count cfg
      ≤ Z.of_nat (length (parse_feature_table doc (table_header cfg)))
    ∧ (∀ n s, (n, s) ∈ expected_features cfg →
              name_to_sha (parse_feature_table doc (table_header cfg)) !! n = Some s)
    ∧ (∀ f, f ∈ parse_feature_table doc (table_header cfg) →
            is_Some (expected_authors cfg !! sha f) →
            record_verified commits_api cfg (get_github_headers token) org f).
Proof.
  rewrite run_verification_unfold. unfold fetched_document.
  destruct (fetch_github_file _ _ _ _ _ _ _ _) as [fetched t1].
  destruct fetched as [doc|]; [|done].
  destruct doc as [|c0 doc0]; [done|]. cbn [truthy negb default from_option id fst].
  set (doc := String c0 doc0). intros Hrun. exists doc.
  split; [done|]. split; [done|].
  unfold verify_document in Hrun.
  apply bind_true_inv in Hrun as (? & t2 & _ & Hrun); [|solve [flow]].
  apply bind_true_inv in Hrun as (? & t3 & _ & Hrun); [|solve [flow]].
  apply bind_true_inv in Hrun as (? & t4 & Hsections & Hrun);
    [|apply fails_only_never_passes, check_sections_fails_only].
  apply check_sections_next in Hsections.
  apply bind_true_inv in Hrun as (? & t5 & _ & Hrun); [|solve [flow]].
  apply bind_true_inv in Hrun as (? & t6 & _ & Hrun); [|solve [flow]].
  destruct (length (parse_feature_table doc (table_header cfg)) =? 0)%nat eqn:Hlen;
    [by run_monad_in Hrun|].
  apply bind_true_inv in Hrun as (? & t7 & _ & Hrun); [|solve [flow]].
  apply bind_true_inv in Hrun as (? & t8 & _ & Hrun); [|solve [flow]].
  destruct (Z.of_nat (length (parse_feature_table doc (table_header cfg)))
            <? min_feature_count cfg) eqn:Hmin; [by run_monad_in Hrun|].
  apply bind_true_inv in Hrun as (? & t9 & _ & Hrun); [|solve [flow]].
  apply bind_true_inv in Hrun as (? & t10 & _ & Hrun); [|solve [flow]].
  apply bind_true_inv in Hrun as (? & t11 & Hexpected & Hrun);
    [|apply fails_only_never_passes, check_expected_features_fails_only].
  apply bind_true_inv in Hrun as (? & t12 & _ & Hrun); [|solve [flow]].
  apply bind_true_inv in Hrun as (? & t13 & _ & Hrun); [|solve [flow]].
  apply bind_true_inv in Hrun as (count & t14 & Hcommits & _);
    [|apply verify_commits_never_passes].
  split; [done|]. split.
  { intros Hnil. rewrite Hnil in Hlen. done. }
  split; [by apply Z.ltb_ge in Hmin|]. split.
  - by eapply check_expected_features_next.
  - by eapply verify_commits_next.
Qed.

End PipelineProperties.

Lemma run_verification_true_is_sound_witness :
  ∃ doc,
    fetched_document (serve_doc doc_a) no_decoder cfg_a "tok" "org" [] = Some doc
    ∧ doc ≠ ""
    ∧ Forall (λ s, Text.contains s doc = true) (required_sections cfg_a)
    ∧ parse_feature_table doc (table_header cfg_a) ≠ []
    ∧ min_feature_count cfg_a
      ≤ Z.of_nat (length (parse_feature_table doc (table_header cfg_a)))
    ∧ (∀ n s, (n, s) ∈ expected_features cfg_a →
              name_to_sha (parse_feature_table doc (table_header cfg_a)) !! n = Some s)
    ∧ (∀ f, f ∈ parse_feature_table doc (table_header cfg_a) →
            is_Some (expected_authors cfg_a !! sha f) →
            record_verified (serve_commit commit_a) cfg_a (get_github_headers "tok")
              "org" f).
Proof.
  apply (run_verification_true_is_sound (serve_doc doc_a) (serve_commit commit_a)
           no_decoder cfg_a "tok" "org" []).
  by vm_compute.
Defined.

(** ** Edge behaviour of the pipeline *)

Section PipelineEdges.

Variable contents_api : trace → http_result contents_json.
Variable commits_api : trace → http_result commit_json.
Variable b64decode_utf8 : string → option string.

(** X14: when the fetched document is the empty string the run returns
    [False] right after the request, without a line on the error stream. *)
Theorem empty_document_fails_silently cfg token org (t : trace) :
  fetched_document contents_api b64decode_utf8 cfg token org t = Some "" →
  run_verification contents_api commits_api b64decode_utf8 cfg token org t
  = (Returned false,
     t ++ run_banner cfg org
       ++ [HttpGet ContentsEndpoint
             (contents_url org (target_repo cfg) (feature_doc_path cfg)
                (target_branch cfg))
             (get_github_headers token)]).
Proof.
  unfold fetched_document. intros Hdoc. rewrite run_verification_unfold.
  destruct (fetch_github_file _ _ _ _ _ _ _ _) as [fetched t1] eqn:Hfetch.
  simpl in Hdoc. subst fetched.
  apply fetch_github_file_some_trace in Hfetch as ->.
  cbn [truthy negb]. by rewrite <- app_assoc.
Qed.

Lemma verify_document_no_features cfg headers org doc :
  parse_feature_table doc (table_header cfg) = [] →
  stops (verify_document commits_api cfg headers org doc).
Proof.
  intros Hnone. unfold verify_document. rewrite Hnone.
  pose proof check_sections_fails_only.
  repeat (apply stops_bind_r; [solve [flow] | intros _]).
  cbn [length Nat.eqb].
  repeat (apply stops_bind_r; [solve [flow] | intros _]). flow.
Qed.

(** X15: with the empty string as [table_header] the run returns
    [False], whatever the document. *)
Theorem empty_table_header_fails cfg token org (t : trace) :
  table_header cfg = "" →
  fst (run_verification contents_api commits_api b64decode_utf8 cfg token org t)
  = Returned false.
Proof.
  intros Hheader. apply run_verification_stops. intros doc _.
  apply verify_document_no_features. rewrite Hheader. apply parse_loop_empty_header.
Qed.

Lemma verify_commits_skip cfg headers org features n (t : trace) :
  (∀ f, f ∈ features → expected_authors cfg !! sha f = None) →
  verify_commits commits_api cfg headers org features n t = (Next n, t).
Proof.
  induction features as [|f features IH]; intros Hnone; [done|].
  cbn [verify_commits]. rewrite (Hnone f) by left.
  apply IH. intros f' Hf'. apply Hnone. by right.
Qed.

(** X16: when no parsed record carries a sha that is a key of
    [expected_authors] (for one, when the map is empty), step 6 does
    nothing: it looks up no commit, prints nothing and leaves the counter
    where it was, so the run makes no request to the commits endpoint. *)
Theorem no_expected_author_no_lookup cfg token org (t : trace) :
  (∀ f, f ∈ parsed_features contents_api b64decode_utf8 cfg token org t →
        expected_authors cfg !! sha f = None) →
  (∀ headers n (t' : trace),
     verify_commits commits_api cfg headers org
       (parsed_features contents_api b64decode_utf8 cfg token org t) n t'
     = (Next n, t'))
  ∧ ∃ es,
      snd (run_verification contents_api commits_api b64decode_utf8 cfg token org t)
        = t ++ es
      ∧ no_commit_lookup es = true.
Proof.
  intros Hnone. split; [intros; by apply verify_commits_skip|].
  rewrite run_verification_unfold. unfold parsed_features, fetched_document in Hnone.
  destruct (fetch_github_file_quiet contents_api b64decode_utf8 (feature_doc_path cfg)
              (get_github_headers token) org (target_repo cfg) (target_branch cfg)
              (t ++ run_banner cfg org)) as (es1 & Hes1 & Hq1).
  destruct (fetch_github_file _ _ _ _ _ _ _ _) as [fetched t1].
  simpl in Hes1, Hnone. subst t1.
  destruct (negb (truthy fetched)) eqn:Htruthy.
  - exists (run_banner cfg org ++ es1).
    by rewrite app_assoc, no_commit_lookup_app, Hq1.
  - destruct fetched as [doc|]; [|done]. cbn [default from_option id].
    assert (Hquiet : quiet (verify_document commits_api cfg (get_github_headers token)
                              org doc)).
    { unfold verify_document.
      pose proof check_sections_quiet. pose proof check_expected_features_quiet.
      assert (∀ n, quiet (verify_commits commits_api cfg (get_github_headers token) org
                            (parse_feature_table doc (table_header cfg)) n)).
      { intros n t'. exists []. by rewrite verify_commits_skip, app_nil_r. }
      flow. }
    destruct (Hquiet ((t ++ run_banner cfg org) ++ es1)) as (es2 & Hes2 & Hq2).
    exists (run_banner cfg org ++ es1 ++ es2). unfold body.
    destruct (verify_document _ _ _ _ _ _) as [[b|b] t2]; simpl in Hes2; subst t2;
      cbn [snd]; (split; [by rewrite !app_assoc
                         | by rewrite !no_commit_lookup_app, Hq1, Hq2]).
Qed.

(** *** The requests of a run *)

Lemma fetch_github_file_appends P file_path headers org repo branch (t : trace) :
  P (HttpGet ContentsEndpoint (contents_url org repo file_path branch) headers) →
  (∀ m, P (PrintErr m)) →
  ∃ es,
    snd (fetch_github_file contents_api b64decode_utf8 file_path headers org repo branch t)
      = t ++ es
    ∧ Forall P es.
Proof.
  intros Hget Herr.
  destruct (fetch_github_file _ _ _ _ _ _ _ _) as [[c|] t'] eqn:Hfetch.
  - apply fetch_github_file_some_trace in Hfetch as ->. eexists. split; [done|].
    by apply Forall_singleton.
  - unfold fetch_github_file in Hfetch. revert Hfetch. run_monad.
    all_branches; intros ?; simplify_eq; cbn [snd]; rewrite <- ?app_assoc; cbn [app];
      (eexists; split; [reflexivity|]); repeat constructor; auto.
Qed.

Lemma verify_commit_appends P commit_sha headers org repo (t : trace) :
  (Text.sha_re_match commit_sha = true →
   P (HttpGet CommitsEndpoint (commit_url org repo commit_sha) headers)) →
  (∀ m, P (PrintErr m)) →
  ∃ es,
    snd (verify_commit commits_api commit_sha headers org repo t) = t ++ es
    ∧ Forall P es.
Proof.
  intros Hget Herr.
  destruct (verify_commit _ _ _ _ _ _) as [[d|] t'] eqn:Hlookup.
  - apply verify_commit_some_trace in Hlookup as (Hsha & ->).
    eexists. split; [done|]. apply Forall_singleton. auto.
  - apply verify_commit_none_trace in Hlookup as (m & ->).
    eexists. split; [done|].
    destruct (Text.sha_re_match commit_sha); repeat constructor; auto.
Qed.

Section Requests.

Variable cfg : config.
Variable token org : string.
Variable features : list feature.

Hypothesis features_sha_format :
  ∀ f, f ∈ features → Text.sha_re_match (sha f) = hex40 (sha f).

Let P : event → Prop := request_ok cfg token org features.

Lemma verify_feature_commit_appends feat :
  feat ∈ features →
  is_Some (expected_authors cfg !! sha feat) →
  appends P (verify_feature_commit commits_api cfg (get_github_headers token) org feat).
Proof.
  intros Hin Hkey.
  unfold verify_feature_commit, check_author, check_message, check_date, raise_.
  assert (∀ m, P (Print m)) by done. assert (∀ m, P (PrintErr m)) by done.
  apply appends_bind; [by apply appends_print | intros _].
  destruct (Text.sha_re_match (sha feat)) eqn:Hsha; cbn [negb].
  2:{ apply appends_bind; [by apply appends_eprint | intros _]. apply appends_return. }
  apply appends_bind.
  { apply appends_call. intros t. apply verify_commit_appends; [|done].
    intros _. split; [done|]. exists feat. rewrite <- features_sha_format by done.
    done. }
  intros [d|].
  2:{ apply appends_bind; [by apply appends_eprint | intros _]. apply appends_return. }
  repeat first
    [ apply appends_ret | apply appends_return | apply appends_eval
    | apply appends_print; done | apply appends_eprint; done
    | apply appends_bind; [|intros ?]
    | case_match ].
Qed.

Lemma verify_commits_appends fs n :
  (∀ f, f ∈ fs → f ∈ features) →
  appends P (verify_commits commits_api cfg (get_github_headers token) org fs n).
Proof.
  revert n. induction fs as [|f fs IH]; intros n Hsub; cbn [verify_commits].
  - apply appends_ret.
  - assert (∀ f', f' ∈ fs → f' ∈ features) by (intros; apply Hsub; by right).
    destruct (expected_authors cfg !! sha f) eqn:Hf; [|by apply IH].
    apply appends_bind; [|intros _; by apply IH].
    apply verify_feature_commit_appends; [apply Hsub; by left | by rewrite Hf].
Qed.

Lemma check_sections_appends doc sections : appends P (check_sections doc sections).
Proof.
  induction sections as [|s sections IH]; cbn [check_sections]; [apply appends_ret|].
  case_match.
  - apply appends_bind; [by apply appends_eprint | intros _]. apply appends_return.
  - apply appends_bind; [by apply appends_print | by intros _].
Qed.

Lemma check_expected_features_appends m items :
  appends P (check_expected_features m items).
Proof.
  induction items as [|[n s] items IH]; cbn [check_expected_features];
    [apply appends_ret|].
  repeat first
    [ apply appends_return | assumption
    | apply appends_print; done | apply appends_eprint; done
    | apply appends_bind; [|intros ?]
    | case_match ].
Qed.

Lemma verify_document_appends doc :
  parse_feature_table doc (table_header cfg) = features →
  appends P (verify_document commits_api cfg (get_github_headers token) org doc).
Proof.
  intros Hfeatures. unfold verify_document. rewrite Hfeatures.
  pose proof check_sections_appends. pose proof check_expected_features_appends.
  assert (∀ n, appends P (verify_commits commits_api cfg (get_github_headers token) org
                            features n)) by (intros; by apply verify_commits_appends).
  repeat first
    [ apply appends_return | done
    | apply appends_print; done | apply appends_eprint; done
    | apply appends_bind; [|intros ?]
    | case_match ].
Qed.

End Requests.

(** X17: a run only appends to the trace, and every request it makes is
    either the one for the feature document or the lookup of a sha that is
    forty lowercase hexadecimal digits, belongs to a parsed record and is a
    key of [expected_authors]; each request carries the headers built from
    the token. *)
Theorem run_requests_are_expected cfg token org (t : trace) :
  ∃ es,
    snd (run_verification contents_api commits_api b64decode_utf8 cfg token org t)
      = t ++ es
    ∧ Forall (request_ok cfg token org
                (parsed_features contents_api b64decode_utf8 cfg token org t)) es.
Proof.
  rewrite run_verification_unfold. unfold parsed_features, fetched_document.
  set (P := request_ok cfg token org).
  destruct (fetch_github_file_appends
              (P match fst (fetch_github_file contents_api b64decode_utf8
                              (feature_doc_path cfg) (get_github_headers token) org
                              (target_repo cfg) (target_branch cfg)
                              (t ++ run_banner cfg org)) with
                 | Some doc => parse_feature_table doc (table_header cfg)
                 | None => []
                 end)
              (feature_doc_path cfg) (get_github_headers token) org
              (target_repo cfg) (target_branch cfg) (t ++ run_banner cfg org))
    as (es1 & Hes1 & HP1); [done | done |].
  destruct (fetch_github_file _ _ _ _ _ _ _ _) as [fetched t1].
  simpl in Hes1, HP1. simpl fst. subst t1.
  assert (Hbanner : ∀ fs, Forall (P fs) (run_banner cfg org))
    by (intros fs; repeat constructor).
  destruct (negb (truthy fetched)) eqn:Htruthy.
  - exists (run_banner cfg org ++ es1). rewrite app_assoc. split; [done|].
    apply Forall_app. split; [apply Hbanner | done].
  - destruct fetched as [doc|]; [|done]. cbn [default from_option id].
    destruct (appends_body (P (parse_feature_table doc (table_header cfg)))
                (verify_document commits_api cfg (get_github_headers token) org doc)
                ((t ++ run_banner cfg org) ++ es1)) as (es2 & Hes2 & HP2).
    { apply verify_document_appends; [|done].
      intros f Hf. by eapply sha_re_match_one_line, parsed_sha_one_line. }
    exists (run_banner cfg org ++ es1 ++ es2). rewrite Hes2, !app_assoc.
    split; [done|]. rewrite !Forall_app. auto.
Qed.

(** *** Smaller steps *)

Lemma foldl_insert_other (features : list feature) (m : gmap string string) (n : string) :
  (∀ g, g ∈ features → name g ≠ n) →
  foldl (λ m feat, <[name feat := sha feat]> m) m features !! n = m !! n.
Proof.
  revert m. induction features as [|g features IH]; intros m Hno; [done|].
  simpl. rewrite IH by (intros g' Hg'; apply Hno; by right).
  apply lookup_insert_ne, Hno. by left.
Qed.

(** X18: in the name-to-sha map of step 5 the last record with a given
    name wins. *)
Theorem name_to_sha_last_wins (before after : list feature) (f : feature) :
  (∀ g, g ∈ after → name g ≠ name f) →
  name_to_sha (before ++ f :: after) !! name f = Some (sha f).
Proof.
  intros Hafter. unfold name_to_sha. rewrite foldl_app. simpl.
  rewrite foldl_insert_other by done. apply lookup_insert_eq.
Qed.

(** X19: the message check looks at the first line of the commit message
    only: for a message made of a line [l], a newline and anything, the
    check passes exactly when [l] is the expected message, the empty string
    standing in for a missing entry. *)
Theorem check_message_first_line feat_sha (d : commit_json)
    (msgs : gmap string string) (l rest : string) (t : trace) :
  Text.lacks newline l = true →
  detail_commit d = Holds (CommitObject (Holds (l +:+ String newline rest))) →
  (check_message feat_sha d msgs t = (Next tt, t)
   ↔ l = default "" (msgs !! feat_sha))
  ∧ (l ≠ default "" (msgs !! feat_sha) →
     check_message feat_sha d msgs t
     = (Return (Returned false),
        t ++ [PrintErr (MessageMismatch (Text.take 8 feat_sha));
              PrintErr (Expected (ShownStr (default "" (msgs !! feat_sha))));
              PrintErr (Actual (ShownStr l))])).
Proof.
  intros Hl Hd.
  assert (Hfirst : first_message_line d = Returned l).
  { unfold first_message_line. rewrite Hd. cbn [get_with_default commit_message].
    by rewrite split_app, (split_lacks newline l Hl). }
  unfold check_message. rewrite Hfirst. cbn [eval]. run_monad.
  destruct (decide (l = default "" (msgs !! feat_sha))) as [Heq|Hne].
  - rewrite (bool_decide_eq_true_2 _ Heq). split; [done|]. by intros [].
  - rewrite (bool_decide_eq_false_2 _ Hne). cbn [negb]. run_monad.
    rewrite <- !app_assoc. split; [|done]. split; [done|]. intros ?. by destruct Hne.
Qed.

(** X20: step 2 reports the first required section that is missing, in
    configuration order, after a success line for each section before
    it. *)
Theorem check_sections_reports_first_missing doc (present : list string)
    (missing : string) (rest : list string) (t : trace) :
  Forall (λ s, Text.contains s doc = true) present →
  Text.contains missing doc = false →
  check_sections doc (present ++ missing :: rest) t
  = (Return (Returned false),
     t ++ map (λ s, Print (SectionPresent s)) present
       ++ [PrintErr (MissingSection missing)]).
Proof.
  intros Hpresent Hmissing. revert t.
  induction Hpresent as [|s present Hs _ IH]; intros t.
  - cbn [app check_sections map]. by rewrite Hmissing.
  - cbn [app check_sections map]. rewrite Hs. cbn [negb]. run_monad.
    rewrite IH. by rewrite <- app_assoc.
Qed.

End PipelineEdges.

Lemma empty_document_fails_silently_witness :
  run_verification serve_empty commits_down no_decoder cfg_a "tok" "org" []
  = (Returned false,
     [] ++ run_banner cfg_a "org"
        ++ [HttpGet ContentsEndpoint
              (contents_url "org" (target_repo cfg_a) (feature_doc_path cfg_a)
                 (target_branch cfg_a))
              (get_github_headers "tok")]).
Proof.
  apply (empty_document_fails_silently serve_empty commits_down no_decoder
           cfg_a "tok" "org" []).
  reflexivity.
Defined.

Lemma empty_table_header_fails_witness :
  fst (run_verification (serve_doc doc_a) (serve_commit commit_a) no_decoder
         cfg_empty_header "tok" "org" []) = Returned false.
Proof.
  apply (empty_table_header_fails (serve_doc doc_a) (serve_commit commit_a) no_decoder
           cfg_empty_header "tok" "org" []).
  reflexivity.
Defined.

Lemma no_expected_author_no_lookup_witness :
  (∀ headers n (t' : trace),
     verify_commits commits_down cfg_no_authors headers "org"
       (parsed_features (serve_doc doc_a) no_decoder cfg_no_authors "tok" "org" []) n t'
     = (Next n, t'))
  ∧ ∃ es,
      snd (run_verification (serve_doc doc_a) commits_down no_decoder
             cfg_no_authors "tok" "org" [])
        = [] ++ es
      ∧ no_commit_lookup es = true.
Proof.
  apply (no_expected_author_no_lookup (serve_doc doc_a) commits_down no_decoder
           cfg_no_authors "tok" "org" []).
  intros f _. reflexivity.
Defined.

Lemma name_to_sha_last_wins_witness :
  name_to_sha ([record_a "XYZ"] ++ record_a sha_a :: []) !! name (record_a sha_a)
  = Some (sha (record_a sha_a)).
Proof.
  apply (name_to_sha_last_wins [record_a "XYZ"] [] (record_a sha_a)).
  intros g Hg. by apply elem_of_nil in Hg.
Defined.

Lemma check_message_first_line_witness :
  (check_message sha_a commit_a (expected_messages cfg_a) [] = (Next tt, [])
   ↔ "fix bug" = default "" (expected_messages cfg_a !! sha_a))
  ∧ ("fix bug" ≠ default "" (expected_messages cfg_a !! sha_a) →
     check_message sha_a commit_a (expected_messages cfg_a) []
     = (Return (Returned false),
        [] ++ [PrintErr (MessageMismatch (Text.take 8 sha_a));
               PrintErr (Expected (ShownStr (default "" (expected_messages cfg_a !! sha_a))));
               PrintErr (Actual (ShownStr "fix bug"))])).
Proof.
  apply (check_message_first_line sha_a commit_a (expected_messages cfg_a)
           "fix bug" "details" []); reflexivity.
Defined.

Lemma check_sections_reports_first_missing_witness :
  check_sections doc_a (["# Log"] ++ "## Changelog" :: ["| Feature"]) []
  = (Return (Returned false),
     [] ++ map (λ s, Print (SectionPresent s)) ["# Log"]
        ++ [PrintErr (MissingSection "## Changelog")]).
Proof.
  apply (check_sections_reports_first_missing doc_a ["# Log"] "## Changelog"
           ["| Feature"] []).
  - apply Forall_singleton. by vm_compute.
  - by vm_compute.
Defined.

(** ** Properties of the two loaders *)

Section LoaderProperties.

Variable path_exists : string → bool.
Variable load_dotenv : string → string + gmap string string.
Variable read_yaml : string → string + yaml.

(** X21: [load_environment] returns a pair exactly when the file exists,
    loading it raises nothing and both [GITHUB_TOKEN] and [GITHUB_ORG] hold
    a non-empty value; the pair then holds these two values and nothing has
    been printed.  A variable set to the empty string counts as missing. *)
Theorem load_environment_returns (env_path token org : string)
    (msgs : list loader_msg) :
  load_environment path_exists load_dotenv env_path = (Returns (token, org), msgs)
  ↔ path_exists env_path = true
    ∧ (∃ env, load_dotenv env_path = inr env
              ∧ env !! "GITHUB_TOKEN" = Some token ∧ token ≠ ""
              ∧ env !! "GITHUB_ORG" = Some org ∧ org ≠ "")
    ∧ msgs = [].
Proof.
  unfold load_environment. split.
  - destruct (path_exists env_path); cbn [negb]; [|done].
    destruct (load_dotenv env_path) as [descr|env]; [done|]. cbv zeta.
    destruct (env !! "GITHUB_TOKEN") as [[|c tok]|] eqn:Htok; [done | | done].
    destruct (env !! "GITHUB_ORG") as [[|c' o]|] eqn:Horg; [done | | done].
    intros [= <- <- <-]. split; [done|]. split; [|done]. by exists env.
  - intros (-> & (env & -> & Htok & Hne & Horg & Hne') & ->). cbn [negb]. cbv zeta.
    rewrite Htok, Horg. destruct token; [done|]. by destruct org.
Qed.

Lemma check_required_fields_returns (config v : yaml) (fields : list string)
    (msgs : list loader_msg) :
  check_required_fields config fields = (Returns v, msgs)
  ↔ v = config ∧ msgs = [] ∧ Forall (λ f, py_in f config = Some true) fields.
Proof.
  induction fields as [|f fields IH]; cbn [check_required_fields].
  - split; [by intros [= <- <-] | by intros (-> & -> & _)].
  - destruct (py_in f config) as [[|]|] eqn:Hf.
    + rewrite IH. split.
      * intros (-> & -> & Hall). split; [done|]. split; [done|]. by constructor.
      * intros (-> & -> & Hall). split; [done|]. split; [done|].
        by inversion Hall.
    + split; [done|]. intros (_ & _ & Hall). inversion Hall; congruence.
    + split; [done|]. intros (_ & _ & Hall). inversion Hall; congruence.
Qed.

(** X22: [load_project_config] returns a value exactly when the file
    exists, it loads without an exception and each of the ten required
    fields passes the membership test on the loaded value; it then returns
    the loaded value as it is and has printed nothing. *)
Theorem load_project_config_returns (config_path : string) (v : yaml)
    (msgs : list loader_msg) :
  load_project_config path_exists read_yaml config_path = (Returns v, msgs)
  ↔ path_exists config_path = true
    ∧ read_yaml config_path = inr v
    ∧ Forall (λ f, py_in f v = Some true) required_config_fields
    ∧ msgs = [].
Proof.
  unfold load_project_config.
  destruct (path_exists config_path); cbn [negb].
  2:{ split; [done | by intros [? _]]. }
  destruct (read_yaml config_path) as [descr|config].
  { split; [done | by intros (_ & ? & _)]. }
  rewrite check_required_fields_returns. split.
  - by intros (-> & -> & Hall).
  - by intros (_ & [= ->] & Hall & ->).
Qed.

Lemma check_required_fields_first_missing (config : yaml)
    (present : list string) (missing : string) (rest : list string) :
  Forall (λ f, py_in f config = Some true) present →
  py_in missing config = Some false →
  check_required_fields config (present ++ missing :: rest)
  = (Exits 1, [ConfigFieldMissing missing]).
Proof.
  intros Hpresent Hmissing.
  induction Hpresent as [|f present Hf _ IH]; cbn [app check_required_fields].
  - by rewrite Hmissing.
  - by rewrite Hf.
Qed.

(** X23: when the loaded value lacks required fields, [load_project_config]
    names the first missing one, in the order of the list of required
    fields, prints nothing else and exits with code 1. *)
Theorem load_project_config_first_missing (config_path : string) (config : yaml)
    (present : list string) (missing : string) (rest : list string) :
  path_exists config_path = true →
  read_yaml config_path = inr config →
  required_config_fields = present ++ missing :: rest →
  Forall (λ f, py_in f config = Some true) present →
  py_in missing config = Some false →
  load_project_config path_exists read_yaml config_path
  = (Exits 1, [ConfigFieldMissing missing]).
Proof.
  intros Hexists Hread Hsplit Hpresent Hmissing.
  unfold load_project_config. rewrite Hexists, Hread, Hsplit. cbn [negb].
  by apply check_required_fields_first_missing.
Qed.

End LoaderProperties.

Lemma load_environment_returns_witness :
  load_environment (λ _, true) (λ _, inr sample_env) ".env" = (Returns ("tok", "org"), []).
Proof.
  apply (proj2 (load_environment_returns (λ _, true) (λ _, inr sample_env)
                  ".env" "tok" "org" [])).
  split; [done|]. split; [|done]. exists sample_env. by vm_compute.
Defined.

Lemma load_project_config_returns_witness :
  load_project_config (λ _, true) (λ _, inr sample_yaml) "config.yaml"
  = (Returns sample_yaml, []).
Proof.
  apply (proj2 (load_project_config_returns (λ _, true) (λ _, inr sample_yaml)
                  "config.yaml" sample_yaml [])).
  split; [done|]. split; [done|]. split; [|done].
  repeat constructor.
Defined.

Lemma load_project_config_first_missing_witness :
  load_project_config (λ _, true) (λ _, inr sample_yaml_incomplete) "config.yaml"
  = (Exits 1, [ConfigFieldMissing "table_header"]).
Proof.
  apply (load_project_config_first_missing (λ _, true)
           (λ _, inr sample_yaml_incomplete) "config.yaml" sample_yaml_incomplete
           ["target_repo"; "target_branch"; "feature_doc_path"] "table_header"
           ["required_sections"; "min_feature_count"; "expected_features";
            "expected_authors"; "expected_messages"; "expected_dates"]).
  - reflexivity.
  - reflexivity.
  - reflexivity.
  - repeat constructor.
  - reflexivity.
Defined.

(** ** Diagnostics of a run *)

Lemma has_error_line_app (es es' : list event) :
  has_error_line (es ++ es') = has_error_line es || has_error_line es'.
Proof. apply existsb_app. Qed.

Lemma explains_bind {A B} (m : M (outcome bool) A) (k : A → M (outcome bool) B)
    (t : trace) :
  explains_at m t →
  (∀ a t1, m t = (Next a, t1) → explains_at (k a) t1) →
  explains_at (m ≫= k) t.
Proof.
  intros (es & Hes & Hiff) Hk. unfold explains_at, mbind, M_bind.
  destruct (m t) as [[a|r] t1] eqn:Hmt; simpl in Hes, Hiff; subst t1.
  - destruct (Hk a _ eq_refl) as (es' & Hes' & Hiff').
    exists (es ++ es'). rewrite Hes', app_assoc. split; [done|].
    rewrite has_error_line_app.
    destruct (has_error_line es); [by destruct Hiff as [Hiff _]; specialize (Hiff eq_refl)|].
    done.
  - exists es. split; [done|]. cbn [fst]. rewrite Hiff.
    split; intros [= ->]; done.
Qed.

Lemma explains_ret {A} (a : A) (t : trace) : explains_at (mret a) t.
Proof. exists []. rewrite app_nil_r. split; [done|]. by split. Qed.

Lemma explains_return_true {A} (t : trace) :
  explains_at (return_ (A:=A) (Returned true)) t.
Proof. exists []. rewrite app_nil_r. split; [done|]. by split. Qed.

(** An exception leaves the function without a line of the script's own. *)
Lemma explains_raise {A} (e : exn) (t : trace) : explains_at (raise_ (A:=A) e) t.
Proof. exists []. rewrite app_nil_r. split; [done|]. by split. Qed.

Lemma explains_eval {A} (o : outcome A) (t : trace) : explains_at (eval o) t.
Proof. destruct o; [apply explains_ret | apply explains_raise]. Qed.

Lemma explains_print (m : msg) (t : trace) : explains_at (print m) t.
Proof. exists [Print m]. split; [done|]. by split. Qed.

(** An error line followed by statements that end in [return False]. *)
Lemma explains_error_exit {A} (e : msg) (m : M (outcome bool) A) (t : trace) :
  stops m → quiet m → explains_at (eprint e;; m) t.
Proof.
  intros Hstops Hquiet. unfold explains_at, mbind, M_bind, eprint.
  destruct (Hquiet (t ++ [PrintErr e])) as (es & Hes & _).
  exists ([PrintErr e] ++ es). rewrite Hes, app_assoc. split; [done|].
  by rewrite Hstops.
Qed.

(** A call whose events are [es0], followed by the rest of the block. *)
Lemma explains_call {A B} (f : fn A) (k : A → M (outcome bool) B) (t : trace)
    (a : A) (es0 : list event) :
  f t = (a, t ++ es0) →
  (∃ es, snd (k a (t ++ es0)) = (t ++ es0) ++ es
         ∧ (has_error_line (es0 ++ es) = true
            ↔ fst (k a (t ++ es0)) = Return (Returned false))) →
  explains_at (call f ≫= k) t.
Proof.
  intros Hf (es & Hes & Hiff). unfold explains_at, mbind, M_bind, call.
  rewrite Hf. exists (es0 ++ es). rewrite app_assoc.
  by destruct (k a (t ++ es0)) as [[b|r] t2].
Qed.

Lemma returns_bind {R A B} (m : M R A) (k : A → M R B) :
  (∀ a, returns (k a)) → returns (m ≫= k).
Proof.
  intros Hk t. unfold mbind, M_bind.
  destruct (m t) as [[a|r] t1]; [apply Hk | by eexists _, _].
Qed.

Lemma returns_return {R A} (r : R) : returns (return_ (A:=A) r).
Proof. intros t. by eexists _, _. Qed.

(** Closes a branch that prints on the error stream and returns [False]. *)
Ltac error_exit :=
  apply explains_error_exit;
  [ repeat (apply stops_bind_r; [solve [flow] | intros _]); flow
  | flow ].

Section Diagnostics.

Variable contents_api : trace → http_result contents_json.
Variable commits_api : trace → http_result commit_json.
Variable b64decode_utf8 : string → option string.

(** Step 1 on an answer with a falsy content: the fetch returns a falsy
    value and appends its request only. *)
Lemma fetch_github_file_falsy file_path headers org repo branch (t : trace) :
  falsy_content b64decode_utf8
    (contents_api
       (t ++ [HttpGet ContentsEndpoint (contents_url org repo file_path branch) headers]))
    = true →
  ∃ fetched,
    fetch_github_file contents_api b64decode_utf8 file_path headers org repo branch t
    = (fetched,
       t ++ [HttpGet ContentsEndpoint (contents_url org repo file_path branch) headers])
    ∧ truthy fetched = false.
Proof.
  unfold fetch_github_file, falsy_content. run_monad.
  destruct (contents_api _) as [| descr | r]; cbv beta iota; [done | done |].
  destruct (status_code r =? 200); cbn [andb]; [|done].
  destruct (json r) as [[|data]|]; cbv beta iota; [done | | done].
  destruct (bool_decide (encoding data = Some "base64")).
  - destruct (content data) as [| |c]; [done | done |].
    intros ->%bool_decide_eq_true. by eexists.
  - destruct (content data) as [| |[|c0 c]]; cbn [get_with_default]; [| | |done];
      intros _; by eexists.
Qed.

(** Step 1 on any other answer: the fetch returns a document that is not
    empty, or it returns [None] after a line on the error stream. *)
Lemma fetch_github_file_reported file_path headers org repo branch (t : trace) :
  falsy_content b64decode_utf8
    (contents_api
       (t ++ [HttpGet ContentsEndpoint (contents_url org repo file_path branch) headers]))
    = false →
  ∃ fetched es,
    fetch_github_file contents_api b64decode_utf8 file_path headers org repo branch t
    = (fetched,
       t ++ [HttpGet ContentsEndpoint (contents_url org repo file_path branch) headers]
         ++ es)
    ∧ ((truthy fetched = true ∧ es = [])
       ∨ (fetched = None ∧ has_error_line es = true)).
Proof.
  unfold fetch_github_file, falsy_content. run_monad.
  destruct (contents_api _) as [| descr | r]; cbv beta iota.
  1,2: intros _; eexists None, [_]; rewrite <- app_assoc; split; [done | by right].
  destruct (status_code r =? 200); cbn [andb].
  2:{ intros _. all_branches; simplify_eq; rewrite <- ?app_assoc; cbn [app];
        eexists None, _; (split; [reflexivity | by right]). }
  destruct (json r) as [[|data]|]; cbv beta iota.
  1,3: intros _; eexists None, [_]; rewrite <- app_assoc; split; [done | by right].
  destruct (bool_decide (encoding data = Some "base64")).
  - destruct (content data) as [| |c]; cbv beta iota.
    1,2: intros _; eexists None, [_]; rewrite <- app_assoc; split; [done | by right].
    destruct (b64decode_utf8 c) as [[|c0 decoded]|]; cbv beta iota.
    + by rewrite bool_decide_eq_true_2.
    + intros _. eexists (Some _), []. rewrite app_nil_r. split; [done | by left].
    + intros _. eexists None, [_]. rewrite <- app_assoc. split; [done | by right].
  - destruct (content data) as [| |[|c0 c]]; cbn [get_with_default]; [done | done | done |].
    intros _. eexists (Some _), []. rewrite app_nil_r. split; [done | by left].
Qed.

Lemma check_sections_explains doc sections (t : trace) :
  explains_at (check_sections doc sections) t.
Proof.
  revert t. induction sections as [|s sections IH]; intros t; cbn [check_sections].
  - apply explains_ret.
  - case_match; [error_exit|].
    apply explains_bind; [apply explains_print | intros; apply IH].
Qed.

Lemma check_expected_features_explains m items (t : trace) :
  explains_at (check_expected_features m items) t.
Proof.
  revert t. induction items as [|[n s] items IH]; intros t;
    cbn [check_expected_features].
  - apply explains_ret.
  - repeat case_match; try error_exit.
    apply explains_bind; [apply explains_print | intros; apply IH].
Qed.

Lemma check_author_explains feat_sha d authors (t : trace) :
  explains_at (check_author feat_sha d authors) t.
Proof.
  unfold check_author.
  repeat case_match; try error_exit;
    first [apply explains_print | apply explains_ret | apply explains_raise].
Qed.

Lemma check_message_explains feat_sha d msgs (t : trace) :
  explains_at (check_message feat_sha d msgs) t.
Proof.
  unfold check_message.
  apply explains_bind; [apply explains_eval | intros l t1 _].
  case_match; [error_exit | apply explains_ret].
Qed.

Lemma check_date_explains feat dates (t : trace) :
  explains_at (check_date feat dates) t.
Proof.
  unfold check_date. repeat case_match; try error_exit. apply explains_ret.
Qed.

Lemma verify_feature_commit_explains cfg headers org feat (t : trace) :
  explains_at (verify_feature_commit commits_api cfg headers org feat) t.
Proof.
  unfold verify_feature_commit.
  apply explains_bind; [apply explains_print | intros _ t1 _].
  destruct (Text.sha_re_match (sha feat)) eqn:Hsha; cbn [negb]; [|error_exit].
  destruct (verify_commit commits_api (sha feat) headers org (target_repo cfg) t1)
    as [[d|] t2] eqn:Hlookup.
  - pose proof Hlookup as Htrace.
    apply verify_commit_some_trace in Htrace as (_ & ->).
    eapply explains_call; [exact Hlookup|].
    assert (Hrest : explains_at
              (check_author (sha feat) d (expected_authors cfg);;
               check_message (sha feat) d (expected_messages cfg);;
               check_date feat (expected_dates cfg);;
               print (CommitVerified (Text.take 8 (sha feat))))
              (t1 ++ [HttpGet CommitsEndpoint
                        (commit_url org (target_repo cfg) (sha feat)) headers])).
    { apply explains_bind; [apply check_author_explains | intros].
      apply explains_bind; [apply check_message_explains | intros].
      apply explains_bind; [apply check_date_explains | intros].
      apply explains_print. }
    destruct Hrest as (es & Hes & Hiff). exists es. split; [done|].
    by rewrite has_error_line_app.
  - pose proof Hlookup as Htrace.
    apply verify_commit_none_trace in Htrace as (m & ->). rewrite Hsha in Hlookup.
    eapply explains_call; [exact Hlookup|].
    eexists; split; [reflexivity|]; by split.
Qed.

Lemma verify_commits_explains cfg headers org features n (t : trace) :
  explains_at (verify_commits commits_api cfg headers org features n) t.
Proof.
  revert n t. induction features as [|f features IH]; intros n t; cbn [verify_commits].
  - apply explains_ret.
  - case_match; [|apply IH].
    apply explains_bind; [apply verify_feature_commit_explains | intros; apply IH].
Qed.

Lemma verify_document_explains cfg headers org doc (t : trace) :
  explains_at (verify_document commits_api cfg headers org doc) t.
Proof.
  unfold verify_document.
  apply explains_bind; [apply explains_print | intros].
  apply explains_bind; [apply explains_print | intros].
  apply explains_bind; [apply check_sections_explains | intros].
  apply explains_bind; [apply explains_print | intros].
  apply explains_bind; [apply explains_print | intros].
  case_match; [error_exit|].
  apply explains_bind; [apply explains_print | intros].
  apply explains_bind; [apply explains_print | intros].
  case_match; [error_exit|].
  apply explains_bind; [apply explains_print | intros].
  apply explains_bind; [apply explains_print | intros].
  apply explains_bind; [apply check_expected_features_explains | intros].
  apply explains_bind; [apply explains_print | intros].
  apply explains_bind; [apply explains_print | intros].
  apply explains_bind; [apply verify_commits_explains | intros].
  apply explains_bind; [apply explains_print | intros].
  apply explains_bind; [apply explains_print | intros].
  apply explains_bind; [apply explains_print | intros].
  apply explains_bind; [apply explains_print | intros].
  apply explains_return_true.
Qed.

Lemma verify_document_returns cfg headers org doc :
  returns (verify_document commits_api cfg headers org doc).
Proof.
  unfold verify_document.
  repeat first
    [ apply returns_return
    | apply returns_bind; intros ?
    | case_match ].
Qed.

(** X24: a run only appends to the trace.  Unless the contents endpoint
    answers with status 200 and a content that is absent, [null] or empty,
    the run prints on the error stream exactly when it returns [False]:
    every such failure is explained, and a run that passes or raises
    prints no error line of its own.  In the excepted case the run returns
    [False] right after the request, without a line on the error stream. *)
Theorem run_explains_failure cfg token org (t : trace) :
  (falsy_content b64decode_utf8
     (contents_api ((t ++ run_banner cfg org) ++ [document_request cfg token org]))
   = false →
   ∃ es,
     snd (run_verification contents_api commits_api b64decode_utf8 cfg token org t)
       = t ++ es
     ∧ (has_error_line es = true
        ↔ fst (run_verification contents_api commits_api b64decode_utf8 cfg token org t)
          = Returned false))
  ∧ (falsy_content b64decode_utf8
       (contents_api ((t ++ run_banner cfg org) ++ [document_request cfg token org]))
     = true →
     run_verification contents_api commits_api b64decode_utf8 cfg token org t
     = (Returned false, t ++ run_banner cfg org ++ [document_request cfg token org])).
Proof.
  rewrite run_verification_unfold. unfold document_request. split.
  - intros (fetched & es1 & -> & Hcases)%fetch_github_file_reported.
    destruct Hcases as [[Htruthy ->] | [-> Herr]].
    + destruct fetched as [[|c0 doc0]|]; try done.
      cbn [truthy negb default from_option id]. rewrite app_nil_r.
      set (doc := String c0 doc0). set (t1 := (t ++ run_banner cfg org) ++ _).
      destruct (verify_document_explains cfg (get_github_headers token) org doc t1)
        as (es & Hes & Hiff).
      destruct (verify_document_returns cfg (get_github_headers token) org doc t1)
        as (r & t2 & Hrun).
      unfold body. rewrite Hrun in *. cbn [fst snd] in *. subst t2 t1.
      eexists. split; [by rewrite <- !app_assoc|].
      rewrite !has_error_line_app.
      cbn [has_error_line existsb is_error_line run_banner orb].
      rewrite Hiff. split; [by intros [= ->] | by intros ->].
    + cbn [truthy negb fst snd]. eexists. split; [by rewrite <- !app_assoc|].
      rewrite !has_error_line_app, Herr. by rewrite !orb_true_r.
  - intros (fetched & -> & ->)%fetch_github_file_falsy. cbn [negb].
    by rewrite <- app_assoc.
Qed.

End Diagnostics.

(** A run that fails on the date of the sample record, and a run whose
    document has [null] as its content. *)
Lemma run_explains_failure_witness :
  (∃ es,
     snd (run_verification (serve_doc doc_a) (serve_commit commit_a) no_decoder
            cfg_no_date "tok" "org" [])
       = [] ++ es
     ∧ (has_error_line es = true
        ↔ fst (run_verification (serve_doc doc_a) (serve_commit commit_a) no_decoder
                 cfg_no_date "tok" "org" [])
          = Returned false))
  ∧ run_verification serve_null_content commits_down no_decoder cfg_a "tok" "org" []
    = (Returned false,
       [] ++ run_banner cfg_a "org" ++ [document_request cfg_a "tok" "org"]).
Proof.
  split.
  - apply (run_explains_failure (serve_doc doc_a) (serve_commit commit_a) no_decoder
             cfg_no_date "tok" "org" []).
    reflexivity.
  - apply (run_explains_failure serve_null_content commits_down no_decoder
             cfg_a "tok" "org" []).
    reflexivity.
Defined.

(** ** Exceptions of a run *)

Lemma ends_with_bind {A B} Q (m : M (outcome bool) A) (k : A → M (outcome bool) B) :
  ends_with Q m → (∀ a, ends_with Q (k a)) → ends_with Q (m ≫= k).
Proof.
  intros Hm Hk t r t'. unfold mbind, M_bind.
  destruct (m t) as [[a|r0] t1] eqn:Hmt.
  - apply Hk.
  - intros [= <- <-]. by eapply Hm.
Qed.

Lemma ends_with_fails_only {A} (Q : outcome bool → Prop) (m : M (outcome bool) A) :
  Q (Returned false) → fails_only m → ends_with Q m.
Proof. intros HQ Hm t r t' Hrun. by rewrite (Hm _ _ _ Hrun). Qed.

Lemma ends_with_return {A} (Q : outcome bool → Prop) (r : outcome bool) :
  Q r → ends_with Q (return_ (A:=A) r).
Proof. intros HQ t r' t'. by intros [= <- _]. Qed.

Lemma ends_with_after_call {A B} Q (f : fn A) (k : A → M (outcome bool) B) :
  (∀ t a t', f t = (a, t') → ends_with Q (k a)) → ends_with Q (call f ≫= k).
Proof.
  intros Hk t r t'. unfold mbind, M_bind, call.
  destruct (f t) as [a t1] eqn:Hf. by eapply Hk.
Qed.

Lemma first_message_line_null d e :
  first_message_line d = Raised e → message_is_text d = false.
Proof.
  unfold first_message_line, message_is_text.
  by destruct (detail_commit d) as [| |[[| |m]]].
Qed.

Section Exceptions.

Variable contents_api : trace → http_result contents_json.
Variable commits_api : trace → http_result commit_json.
Variable b64decode_utf8 : string → option string.

Let Q : outcome bool → Prop := raised_on_null_message commits_api.

Lemma raised_on_null_message_returned (b : bool) : Q (Returned b).
Proof. by intros e. Qed.

Lemma ends_with_print {A} (m : msg) (k : M (outcome bool) A) :
  ends_with Q k → ends_with Q (print m;; k).
Proof.
  intros Hk. apply ends_with_bind; [|by intros _].
  apply ends_with_fails_only; [apply raised_on_null_message_returned | flow].
Qed.

Lemma check_message_ends feat_sha d msgs (t0 : trace) r :
  commits_api t0 = Responds r → json r = Some d →
  ends_with Q (check_message feat_sha d msgs).
Proof.
  intros Hapi Hjson. unfold check_message. apply ends_with_bind.
  - destruct (first_message_line d) as [l|e] eqn:Hline; cbn [eval].
    + apply ends_with_fails_only; [apply raised_on_null_message_returned | flow].
    + apply ends_with_return. intros e' [= <-].
      split; [by eapply first_message_line_raises|].
      exists t0, r, d. split_and!; try done. by eapply first_message_line_null.
  - intros l. apply ends_with_fails_only; [apply raised_on_null_message_returned | flow].
Qed.

Lemma verify_feature_commit_ends cfg headers org feat :
  ends_with Q (verify_feature_commit commits_api cfg headers org feat).
Proof.
  unfold verify_feature_commit. apply ends_with_print.
  case_match.
  { apply ends_with_fails_only; [apply raised_on_null_message_returned | flow]. }
  apply ends_with_after_call. intros t [d|] t' Hlookup.
  2:{ apply ends_with_fails_only; [apply raised_on_null_message_returned | flow]. }
  pose proof (verify_commit_author_shape _ _ _ _ _ _ _ _ Hlookup) as Hshape.
  apply verify_commit_served in Hlookup as (t0 & r & Hapi & Hjson).
  apply ends_with_bind.
  { apply ends_with_fails_only; [apply raised_on_null_message_returned|].
    by apply check_author_fails_only. }
  intros _. apply ends_with_bind; [by eapply check_message_ends | intros _].
  apply ends_with_fails_only; [apply raised_on_null_message_returned|].
  pose proof check_date_fails_only. flow.
Qed.

Lemma verify_commits_ends cfg headers org features n :
  ends_with Q (verify_commits commits_api cfg headers org features n).
Proof.
  revert n. induction features as [|f features IH]; intros n; cbn [verify_commits].
  - apply ends_with_fails_only; [apply raised_on_null_message_returned | flow].
  - case_match; [|apply IH].
    apply ends_with_bind; [apply verify_feature_commit_ends | intros _; apply IH].
Qed.

Lemma verify_document_ends cfg headers org doc :
  ends_with Q (verify_document commits_api cfg headers org doc).
Proof.
  unfold verify_document.
  pose proof check_sections_fails_only. pose proof check_expected_features_fails_only.
  pose proof (raised_on_null_message_returned false).
  repeat first
    [ apply ends_with_return, raised_on_null_message_returned
    | apply verify_commits_ends
    | apply ends_with_fails_only; [done | solve [flow]]
    | apply ends_with_bind; [|intros ?]
    | case_match ].
Qed.

(** X25: the only exception that leaves [run_verification] is the
    [AttributeError] of line 378, and it takes a commit that the service
    has sent with [null] as its [commit] or as the [message] of it. *)
Theorem run_raises_on_null_message cfg token org (t : trace) (e : exn) :
  fst (run_verification contents_api commits_api b64decode_utf8 cfg token org t)
  = Raised e →
  e = AttributeError
  ∧ ∃ t0 r d, commits_api t0 = Responds r ∧ json r = Some d
              ∧ message_is_text d = false.
Proof.
  rewrite run_verification_unfold.
  destruct (fetch_github_file _ _ _ _ _ _ _ _) as [fetched t1].
  destruct (negb (truthy fetched)); [done|].
  destruct (verify_document_returns commits_api cfg (get_github_headers token) org
              (default "" fetched) t1) as (r & t2 & Hrun).
  unfold body. rewrite Hrun. cbn [fst]. intros ->.
  by eapply (verify_document_ends cfg (get_github_headers token) org
               (default "" fetched) t1).
Qed.

End Exceptions.

Lemma run_raises_on_null_message_witness :
  AttributeError = AttributeError
  ∧ ∃ t0 r d, serve_commit commit_null_message t0 = Responds r ∧ json r = Some d
              ∧ message_is_text d = false.
Proof.
  apply (run_raises_on_null_message (serve_doc doc_a) (serve_commit commit_null_message)
           no_decoder cfg_a "tok" "org" []).
  by vm_compute.
Defined.
